(** * The transformation pipeline of the data-transformation workbench

    A shallow embedding of [src/App.tsx]: the type profiler
    ([detectColumnType]) and the five stages of [applyTransformations]
    (filter, sort, aggregation, pivot, formulas), followed by the
    properties of the pipeline.  The statistics of a column
    ([getColumnStats]), the functions that edit the configuration, the
    text of the SQL export, the data of the chart and the choice of a
    parser by file extension are embedded as well.

    Conventions of the embedding.
    - A JavaScript number is an IEEE 754 binary64 value, represented by
      [spec_float] with precision 53 and maximal exponent 1024; additions,
      divisions and comparisons are the correctly rounded ones.
    - A JavaScript string is a [string]: a sequence of 8-bit code units.
    - A cell holds a scalar ([jsval]); a row is the ordered list of its own
      properties, and inherits the members of [Object.prototype].
    - What the browser decides ([localeCompare], [Date.parse], whether a
      pattern compiles, which global names exist) is a field of [host]. *)

From Stdlib Require Import ZArith List String Ascii Bool Lia SpecFloat.
From Stdlib Require Import Permutation Sorted.
From Stdlib Require OrderedTypeEx.
Import ListNotations.

Local Open Scope list_scope.
Local Open Scope string_scope.

(* ================================================================== *)
(** * Characters and strings *)

Definition code (c : ascii) : nat := nat_of_ascii c.

Definition in_range (lo hi : nat) (c : ascii) : bool :=
  (lo <=? code c)%nat && (code c <=? hi)%nat.

Definition is_digit (c : ascii) : bool := in_range 48 57 c.
Definition is_upper (c : ascii) : bool := in_range 65 90 c.
Definition is_lower (c : ascii) : bool := in_range 97 122 c.
Definition is_letter (c : ascii) : bool := is_upper c || is_lower c.

(** The class [[A-Za-z_]] of the formula engine's patterns. *)
Definition is_name_char (c : ascii) : bool := is_letter c || (code c =? 95)%nat.

(** The class [[0-9.]]. *)
Definition is_literal_char (c : ascii) : bool := is_digit c || (code c =? 46)%nat.

(** White space and line terminators: what [trim], [\s] and the numeric
    conversion of a string skip (TAB, LF, VT, FF, CR, SP, NBSP). *)
Definition is_space (c : ascii) : bool :=
  in_range 9 13 c || (code c =? 32)%nat || (code c =? 160)%nat.

(** [toLowerCase] on one code unit: A-Z, and the capital letters of
    Latin-1 (U+00C0 to U+00DE, the multiplication sign U+00D7 apart). *)
Definition lower_char (c : ascii) : ascii :=
  if is_upper c then ascii_of_nat (code c + 32)
  else if in_range 192 222 c && negb (code c =? 215)%nat
       then ascii_of_nat (code c + 32)
       else c.

Fixpoint toLowerCase (s : string) : string :=
  match s with
  | EmptyString => EmptyString
  | String c t => String (lower_char c) (toLowerCase t)
  end.

Fixpoint trimStart (s : string) : string :=
  match s with
  | String c t => if is_space c then trimStart t else s
  | EmptyString => EmptyString
  end.

Fixpoint trimEnd (s : string) : string :=
  match s with
  | EmptyString => EmptyString
  | String c t =>
      match trimEnd t with
      | EmptyString => if is_space c then EmptyString else String c EmptyString
      | t' => String c t'
      end
  end.

Definition trim (s : string) : string := trimEnd (trimStart s).

(** The longest prefix of [s] whose characters satisfy [p], and the rest. *)
Fixpoint span (p : ascii -> bool) (s : string) : string * string :=
  match s with
  | String c t =>
      if p c then let '(a, b) := span p t in (String c a, b)
      else (EmptyString, s)
  | EmptyString => (EmptyString, EmptyString)
  end.

(** [strip_prefix p s] is the rest of [s] after the prefix [p]. *)
Fixpoint strip_prefix (p s : string) : option string :=
  match p, s with
  | EmptyString, _ => Some s
  | String a p', String b s' =>
      if Ascii.eqb a b then strip_prefix p' s' else None
  | String _ _, EmptyString => None
  end.

(** The same, ignoring the case of ASCII letters (the [i] flag). *)
Fixpoint strip_prefix_ci (p s : string) : option string :=
  match p, s with
  | EmptyString, _ => Some s
  | String a p', String b s' =>
      if Ascii.eqb (lower_char a) (lower_char b) && (code b <? 128)%nat
      then strip_prefix_ci p' s' else None
  | String _ _, EmptyString => None
  end.

Definition startsWith (s p : string) : bool :=
  match strip_prefix p s with Some _ => true | None => false end.

Fixpoint includes (s p : string) : bool :=
  startsWith s p ||
  match s with
  | String _ t => includes t p
  | EmptyString => false
  end.

Fixpoint endsWith (s p : string) : bool :=
  String.eqb s p ||
  match s with
  | String _ t => endsWith t p
  | EmptyString => false
  end.

(** [s.split(sep)] for a separator that is not empty. *)
Fixpoint split_go (sep : string) (cur : string -> string) (s : string)
  (skip : nat) : list string :=
  match s with
  | EmptyString => [cur EmptyString]
  | String c t =>
      match skip with
      | S k => split_go sep cur t k
      | O =>
          match strip_prefix sep s with
          | Some _ => cur EmptyString :: split_go sep (fun x => x) t (String.length sep - 1)
          | None => split_go sep (fun x => cur (String c x)) t 0
          end
      end
  end.

Definition str_split (sep s : string) : list string := split_go sep (fun x => x) s 0.

(* ================================================================== *)
(** * Numbers *)

Definition number := spec_float.

Definition prec : Z := 53.
Definition emax : Z := 1024.

Definition num_add : number -> number -> number := SFadd prec emax.
Definition num_sub : number -> number -> number := SFsub prec emax.
Definition num_mul : number -> number -> number := SFmul prec emax.
Definition num_div : number -> number -> number := SFdiv prec emax.
Definition num_neg : number -> number := SFopp.
Definition num_lt : number -> number -> bool := SFltb.
Definition num_le : number -> number -> bool := SFleb.
Definition num_eq : number -> number -> bool := SFeqb.

Definition NaN : number := S754_nan.
Definition Infinity : number := S754_infinity false.

(** The global function [isNaN] on a number. *)
Definition isNaN (x : number) : bool :=
  match x with S754_nan => true | _ => false end.

Definition is_finite (x : number) : bool :=
  match x with S754_nan | S754_infinity _ => false | _ => true end.

Definition num_of_Z (z : Z) : number := binary_normalize prec emax z 0 false.
Definition num_of_nat (n : nat) : number := num_of_Z (Z.of_nat n).

(** Two numbers with the same representation. *)
Definition num_same (x y : number) : bool :=
  match x, y with
  | S754_zero a, S754_zero b => Bool.eqb a b
  | S754_infinity a, S754_infinity b => Bool.eqb a b
  | S754_nan, S754_nan => true
  | S754_finite a m e, S754_finite b m' e' =>
      Bool.eqb a b && Pos.eqb m m' && Z.eqb e e'
  | _, _ => false
  end.

(** ** Decimal numerals *)

Definition digit_char (d : Z) : ascii := ascii_of_nat (48 + Z.to_nat d).

Fixpoint Z_digits (fuel : nat) (n : Z) (acc : string) : string :=
  match fuel with
  | O => acc
  | S f =>
      let acc' := String (digit_char (n mod 10)) acc in
      if (n <? 10)%Z then acc' else Z_digits f (n / 10) acc'
  end.

(** The decimal numeral of a natural number [n]. *)
Definition Z_to_decimal (n : Z) : string :=
  Z_digits (S (Z.to_nat (Z.log2 n))) n EmptyString.

Definition digit_value (c : ascii) : Z :=
  if is_digit c then Z.of_nat (code c - 48)
  else if in_range 97 102 c then Z.of_nat (code c - 87)
  else if in_range 65 70 c then Z.of_nat (code c - 55)
  else 0%Z.

Fixpoint digits_value (base : Z) (acc : Z) (s : string) : Z :=
  match s with
  | EmptyString => acc
  | String c t => digits_value base (acc * base + digit_value c)%Z t
  end.

(** The number nearest to [m * 10 ^ e], for [0 <= m]: an integer is
    rounded as it is, a fraction by the correctly rounded division. *)
Definition num_of_decimal (m e : Z) : number :=
  match m with
  | Zpos p =>
      let d := Z.of_nat (String.length (Z_to_decimal m)) in
      if (310 <? e + d)%Z then Infinity
      else if (e + d <? -330)%Z then S754_zero false
      else if (0 <=? e)%Z then num_of_Z (m * 10 ^ e)
      else match (10 ^ (- e))%Z with
           | Zpos q => num_div (S754_finite false p 0) (S754_finite false q 0)
           | _ => NaN
           end
  | _ => S754_zero false
  end.

(** ** [Number(s)] for a string [s] (StringToNumber) *)

Definition all_chars (p : ascii -> bool) (s : string) : bool :=
  match span p s with (_, EmptyString) => true | _ => false end.

Definition is_hex_digit (c : ascii) : bool :=
  is_digit c || in_range 97 102 c || in_range 65 70 c.

Definition radix_literal (s : string) : option number :=
  match s with
  | String "0" (String x ds) =>
      let lit base p :=
        match ds with
        | EmptyString => Some NaN
        | _ => if all_chars p ds then Some (num_of_Z (digits_value base 0 ds))
               else Some NaN
        end in
      if (code x =? 120)%nat || (code x =? 88)%nat then lit 16%Z is_hex_digit
      else if (code x =? 111)%nat || (code x =? 79)%nat then lit 8%Z (in_range 48 55)
      else if (code x =? 98)%nat || (code x =? 66)%nat then lit 2%Z (in_range 48 49)
      else None
  | _ => None
  end.

(** The exponent part: [e] or [E], an optional sign, digits; nothing after. *)
Definition exponent_part (s : string) : option Z :=
  match s with
  | EmptyString => Some 0%Z
  | String c t =>
      if (code c =? 101)%nat || (code c =? 69)%nat then
        let '(neg, ds) :=
          match t with
          | String "-" u => (true, u)
          | String "+" u => (false, u)
          | _ => (false, t)
          end in
        match ds with
        | EmptyString => None
        | _ => if all_chars is_digit ds
               then Some (if neg then - digits_value 10 0 ds else digits_value 10 0 ds)%Z
               else None
        end
      else None
  end.

Definition unsigned_decimal (s : string) : number :=
  if String.eqb s "Infinity" then Infinity
  else
    let '(ip, r1) := span is_digit s in
    let '(fp, r2) :=
      match r1 with
      | String "." u => span is_digit u
      | _ => (EmptyString, r1)
      end in
    match (ip ++ fp)%string with
    | EmptyString => NaN
    | ds =>
        match exponent_part r2 with
        | Some ex => num_of_decimal (digits_value 10 0 ds) (ex - Z.of_nat (String.length fp))
        | None => NaN
        end
    end.

Definition StringToNumber (s : string) : number :=
  match trim s with
  | EmptyString => S754_zero false
  | String c u as t =>
      match radix_literal t with
      | Some n => n
      | None =>
          if (code c =? 45)%nat then num_neg (unsigned_decimal u)
          else if (code c =? 43)%nat then unsigned_decimal u
          else unsigned_decimal t
      end
  end.

(** ** [String(x)] for a number [x] (Number::toString, radix 10) *)

(** The least [j] from [1] on with [den <= num * 10 ^ j]. *)
Fixpoint first_scale (fuel : nat) (num den : Z) (j : Z) : Z :=
  match fuel with
  | O => j
  | S f => if (den <=? num * 10 ^ j)%Z then j else first_scale f num den (j + 1)
  end.

(** The decimal exponent [n] of [num / den]: [10^(n-1) <= num/den < 10^n]. *)
Definition decimal_exponent (num den : Z) : Z :=
  if (den <=? num)%Z then Z.of_nat (String.length (Z_to_decimal (num / den)))
  else (1 - first_scale 400 num den 1)%Z.

(** The digits [s] (as an integer) and the exponent [n] of the shortest
    decimal that converts back to [x = num / den], the nearest to [x] among
    those of that length, the even one on a tie. *)
Fixpoint shortest_digits (fuel : nat) (x : number) (num den n k : Z) : Z * Z :=
  let '(a, b) := if (n <=? k)%Z then (num * 10 ^ (k - n), den)%Z
                 else (num, den * 10 ^ (n - k))%Z in
  let lo := (a / b)%Z in
  let r := (a mod b)%Z in
  let hi := (lo + 1)%Z in
  let ok s := num_same (num_of_decimal s (n - k)) x in
  let norm s := if (s =? 10 ^ k)%Z then (10 ^ (k - 1), n + 1)%Z else (s, n) in
  match fuel with
  | O => norm (if (2 * r <? b)%Z then lo else hi)
  | S f =>
      if (r =? 0)%Z then
        if ok lo then (lo, n) else shortest_digits f x num den n (k + 1)
      else
        match ok lo, ok hi with
        | true, true =>
            norm (match (2 * r ?= b)%Z with
                  | Lt => lo
                  | Gt => hi
                  | Eq => if Z.even lo then lo else hi
                  end)
        | true, false => (lo, n)
        | false, true => norm hi
        | false, false => shortest_digits f x num den n (k + 1)
        end
  end.

Fixpoint zeros (n : nat) : string :=
  match n with O => EmptyString | S k => String "0" (zeros k) end.

Definition format_decimal (digits : string) (n : Z) : string :=
  let k := Z.of_nat (String.length digits) in
  if (k <=? n)%Z && (n <=? 21)%Z then
    digits ++ zeros (Z.to_nat (n - k))
  else if (0 <? n)%Z && (n <=? 21)%Z then
    substring 0 (Z.to_nat n) digits ++ "." ++
    substring (Z.to_nat n) (Z.to_nat (k - n)) digits
  else if (-6 <? n)%Z && (n <=? 0)%Z then
    "0." ++ zeros (Z.to_nat (- n)) ++ digits
  else
    let ex := (n - 1)%Z in
    let exs := (if (ex <? 0)%Z then "-" else "+") ++ Z_to_decimal (Z.abs ex) in
    match digits with
    | String d EmptyString => String d ("e" ++ exs)
    | String d rest => String d ("." ++ rest ++ "e" ++ exs)
    | EmptyString => EmptyString
    end.

Definition NumberToString (x : number) : string :=
  match x with
  | S754_nan => "NaN"
  | S754_zero _ => "0"
  | S754_infinity s => if s then "-Infinity" else "Infinity"
  | S754_finite s m e =>
      let '(num, den) := if (0 <=? e)%Z then (Zpos m * 2 ^ e, 1)%Z
                         else (Zpos m, 2 ^ (- e))%Z in
      let n := decimal_exponent num den in
      let '(d, n') := shortest_digits 17 (S754_finite false m e) num den n 1 in
      let digits := Z_to_decimal d in
      (if s then "-" else "") ++ format_decimal digits n'
  end.

(* ================================================================== *)
(** * Cell values and rows *)

(** What reading a field gives: the scalars a cell can hold, where
    [VUndefined] is also what a name gives that the row neither has nor
    inherits, and the members of [Object.prototype], which are objects.
    The program converts such an object to a string at most: [text] is
    that string, and stands for the object (two members of
    [Object.prototype] of the same text are the same object). *)
Inductive jsval :=
  | VUndefined
  | VNull
  | VBool (b : bool)
  | VNum (n : number)
  | VStr (s : string)
  | VObject (text : string).

(** [String(v)]. *)
Definition js_String (v : jsval) : string :=
  match v with
  | VUndefined => "undefined"
  | VNull => "null"
  | VBool true => "true"
  | VBool false => "false"
  | VNum n => NumberToString n
  | VStr s => s
  | VObject text => text
  end.

(** [Number(v)]. *)
Definition js_Number (v : jsval) : number :=
  match v with
  | VUndefined => NaN
  | VNull => S754_zero false
  | VBool true => num_of_Z 1
  | VBool false => S754_zero false
  | VNum n => n
  | VStr s => StringToNumber s
  | VObject text => StringToNumber text
  end.

(** The truth value of [v] in a condition: [!v] is its negation. *)
Definition truthy (v : jsval) : bool :=
  match v with
  | VUndefined | VNull => false
  | VBool b => b
  | VNum (S754_zero _) | VNum S754_nan => false
  | VNum _ => true
  | VStr EmptyString => false
  | VStr _ => true
  | VObject _ => true
  end.

(** [a === b]. *)
Definition strict_equal (a b : jsval) : bool :=
  match a, b with
  | VUndefined, VUndefined => true
  | VNull, VNull => true
  | VBool x, VBool y => Bool.eqb x y
  | VNum x, VNum y => num_eq x y
  | VStr x, VStr y => String.eqb x y
  | VObject x, VObject y => String.eqb x y
  | _, _ => false
  end.

(** [a == b]. *)
Definition loose_equal (a b : jsval) : bool :=
  match a, b with
  | (VUndefined | VNull), (VUndefined | VNull) => true
  | (VUndefined | VNull), _ | _, (VUndefined | VNull) => false
  | VStr x, VStr y | VObject x, VObject y
  | VStr x, VObject y | VObject x, VStr y => String.eqb x y
  | _, _ => num_eq (js_Number a) (js_Number b)
  end.

Definition DataRow := list (string * jsval).

(** The text of a function of the language itself, as V8 and
    JavaScriptCore print it; the language fixes the words and leaves the
    white space between them to the engine. *)
Definition native_function (name : string) : jsval :=
  VObject ("function " ++ name ++ "() { [native code] }").

(** The members of [Object.prototype], which every row inherits: the
    functions the language lists, those it lists for browsers, and the
    accessor [__proto__], which gives [Object.prototype] itself.  What a
    page adds to [Object.prototype] is not modelled. *)
Definition Object_prototype : list (string * jsval) :=
  [("constructor", native_function "Object");
   ("hasOwnProperty", native_function "hasOwnProperty");
   ("isPrototypeOf", native_function "isPrototypeOf");
   ("propertyIsEnumerable", native_function "propertyIsEnumerable");
   ("toLocaleString", native_function "toLocaleString");
   ("toString", native_function "toString");
   ("valueOf", native_function "valueOf");
   ("__defineGetter__", native_function "__defineGetter__");
   ("__defineSetter__", native_function "__defineSetter__");
   ("__lookupGetter__", native_function "__lookupGetter__");
   ("__lookupSetter__", native_function "__lookupSetter__");
   ("__proto__", VObject "[object Object]")].

(** [row[k]] for a name [k] that is no property of the row itself. *)
Definition inherited (k : string) : jsval :=
  match find (fun e => String.eqb (fst e) k) Object_prototype with
  | Some e => snd e
  | None => VUndefined
  end.

(** [row[k]]: the row's own property, or else the inherited one. *)
Fixpoint row_get (row : DataRow) (k : string) : jsval :=
  match row with
  | [] => inherited k
  | (k', v) :: rest => if String.eqb k' k then v else row_get rest k
  end.

(** [k in row] *)
Definition has_property (row : DataRow) (k : string) : bool :=
  existsb (fun e => String.eqb (fst e) k) row
  || existsb (fun e => String.eqb (fst e) k) Object_prototype.

(** A row with the own property [k] set to [v]: a field that exists
    keeps its place, a new one is added at the end.  This is what
    [{ ...row, [k]: v }] gives, and [row[k] = v] for a name other than
    [__proto__]. *)
Fixpoint row_set (row : DataRow) (k : string) (v : jsval) : DataRow :=
  match row with
  | [] => [(k, v)]
  | (k', v') :: rest =>
      if String.eqb k' k then (k, v) :: rest else (k', v') :: row_set rest k v
  end.

(** [row[k] = v] for a scalar [v].  A name the row has not is added,
    except [__proto__]: the assignment then goes to the accessor of
    [Object.prototype], which does nothing with a value that is no
    object. *)
Definition row_assign (row : DataRow) (k : string) (v : jsval) : DataRow :=
  if String.eqb k "__proto__" && negb (existsb (fun e => String.eqb (fst e) k) row)
  then row
  else row_set row k v.

(* ================================================================== *)
(** * The host *)

(** What the source leaves to the browser.  [localeCompare a b] is
    [a.localeCompare(b)]; [Date_parse s] is [Date.parse(s)];
    [RegExp_compiles p] tells whether [new RegExp(p, 'g')] succeeds;
    [host_binds x] tells whether the name [x] is bound, where the formula
    engine calls [eval], besides the names the source declares or imports
    (a global of the browser). *)
Record host := {
  localeCompare : string -> string -> number;
  Date_parse : string -> number;
  RegExp_compiles : string -> bool;
  host_binds : string -> bool
}.

(* ================================================================== *)
(** * Type profiler *)

Inductive ColumnType := TString | TNumber | TBoolean | TDate | TEmpty.

(** [v !== null && v !== undefined && v !== ''] *)
Definition non_empty (v : jsval) : bool :=
  match v with
  | VNull | VUndefined | VStr EmptyString => false
  | _ => true
  end.

Definition boolean_tokens : list string :=
  ["true"; "false"; "1"; "0"; "yes"; "no"].

Definition detectColumnType (H : host) (values : list jsval) : ColumnType :=
  let nonEmpty := filter non_empty values in
  match nonEmpty with
  | [] => TEmpty
  | _ =>
      let sample := firstn 100 nonEmpty in
      let isNumber :=
        forallb (fun v => negb (isNaN (js_Number v))
                          && negb (strict_equal v (VStr ""))) sample in
      if isNumber then TNumber
      else
        let isBoolean :=
          forallb (fun v =>
                     match v with
                     | VBool _ => true
                     | _ => existsb (String.eqb (toLowerCase (js_String v)))
                              boolean_tokens
                     end) sample in
        if isBoolean then TBoolean
        else
          let isDate :=
            forallb (fun v => negb (isNaN (Date_parse H (js_String v)))) sample in
          if isDate then TDate else TString
  end.

(* ================================================================== *)
(** * Filter stage *)

Record FilterConfig := {
  filter_column : string;
  filter_operator : string;
  filter_value : string;
  filter_value2 : option string
}.

(** The callback of [data.filter] for one filter configuration. *)
Definition filter_row (f : FilterConfig) (row : DataRow) : bool :=
  let value := row_get row (filter_column f) in
  let strValue := toLowerCase (js_String value) in
  let filterValue := toLowerCase (filter_value f) in
  let filterValue2 := option_map toLowerCase (filter_value2 f) in
  let op := filter_operator f in
  if String.eqb op "equals" then
    String.eqb (toLowerCase (js_String value)) filterValue
  else if String.eqb op "contains" then includes strValue filterValue
  else if String.eqb op "startsWith" then startsWith strValue filterValue
  else if String.eqb op "endsWith" then endsWith strValue filterValue
  else if String.eqb op "gt" then
    num_lt (StringToNumber filterValue) (js_Number value)
  else if String.eqb op "lt" then
    num_lt (js_Number value) (StringToNumber filterValue)
  else if String.eqb op "gte" then
    num_le (StringToNumber filterValue) (js_Number value)
  else if String.eqb op "lte" then
    num_le (js_Number value) (StringToNumber filterValue)
  else if String.eqb op "between" then
    let num := js_Number value in
    num_le (StringToNumber filterValue) num
    && num_le num (match filterValue2 with
                   | Some s => StringToNumber s
                   | None => NaN
                   end)
  else if String.eqb op "isEmpty" then
    negb (truthy value) || strict_equal value (VStr "")
    || strict_equal value VNull || strict_equal value VUndefined
  else if String.eqb op "isNotEmpty" then
    truthy value && negb (strict_equal value (VStr ""))
    && negb (strict_equal value VNull) && negb (strict_equal value VUndefined)
  else true.

Definition known_operators : list string :=
  ["equals"; "contains"; "startsWith"; "endsWith"; "gt"; "lt"; "gte"; "lte";
   "between"; "isEmpty"; "isNotEmpty"].

Definition applyFilters (filters : list FilterConfig) (data : list DataRow)
  : list DataRow :=
  fold_left (fun data f => filter (filter_row f) data) filters data.

(* ================================================================== *)
(** * Sort stage *)

Record SortConfig := {
  sort_column : string;
  sort_direction : string
}.

(** The comparator handed to [data.sort]: the first key whose comparison
    is not zero decides. *)
Fixpoint compareRows (H : host) (sortConfig : list SortConfig) (a b : DataRow)
  : number :=
  match sortConfig with
  | [] => S754_zero false
  | sort :: rest =>
      let aVal := row_get a (sort_column sort) in
      let bVal := row_get b (sort_column sort) in
      let comparison :=
        match aVal, bVal with
        | VNum x, VNum y => num_sub x y
        | _, _ => localeCompare H (js_String aVal) (js_String bVal)
        end in
      if negb (num_eq comparison (S754_zero false)) then
        if String.eqb (sort_direction sort) "asc" then comparison
        else num_neg comparison
      else compareRows H rest a b
  end.

Section ArraySort.
Context {A : Type}.
Variable comparefn : A -> A -> number.

(** [comparefn(x, y) > 0]; a result that is [NaN] counts as zero. *)
Definition sorts_after (x y : A) : bool :=
  num_lt (S754_zero false) (comparefn x y).

(** One step of insertion: [acc] is the sorted part, last element first;
    [x] moves down past the elements that sort after it. *)
Fixpoint insert_down (x : A) (acc : list A) : list A :=
  match acc with
  | [] => [x]
  | y :: rest => if sorts_after y x then y :: insert_down x rest else x :: acc
  end.

(** The order that [Array.prototype.sort(comparefn)] must give for a
    consistent comparator: the language demands a stable sort there and
    leaves the algorithm open; this is insertion sort, the elements
    taken in input order. *)
Definition array_sort (l : list A) : list A :=
  rev (fold_left (fun acc x => insert_down x acc) l []).

(** The requirements of the language on a consistent comparator, at
    three elements: the result is never [NaN]; comparing as equal is
    reflexive, symmetric and transitive; comparing as less and comparing
    as greater are transitive. *)
Definition consistent_at (a b c : A) : bool :=
  let equal x y := num_eq (comparefn x y) (S754_zero false) in
  let less x y := num_lt (comparefn x y) (S754_zero false) in
  let greater x y := num_lt (S754_zero false) (comparefn x y) in
  negb (isNaN (comparefn a b))
  && equal a a
  && implb (equal a b) (equal b a)
  && implb (equal a b && equal b c) (equal a c)
  && implb (less a b && less b c) (less a c)
  && implb (greater a b && greater b c) (greater a c).

(** The three outcomes of a comparison. *)
Definition compares_less (x y : A) : Prop :=
  num_lt (comparefn x y) (S754_zero false) = true.
Definition compares_equal (x y : A) : Prop :=
  num_eq (comparefn x y) (S754_zero false) = true.
Definition compares_greater (x y : A) : Prop :=
  num_lt (S754_zero false) (comparefn x y) = true.

(** [comparefn] is a consistent comparator for the elements of [l]. *)
Definition consistent_comparator (l : list A) : bool :=
  forallb (fun a => forallb (fun b => forallb (consistent_at a b) l) l) l.

(** [l.sort(comparefn)]: the order the language fixes, which is the one
    of [array_sort] for a consistent comparator.  For another comparator
    the language leaves the order to the engine: the model gives none. *)
Definition Array_sort (l : list A) : option (list A) :=
  if consistent_comparator l then Some (array_sort l) else None.

(** The orders in which [l.sort(comparefn)] may leave the array:
    a rearrangement of [l], which is the order the language fixes where
    it fixes one. *)
Definition sort_result (l out : list A) : Prop :=
  Permutation out l
  /\ forall fixed, Array_sort l = Some fixed -> out = fixed.
End ArraySort.

(** The rows in the order of a stable sort by the sort keys: what the
    sort stage gives where the language fixes the order. *)
Definition applySort (H : host) (sortConfig : list SortConfig)
  (data : list DataRow) : list DataRow :=
  match sortConfig with
  | [] => data
  | _ => array_sort (compareRows H sortConfig) data
  end.

(** The sort stage: [if (sortConfig.length > 0) data.sort(...)].  On a
    column that holds numbers and other values the comparator may be
    inconsistent; the order is then the engine's. *)
Definition sortStage (H : host) (sortConfig : list SortConfig)
  (data : list DataRow) : option (list DataRow) :=
  match sortConfig with
  | [] => Some data
  | _ => Array_sort (compareRows H sortConfig) data
  end.

(* ================================================================== *)
(** * Grouping *)

Section Grouping.
Context {A : Type}.

(** The object [_.groupBy] builds, as the list of its properties in the
    order of their creation. *)
Fixpoint group_add (k : string) (x : A) (g : list (string * list A))
  : list (string * list A) :=
  match g with
  | [] => [(k, [x])]
  | (k', xs) :: rest =>
      if String.eqb k' k then (k', (xs ++ [x])%list) :: rest
      else (k', xs) :: group_add k x rest
  end.

Definition groupBy (key : A -> string) (data : list A)
  : list (string * list A) :=
  fold_left (fun g x => group_add (key x) x g) data [].
End Grouping.

(** A property name that is an array index: the canonical numeral of an
    integer from [0] to [2^32 - 2]. *)
Definition is_array_index (k : string) : bool :=
  match k with
  | EmptyString => false
  | String "0" EmptyString => true
  | String "0" _ => false
  | _ => all_chars is_digit k
         && (String.length k <=? 10)%nat
         && (digits_value 10 0 k <? 4294967295)%Z
  end.

Definition index_value (k : string) : Z := digits_value 10 0 k.

Section Entries.
Context {A : Type}.

Fixpoint insert_index (e : string * A) (l : list (string * A))
  : list (string * A) :=
  match l with
  | [] => [e]
  | e' :: rest =>
      if (index_value (fst e) <=? index_value (fst e'))%Z then e :: l
      else e' :: insert_index e rest
  end.

(** [Object.entries(o)]: the array indices in ascending order first, then
    the other names in the order of their creation. *)
Definition Object_entries (o : list (string * A)) : list (string * A) :=
  (fold_right insert_index [] (filter (fun e => is_array_index (fst e)) o)
   ++ filter (fun e => negb (is_array_index (fst e))) o)%list.
End Entries.

(* ================================================================== *)
(** * lodash: a column name as an iteratee *)

(** [_.groupBy(data, column)] reads, on each row, the property that the
    text [column] names, and takes the text for a property path where it
    has a dot or brackets and the row has no property of that name. *)

Definition has_char (n : nat) (s : string) : bool :=
  negb (all_chars (fun c => negb (code c =? n)%nat) s).

(** An opening bracket with a closing one after it. *)
Fixpoint has_brackets (s : string) : bool :=
  match s with
  | EmptyString => false
  | String c t => ((code c =? 91)%nat && has_char 93 t) || has_brackets t
  end.

(** The text is no key for [isKey]: it is not made of word characters
    and the pattern [reIsDeepProp] matches in it. *)
Definition is_deep_path (path : string) : bool :=
  has_char 46 path || has_brackets path.

(** [stringToPath] on names separated by single dots; the model does not
    read the other paths. *)
Definition dotted_path (path : string) : option (list string) :=
  if has_char 91 path || has_char 93 path then None
  else
    let parts := str_split "." path in
    if forallb (fun p => negb (String.eqb p "")) parts then Some parts else None.

(** [value[k]] for a value that is no row: the length and the characters
    of a string; the model does not follow what the prototypes of the
    scalars hold. *)
Definition scalar_property (value : jsval) (k : string) : option jsval :=
  match value with
  | VStr s =>
      if String.eqb k "length" then Some (VNum (num_of_nat (String.length s)))
      else if is_array_index k then
        Some (match String.get (Z.to_nat (index_value k)) s with
              | Some c => VStr (String c EmptyString)
              | None => VUndefined
              end)
      else None
  | _ => None
  end.

(** [baseGet] from the second name of the path on: the walk ends at
    [null] and [undefined]. *)
Fixpoint baseGet (object : jsval) (path : list string) : option jsval :=
  match path with
  | [] => Some object
  | k :: rest =>
      match object with
      | VUndefined | VNull => Some VUndefined
      | _ =>
          match scalar_property object k with
          | Some v => baseGet v rest
          | None => None
          end
      end
  end.

(** [_.property(path)(row)], or [None] where the model does not
    determine it. *)
Definition lodash_property (path : string) (row : DataRow) : option jsval :=
  if negb (is_deep_path path) || has_property row path
  then Some (row_get row path)
  else
    match dotted_path path with
    | Some (k :: rest) => baseGet (row_get row k) rest
    | _ => None
    end.

(** The key under which [_.groupBy(data, column)] puts a row. *)
Definition group_key (column : string) (row : DataRow) : option string :=
  option_map js_String (lodash_property column row).

(* ================================================================== *)
(** * lodash reductions on an array of numbers *)

(** [_.sum]: the elements added from left to right, [0] for no element. *)
Definition lodash_sum (values : list number) : number :=
  match values with
  | [] => S754_zero false
  | v :: rest => fold_left num_add rest v
  end.

(** [_.mean]: the sum divided by the length, [NaN] for no element. *)
Definition lodash_mean (values : list number) : number :=
  match values with
  | [] => NaN
  | _ => num_div (lodash_sum values) (num_of_nat (List.length values))
  end.

(** [baseExtremum]: the first element no later one beats. *)
Definition extremum (beats : number -> number -> bool) (values : list number)
  : option number :=
  fold_left (fun best v =>
               match best with
               | None => if isNaN v then None else Some v
               | Some b => if beats v b then Some v else best
               end) values None.

Definition lodash_min : list number -> option number := extremum num_lt.
Definition lodash_max : list number -> option number :=
  extremum (fun v b => num_lt b v).

(** [compareAscending] on numbers. *)
Definition compareAscending (x y : number) : number :=
  if num_lt y x then num_of_Z 1
  else if num_lt x y then num_of_Z (-1)
  else S754_zero false.

(** [_.sortBy(values)]: ascending, stable. *)
Definition lodash_sortBy (values : list number) : list number :=
  array_sort compareAscending values.

Definition opt_num (o : option number) : jsval :=
  match o with Some n => VNum n | None => VUndefined end.

(* ================================================================== *)
(** * Aggregation stage *)

Record AggregationConfig := {
  agg_column : string;
  agg_operation : string
}.

(** [rows.map(r => Number(r[col])).filter(n => !isNaN(n))] *)
Definition numeric_values (col : string) (rows : list DataRow) : list number :=
  filter (fun n => negb (isNaN n)) (map (fun r => js_Number (row_get r col)) rows).

(** The summary row of one group. *)
Definition aggregate_group (aggregation : AggregationConfig)
  (entry : string * list DataRow) : DataRow :=
  let '(key, rows) := entry in
  let values := numeric_values (agg_column aggregation) rows in
  let result :=
    row_set (row_set [] (agg_column aggregation) (VStr key))
      "_count" (VNum (num_of_nat (List.length rows))) in
  let op := agg_operation aggregation in
  if String.eqb op "sum" then row_set result "_value" (VNum (lodash_sum values))
  else if String.eqb op "mean" then
    row_set result "_value" (VNum (lodash_mean values))
  else if String.eqb op "median" then
    row_set result "_value"
      (opt_num (nth_error (lodash_sortBy values) (List.length values / 2)))
  else if String.eqb op "count" then
    row_set result "_value" (VNum (num_of_nat (List.length rows)))
  else if String.eqb op "min" then
    row_set result "_value" (opt_num (lodash_min values))
  else if String.eqb op "max" then
    row_set result "_value" (opt_num (lodash_max values))
  else result.

(** The key of a row's group, where the model determines it, and the
    empty text elsewhere. *)
Definition group_key_of (column : string) (row : DataRow) : string :=
  match group_key column row with
  | Some k => k
  | None => EmptyString
  end.

Definition keys_determined (column : string) (data : list DataRow) : bool :=
  forallb (fun r => match group_key column r with Some _ => true | None => false end)
    data.

(** The aggregation stage, where the model determines the key of every
    row. *)
Definition applyAggregation (aggregation : option AggregationConfig)
  (data : list DataRow) : option (list DataRow) :=
  match aggregation with
  | Some cfg =>
      if keys_determined (agg_column cfg) data then
        let grouped := groupBy (group_key_of (agg_column cfg)) data in
        Some (map (aggregate_group cfg) (Object_entries grouped))
      else None
  | None => Some data
  end.

(* ================================================================== *)
(** * Pivot stage *)

Record PivotConfig := {
  pivot_rows : list string;
  pivot_columns : list string;
  pivot_values : list string;
  pivot_aggregation : string
}.

(** An element of an array under [join]: nothing for [null] and
    [undefined]. *)
Definition join_item (v : jsval) : string :=
  match v with
  | VUndefined | VNull => EmptyString
  | _ => js_String v
  end.

Definition pivot_key (pivotConfig : PivotConfig) (row : DataRow) : string :=
  String.concat "::" (map (fun r => join_item (row_get row r)) (pivot_rows pivotConfig)).

(** [pivotConfig.rows.forEach((r, i) => row[r] = key.split('::')[i])] *)
Fixpoint set_labels (parts : list string) (i : nat) (labels : list string)
  (row : DataRow) : DataRow :=
  match labels with
  | [] => row
  | r :: rest =>
      set_labels parts (S i) rest
        (row_assign row r (match nth_error parts i with
                        | Some p => VStr p
                        | None => VUndefined
                        end))
  end.

Definition set_pivot_value (pivotConfig : PivotConfig) (rows : list DataRow)
  (row : DataRow) (val : string) : DataRow :=
  let values := numeric_values val rows in
  let op := pivot_aggregation pivotConfig in
  if String.eqb op "sum" then row_set row (val ++ "_sum") (VNum (lodash_sum values))
  else if String.eqb op "count" then
    row_set row (val ++ "_count") (VNum (num_of_nat (List.length values)))
  else if String.eqb op "avg" then
    row_set row (val ++ "_avg") (VNum (lodash_mean values))
  else if String.eqb op "min" then
    row_set row (val ++ "_min") (opt_num (lodash_min values))
  else if String.eqb op "max" then
    row_set row (val ++ "_max") (opt_num (lodash_max values))
  else row.

Definition pivot_group (pivotConfig : PivotConfig)
  (entry : string * list DataRow) : DataRow :=
  let '(key, rows) := entry in
  let row := set_labels (str_split "::" key) 0 (pivot_rows pivotConfig) [] in
  fold_left (set_pivot_value pivotConfig rows) (pivot_values pivotConfig) row.

Definition applyPivot (pivotConfig : option PivotConfig) (data : list DataRow)
  : list DataRow :=
  match pivotConfig with
  | Some cfg =>
      match pivot_rows cfg, pivot_values cfg with
      | _ :: _, _ :: _ =>
          map (pivot_group cfg) (Object_entries (groupBy (pivot_key cfg) data))
      | _, _ => data
      end
  | None => data
  end.

(* ================================================================== *)
(** * Pattern replacement *)

Section Replace.
Context {C : Type}.

(** A pattern, tried at the start of a string: the captured groups and
    the length of the match, which is never zero. *)
Variable pattern : string -> option (C * nat).

(** [s.replace(/pattern/g, callback)]: the matches are found from left
    to right and do not overlap; [skip] counts the characters of the
    current match that remain to be passed.  The callback receives the
    matched text and the groups. *)
Fixpoint replace_all (callback : string -> C -> string) (s : string)
  (skip : nat) : string :=
  match s with
  | EmptyString => EmptyString
  | String c t =>
      match skip with
      | S k => replace_all callback t k
      | O =>
          match pattern s with
          | Some (groups, n) =>
              callback (substring 0 n s) groups ++ replace_all callback t (n - 1)
          | None => String c (replace_all callback t 0)
          end
      end
  end.

(** The same for a callback whose result may lie outside the model. *)
Fixpoint replace_all_opt (callback : string -> C -> option string)
  (s : string) (skip : nat) : option string :=
  match s with
  | EmptyString => Some EmptyString
  | String c t =>
      match skip with
      | S k => replace_all_opt callback t k
      | O =>
          match pattern s with
          | Some (groups, n) =>
              match callback (substring 0 n s) groups with
              | Some r =>
                  option_map (append r) (replace_all_opt callback t (n - 1))
              | None => None
              end
          | None => option_map (String c) (replace_all_opt callback t 0)
          end
      end
  end.
End Replace.

Definition not_rparen (c : ascii) : bool := negb (code c =? 41)%nat.
Definition not_comma (c : ascii) : bool := negb (code c =? 44)%nat.

(** [/NAME\(([^)]+)\)/i] *)
Definition match_call (name : string) (s : string) : option (string * nat) :=
  match strip_prefix_ci (name ++ "(") s with
  | Some rest =>
      match span not_rparen rest with
      | (String a cols, String _ _) =>
          Some (String a cols,
                String.length name + 1 + String.length (String a cols) + 1)
      | _ => None
      end
  | None => None
  end.

(** [/IF\(([^,]+),([^,]+),([^)]+)\)/i] *)
Definition match_if (s : string) : option (string * string * string * nat) :=
  match strip_prefix_ci "IF(" s with
  | Some r0 =>
      match span not_comma r0 with
      | (String a c1, String _ r1) =>
          match span not_comma r1 with
          | (String b c2, String _ r2) =>
              match span not_rparen r2 with
              | (String d c3, String _ _) =>
                  let cond := String a c1 in
                  let trueVal := String b c2 in
                  let falseVal := String d c3 in
                  Some (cond, trueVal, falseVal,
                        3 + String.length cond + 1 + String.length trueVal + 1
                        + String.length falseVal + 1)
              | _ => None
              end
          | _ => None
          end
      | _ => None
      end
  | None => None
  end.

(** [/ROW\(\)/] *)
Definition match_row (s : string) : option (unit * nat) :=
  match strip_prefix "ROW()" s with
  | Some _ => Some (tt, 5)
  | None => None
  end.

(** [/([A-Za-z_]+)/] *)
Definition match_name (s : string) : option (string * nat) :=
  match span is_name_char s with
  | (String a n, _) => Some (String a n, String.length (String a n))
  | _ => None
  end.

(** The operators of the condition pattern, in the order of its
    alternatives. *)
Definition condition_operators : list string :=
  ["&gt;="; "&lt;="; "&gt;"; "&lt;"; "="; "=="; "!="].

(** The first alternative after which [\s*([0-9.]+)] matches: the
    operator, the literal, and the length of operator, spaces and literal. *)
Fixpoint match_operator (ops : list string) (s : string)
  : option (string * string * nat) :=
  match ops with
  | [] => None
  | op :: rest =>
      match strip_prefix op s with
      | Some r =>
          let '(ws, r') := span is_space r in
          match span is_literal_char r' with
          | (String a v, _) =>
              Some (op, String a v,
                    String.length op + String.length ws + String.length (String a v))
          | _ => match_operator rest s
          end
      | None => match_operator rest s
      end
  end.

(** [/([A-Za-z_]+)\s*(&gt;=|&lt;=|&gt;|&lt;|=|==|!=)\s*([0-9.]+)/] *)
Definition match_condition (s : string) : option (string * string * string * nat) :=
  match span is_name_char s with
  | (String a n, r) =>
      let '(ws, r') := span is_space r in
      match match_operator condition_operators r' with
      | Some (op, val, len) =>
          Some (String a n, op, val,
                String.length (String a n) + String.length ws + len)
      | None => None
      end
  | _ => None
  end.

(* ================================================================== *)
(** * Expression evaluation *)

(** The outcome of [eval(text)]: a scalar, an exception, or anything the
    model does not determine. *)
Inductive completion :=
  | Normal (v : jsval)
  | Throw
  | Unsupported.

(** What a name stands for where [eval] is called: a scalar the model
    follows, a value it does not follow (an object, a function, a piece of
    state), or nothing, so that reading it raises a [ReferenceError]. *)
Inductive binding :=
  | Holds (v : jsval)
  | Other
  | Raises.

Inductive token :=
  | TNum (n : number)
  | TStr (s : string)
  | TId (x : string)
  | TOp (o : string)
  | TLParen
  | TRParen.

Definition is_id_start (c : ascii) : bool := is_name_char c || (code c =? 36)%nat.
Definition is_id_char (c : ascii) : bool := is_id_start c || is_digit c.

(** The characters of which punctuators are made. *)
Definition is_op_char (c : ascii) : bool :=
  existsb (fun d => Ascii.eqb c d)
    (list_ascii_of_string "+-*/%<>=!&|^~?:").

Definition operators : list string :=
  ["+"; "-"; "*"; "/"; "<"; ">"; "<="; ">="; "=="; "!="; "==="; "!=="; "!"].

Definition is_quote (c : ascii) : bool := (code c =? 39)%nat || (code c =? 34)%nat.

(** A character a string literal holds as it is. *)
Definition plain_in_literal (q : ascii) (c : ascii) : bool :=
  negb (Ascii.eqb c q) && negb (code c =? 92)%nat
  && negb (code c =? 10)%nat && negb (code c =? 13)%nat.

(** A decimal literal of the language at the start of [s]. *)
Definition lex_number (s : string) : option (number * string) :=
  let '(ip, r1) := span is_digit s in
  let '(fp, r2) :=
    match r1 with
    | String "." u => span is_digit u
    | _ => (EmptyString, r1)
    end in
  let leading_zero :=
    match ip with String "0" (String _ _) => true | _ => false end in
  let '(ex, r3) :=
    match r2 with
    | String c t =>
        if (code c =? 101)%nat || (code c =? 69)%nat then
          let '(neg, t') :=
            match t with
            | String "-" u => (true, u)
            | String "+" u => (false, u)
            | _ => (false, t)
            end in
          match span is_digit t' with
          | (String a ds, r) =>
              let v := digits_value 10 0 (String a ds) in
              (Some (if neg then (- v)%Z else v), r)
          | _ => (None, r2)
          end
        else (Some 0%Z, r2)
    | EmptyString => (Some 0%Z, r2)
    end in
  let clean :=
    match r3 with
    | String c _ => negb (is_id_char c || (code c =? 46)%nat)
    | EmptyString => true
    end in
  match (ip ++ fp)%string, ex with
  | String a ds, Some e =>
      if negb leading_zero && clean then
        Some (num_of_decimal (digits_value 10 0 (String a ds))
                (e - Z.of_nat (String.length fp)), r3)
      else None
  | _, _ => None
  end.

(** What the text is made of: tokens, a text that is no program for
    certain (the language raises a [SyntaxError] before it evaluates
    anything), or a text the model does not read. *)
Inductive lexed :=
  | Tokens (ts : list token)
  | BadToken
  | Outside.

Definition add_token (t : token) (r : lexed) : lexed :=
  match r with
  | Tokens ts => Tokens (t :: ts)
  | _ => r
  end.

(** The tokens of a text, from left to right.  [literal] tells that the
    last token was a number or a string, [plain] that no [/] came before,
    which could have opened a pattern or a comment.  Two texts are no
    program whatever follows: a string that is not closed where the text
    ends, and a number or string followed by [++] or [--]. *)
Fixpoint lex (fuel : nat) (literal plain : bool) (s : string) : lexed :=
  match fuel with
  | O => Outside
  | S f =>
      match s with
      | EmptyString => Tokens []
      | String c t =>
          if is_space c then lex f literal plain t
          else if is_digit c || (code c =? 46)%nat then
            match lex_number s with
            | Some (n, r) => add_token (TNum n) (lex f true plain r)
            | None => Outside
            end
          else if is_quote c then
            match span (plain_in_literal c) t with
            | (body, String d r) =>
                if Ascii.eqb d c then add_token (TStr body) (lex f true plain r)
                else Outside
            | (_, EmptyString) => if plain then BadToken else Outside
            end
          else if is_id_start c then
            let '(x, r) := span is_id_char s in
            add_token (TId x) (lex f false plain r)
          else if (code c =? 40)%nat then add_token TLParen (lex f false plain t)
          else if (code c =? 41)%nat then add_token TRParen (lex f false plain t)
          else if is_op_char c then
            let '(o, r) := span is_op_char s in
            if existsb (String.eqb o) operators
            then add_token (TOp o)
                   (lex f false (plain && negb (String.eqb o "/")) r)
            else if literal && plain && (startsWith o "++" || startsWith o "--")
                 then BadToken
                 else Outside
          else Outside
      end
  end.

Inductive expr :=
  | ELit (v : jsval)
  | EVar (x : string)
  | EUnary (o : string) (e : expr)
  | EBinary (o : string) (a b : expr)
  | ECall0 (f : expr)
  | ECall1 (f a : expr).

(** Words that are no identifier references; [true], [false] and [null]
    are literals, a text with one of the others lies outside the model. *)
Definition reserved_words : list string :=
  ["break"; "case"; "catch"; "class"; "const"; "continue"; "debugger";
   "default"; "delete"; "do"; "else"; "enum"; "export"; "extends"; "finally";
   "for"; "function"; "if"; "import"; "in"; "instanceof"; "new"; "return";
   "super"; "switch"; "this"; "throw"; "try"; "typeof"; "var"; "void";
   "while"; "with"; "yield"; "let"; "static"; "implements"; "interface";
   "package"; "private"; "protected"; "public"; "await"; "async"].

(** The level of a binary operator, the loosest first. *)
Definition binary_level (o : string) : option nat :=
  if existsb (String.eqb o) ["=="; "!="; "==="; "!=="] then Some 0
  else if existsb (String.eqb o) ["<"; ">"; "<="; ">="] then Some 1
  else if existsb (String.eqb o) ["+"; "-"] then Some 2
  else if existsb (String.eqb o) ["*"; "/"] then Some 3
  else None.

Definition is_unary (o : string) : bool := existsb (String.eqb o) ["-"; "+"; "!"].

(** What waits for its operand while the tokens are read: a unary
    operator, a binary operator with its left operand, the parenthesis of
    a group, the parenthesis of the arguments of a call. *)
Inductive pending :=
  | PUnary (o : string)
  | PBinary (o : string) (level : nat)
  | PGroup
  | PCall.

(** The outcome of parsing: an expression, a text that is no program,
    or a text outside the model. *)
Inductive parsed :=
  | Parsed (e : expr)
  | BadSyntax
  | NotCovered.

(** Applies the operators on top of the stack of pending items, down to
    the first item that [stop] tells to keep. *)
Fixpoint reduce (stop : pending -> bool) (operands : list expr)
  (stack : list pending) : option (list expr * list pending) :=
  match stack with
  | [] => Some (operands, [])
  | item :: rest =>
      if stop item then Some (operands, stack)
      else
        match item, operands with
        | PUnary o, a :: others => reduce stop (EUnary o a :: others) rest
        | PBinary o _, b :: a :: others => reduce stop (EBinary o a b :: others) rest
        | _, _ => None
        end
  end.

Definition is_paren (item : pending) : bool :=
  match item with PGroup | PCall => true | _ => false end.

(** A binary operator of level [l] takes as its left operand what the
    pending operators that bind at least as tightly have made. *)
Definition binds_looser (l : nat) (item : pending) : bool :=
  match item with
  | PUnary _ => false
  | PBinary _ l' => (l' <? l)%nat
  | PGroup | PCall => true
  end.

(** Operator-precedence parsing of the expressions made of literals,
    names, unary and binary operators, groups and calls without an
    argument or with one.  [operand] tells that an operand is expected, [opened]
    that the last token opened the arguments of a call. *)
Fixpoint parse_from (ts : list token) (operand opened : bool)
  (operands : list expr) (stack : list pending) : parsed :=
  match ts with
  | [] =>
      if operand then BadSyntax
      else
        match reduce is_paren operands stack with
        | Some ([e], []) => Parsed e
        | Some (_, _ :: _) => BadSyntax
        | _ => NotCovered
        end
  | t :: rest =>
      if operand then
        match t with
        | TNum n => parse_from rest false false (ELit (VNum n) :: operands) stack
        | TStr s => parse_from rest false false (ELit (VStr s) :: operands) stack
        | TId x =>
            let e :=
              if String.eqb x "true" then ELit (VBool true)
              else if String.eqb x "false" then ELit (VBool false)
              else if String.eqb x "null" then ELit VNull
              else EVar x in
            parse_from rest false false (e :: operands) stack
        | TOp o =>
            if is_unary o then parse_from rest true false operands (PUnary o :: stack)
            else if String.eqb o "/" then NotCovered
            else BadSyntax
        | TLParen => parse_from rest true false operands (PGroup :: stack)
        | TRParen =>
            match opened, stack, operands with
            | true, PCall :: stack', f :: others =>
                parse_from rest false false (ECall0 f :: others) stack'
            | _, _, _ => BadSyntax
            end
        end
      else
        match t with
        | TOp o =>
            match binary_level o with
            | Some l =>
                match reduce (binds_looser l) operands stack with
                | Some (operands', stack') =>
                    parse_from rest true false operands' (PBinary o l :: stack')
                | None => NotCovered
                end
            | None => BadSyntax
            end
        | TLParen => parse_from rest true true operands (PCall :: stack)
        | TRParen =>
            match reduce is_paren operands stack with
            | Some (operands', PGroup :: stack') =>
                parse_from rest false false operands' stack'
            | Some (a :: f :: others, PCall :: stack') =>
                parse_from rest false false (ECall1 f a :: others) stack'
            | Some (_, []) => BadSyntax
            | _ => NotCovered
            end
        | _ => BadSyntax
        end
  end.

Definition is_reserved (t : token) : bool :=
  match t with
  | TId x => existsb (String.eqb x) reserved_words
  | _ => false
  end.

(** A text with a reserved word lies outside the model. *)
Definition parse (ts : list token) : parsed :=
  if existsb is_reserved ts then NotCovered else parse_from ts true false [] [].

(** [a < b] *)
Definition less_than (a b : jsval) : bool :=
  match a, b with
  | VStr x, VStr y | VObject x, VObject y
  | VStr x, VObject y | VObject x, VStr y => String.ltb x y
  | _, _ => num_lt (js_Number a) (js_Number b)
  end.

(** [a <= b] *)
Definition less_equal (a b : jsval) : bool :=
  match a, b with
  | VStr x, VStr y | VObject x, VObject y
  | VStr x, VObject y | VObject x, VStr y => negb (String.ltb y x)
  | _, _ => num_le (js_Number a) (js_Number b)
  end.

Definition unary (o : string) (v : jsval) : jsval :=
  if String.eqb o "-" then VNum (num_neg (js_Number v))
  else if String.eqb o "+" then VNum (js_Number v)
  else VBool (negb (truthy v)).

Definition binary (o : string) (a b : jsval) : jsval :=
  if String.eqb o "+" then
    match a, b with
    | VStr _, _ | _, VStr _ | VObject _, _ | _, VObject _ =>
        VStr (js_String a ++ js_String b)
    | _, _ => VNum (num_add (js_Number a) (js_Number b))
    end
  else if String.eqb o "-" then VNum (num_sub (js_Number a) (js_Number b))
  else if String.eqb o "*" then VNum (num_mul (js_Number a) (js_Number b))
  else if String.eqb o "/" then VNum (num_div (js_Number a) (js_Number b))
  else if String.eqb o "<" then VBool (less_than a b)
  else if String.eqb o ">" then VBool (less_than b a)
  else if String.eqb o "<=" then VBool (less_equal a b)
  else if String.eqb o ">=" then VBool (less_equal b a)
  else if String.eqb o "==" then VBool (loose_equal a b)
  else if String.eqb o "!=" then VBool (negb (loose_equal a b))
  else if String.eqb o "===" then VBool (strict_equal a b)
  else VBool (negb (strict_equal a b)).

(** Operands are evaluated from left to right; the first exception ends
    the evaluation. *)
Fixpoint eval_expr (scope : string -> binding) (e : expr) : completion :=
  match e with
  | ELit v => Normal v
  | EVar x =>
      match scope x with
      | Holds v => Normal v
      | Other => Unsupported
      | Raises => Throw
      end
  | EUnary o a =>
      match eval_expr scope a with
      | Normal v => Normal (unary o v)
      | c => c
      end
  | EBinary o a b =>
      match eval_expr scope a with
      | Normal va =>
          match eval_expr scope b with
          | Normal vb => Normal (binary o va vb)
          | c => c
          end
      | c => c
      end
  | ECall0 f =>
      match eval_expr scope f with
      | Normal (VObject _) => Unsupported
      | Normal _ => Throw
      | c => c
      end
  | ECall1 f a =>
      match eval_expr scope f with
      | Normal (VObject _) => Unsupported
      | Normal _ =>
          match eval_expr scope a with
          | Normal _ => Throw
          | c => c
          end
      | c => c
      end
  end.

(** A line break in a text lets the language end a statement there. *)
Definition has_line_break (text : string) : bool :=
  negb (all_chars (fun c => negb ((code c =? 10)%nat || (code c =? 13)%nat)) text).

(** [eval(text)] on the expressions made of decimal and string literals,
    names, parentheses, calls and the operators of [operators].  A scalar
    is no function, so that calling one raises a [TypeError], after the
    argument is evaluated.  A text that is no program raises a
    [SyntaxError]; the model tells so of a text on one line only. *)
Definition js_eval (scope : string -> binding) (text : string) : completion :=
  match lex (S (String.length text)) false true text with
  | Tokens [] => Normal VUndefined
  | Tokens ts =>
      match parse ts with
      | Parsed e => eval_expr scope e
      | BadSyntax => if has_line_break text then Unsupported else Throw
      | NotCovered => Unsupported
      end
  | BadToken => if has_line_break text then Unsupported else Throw
  | Outside => Unsupported
  end.

(* ================================================================== *)
(** * Formula stage *)

Record FormulaConfig := {
  formula_name : string;
  formula_text : string
}.

(** [values.reduce((a, b) => a + b, 0)] *)
Definition reduce_sum (values : list number) : number :=
  fold_left num_add values (S754_zero false).

(** The callback of the [SUM] pattern. *)
Definition sum_term (data : list DataRow) (idx : nat) (cols : string) : string :=
  let col := trim cols in
  let values := numeric_values col (firstn (idx + 1) data) in
  NumberToString (reduce_sum values).

(** The callback of the [AVG] pattern. *)
Definition avg_term (data : list DataRow) (idx : nat) (cols : string) : string :=
  let col := trim cols in
  let values := numeric_values col (firstn (idx + 1) data) in
  NumberToString
    (match values with
     | [] => S754_zero false
     | _ => num_div (reduce_sum values) (num_of_nat (List.length values))
     end).

(** The callback of the [LEN] pattern: [String(String(row[col] || '').length)] *)
Definition len_term (row : DataRow) (cols : string) : string :=
  let col := trim cols in
  let v := row_get row col in
  NumberToString
    (num_of_nat (String.length (js_String (if truthy v then v else VStr "")))).

(** The callback of the condition pattern. *)
Definition comparison_term (row : DataRow) (groups : string * string * string)
  : string :=
  let '(col, op, val) := groups in
  let rowVal := js_Number (row_get row (trim col)) in
  let compVal := StringToNumber val in
  let res :=
    if String.eqb op "&gt;" then num_lt compVal rowVal
    else if String.eqb op "&lt;" then num_lt rowVal compVal
    else if String.eqb op "&gt;=" then num_le compVal rowVal
    else if String.eqb op "&lt;=" then num_le rowVal compVal
    else if String.eqb op "=" || String.eqb op "==" then num_eq rowVal compVal
    else if String.eqb op "!=" then negb (num_eq rowVal compVal)
    else false in
  if res then "true" else "false".

(** The names of the source that enclose both calls of [eval] and whose
    values the model does not follow: the parameters of the callbacks, the
    state of the component and its setters, the functions declared before
    [applyTransformations], those of the module and the bindings that the
    module imports.  The constants that the component declares after the
    call of [applyTransformations] are not initialised when it runs:
    reading one raises, as reading a name bound nowhere does. *)
Definition enclosing_names : list string :=
  ["row"; "data"; "formula";
   "rawData"; "setRawData"; "columns"; "setColumns"; "columnStats";
   "setColumnStats"; "transformedData"; "setTransformedData"; "activeTab";
   "setActiveTab"; "viewMode"; "setViewMode"; "isDragging"; "setIsDragging";
   "filters"; "setFilters"; "showFilterPanel"; "setShowFilterPanel";
   "sortConfig"; "setSortConfig"; "aggregation"; "setAggregation";
   "showAggregationPanel"; "setShowAggregationPanel"; "pivotConfig";
   "setPivotConfig"; "showPivotPanel"; "setShowPivotPanel"; "formulas";
   "setFormulas"; "showFormulaPanel"; "setShowFormulaPanel"; "newFormulaName";
   "setNewFormulaName"; "newFormulaText"; "setNewFormulaText"; "formulaError";
   "setFormulaError"; "showExportPanel"; "setShowExportPanel";
   "handleFileUpload"; "handleDrop"; "applyTransformations";
   "App"; "detectColumnType"; "getColumnStats"; "eval"; "arguments";
   "useState"; "useCallback"; "useMemo"; "Papa"; "XLSX";
   "Upload"; "FileSpreadsheet"; "Filter"; "Calculator"; "Table"; "BarChart3";
   "Download"; "Plus"; "X"; "ChevronDown"; "ChevronRight"; "ArrowUpDown";
   "ArrowUp"; "ArrowDown"; "Code"; "Database"; "FileText"; "RefreshCw";
   "AlertCircle"; "Grid3X3"; "Sparkles"; "BarChart"; "Bar"; "XAxis"; "YAxis";
   "CartesianGrid"; "Tooltip"; "ResponsiveContainer"; "cn"; "_"].

Definition language_constant (x : string) : option jsval :=
  if String.eqb x "undefined" then Some VUndefined
  else if String.eqb x "NaN" then Some (VNum NaN)
  else if String.eqb x "Infinity" then Some (VNum Infinity)
  else None.

Definition outer_scope (H : host) (idx : nat) (x : string) : binding :=
  if String.eqb x "idx" then Holds (VNum (num_of_nat idx))
  else if String.eqb x "result" then Holds VUndefined
  else if existsb (String.eqb x) enclosing_names then Other
  else match language_constant x with
       | Some v => Holds v
       | None => if host_binds H x then Other else Raises
       end.

(** The scope of [eval(condition)]: the constant [condition] itself, the
    parameters of the [IF] callback; [formulaStr] and [evalStr] are not
    initialised yet. *)
Definition condition_scope (H : host) (idx : nat)
  (condition matched cond trueVal falseVal : string) (x : string) : binding :=
  if String.eqb x "condition" then Holds (VStr condition)
  else if String.eqb x "_" then Holds (VStr matched)
  else if String.eqb x "cond" then Holds (VStr cond)
  else if String.eqb x "trueVal" then Holds (VStr trueVal)
  else if String.eqb x "falseVal" then Holds (VStr falseVal)
  else if String.eqb x "formulaStr" || String.eqb x "evalStr" then Raises
  else outer_scope H idx x.

(** The scope of [eval(evalStr)]. *)
Definition formula_scope (H : host) (idx : nat) (formulaStr evalStr : string)
  (x : string) : binding :=
  if String.eqb x "formulaStr" then Holds (VStr formulaStr)
  else if String.eqb x "evalStr" then Holds (VStr evalStr)
  else outer_scope H idx x.

Definition condition_pattern (s : string)
  : option (string * string * string * nat) :=
  match match_condition s with
  | Some (col, op, val, n) => Some ((col, op, val), n)
  | None => None
  end.

(** The callback of the [IF] pattern. *)
Definition if_term (H : host) (row : DataRow) (idx : nat) (matched : string)
  (groups : string * string * string) : option string :=
  let '(cond, trueVal, falseVal) := groups in
  let condition :=
    replace_all condition_pattern (fun _ => comparison_term row) cond 0 in
  match js_eval (condition_scope H idx condition matched cond trueVal falseVal)
          condition with
  | Normal v => Some (if truthy v then trim trueVal else trim falseVal)
  | Throw => Some (trim falseVal)
  | Unsupported => None
  end.

Definition if_pattern (s : string) : option (string * string * string * nat) :=
  match match_if s with
  | Some (cond, trueVal, falseVal, n) => Some ((cond, trueVal, falseVal), n)
  | None => None
  end.

(** The text of the formula after the five rewritings ([formulaStr]). *)
Definition rewrite_formula (H : host) (data : list DataRow) (idx : nat)
  (row : DataRow) (text : string) : option string :=
  let s1 := replace_all (match_call "SUM") (fun _ => sum_term data idx) text 0 in
  let s2 := replace_all (match_call "AVG") (fun _ => avg_term data idx) s1 0 in
  let s3 := replace_all (match_call "LEN") (fun _ => len_term row) s2 0 in
  match replace_all_opt if_pattern (if_term H row idx) s3 0 with
  | Some s4 =>
      Some (replace_all match_row
              (fun _ _ => NumberToString (num_add (num_of_nat idx) (num_of_Z 1)))
              s4 0)
  | None => None
  end.

(** The callback that puts the row's values for the names of [formulaStr]. *)
Definition name_term (row : DataRow) (name : string) : string :=
  match row_get row name with
  | VUndefined => name
  | VStr s => "'" ++ s ++ "'"
  | v => js_String v
  end.

(** [columns.forEach(col => new RegExp(`\\b${col}\\b`, 'g'))]: whether
    every pattern compiles; the replacement made with it is dropped. *)
Definition columns_compile (H : host) (columns : list string) : bool :=
  forallb (fun col => RegExp_compiles H ("\b" ++ col ++ "\b")) columns.

(** [evalStr]: [formulaStr] with the row's values put for its names. *)
Definition evalStr_of (row : DataRow) (formulaStr : string) : string :=
  replace_all match_name (fun _ => name_term row) formulaStr 0.

(** The callback of [data.map] for one formula: the row with the new
    field, or [None] where the model does not determine it.  An exception
    raised by the rewriting, by a pattern or by [eval] gives [null]. *)
Definition formula_row (H : host) (columns : list string)
  (formula : FormulaConfig) (data : list DataRow) (idx : nat) (row : DataRow)
  : option DataRow :=
  match rewrite_formula H data idx row (formula_text formula) with
  | Some formulaStr =>
      if columns_compile H columns then
        let evalStr := evalStr_of row formulaStr in
        match js_eval (formula_scope H idx formulaStr evalStr) evalStr with
        | Normal result => Some (row_set row (formula_name formula) result)
        | Throw => Some (row_set row (formula_name formula) VNull)
        | Unsupported => None
        end
      else Some (row_set row (formula_name formula) VNull)
  | None => None
  end.

(** [rows.map((row, idx) => f idx row)], from index [idx] on. *)
Fixpoint map_rows (f : nat -> DataRow -> option DataRow) (idx : nat)
  (rows : list DataRow) : option (list DataRow) :=
  match rows with
  | [] => Some []
  | row :: rest =>
      match f idx row, map_rows f (S idx) rest with
      | Some r, Some rs => Some (r :: rs)
      | _, _ => None
      end
  end.

Definition applyFormula (H : host) (columns : list string)
  (data : list DataRow) (formula : FormulaConfig) : option (list DataRow) :=
  map_rows (formula_row H columns formula data) 0 data.

Definition applyFormulas (H : host) (columns : list string)
  (formulas : list FormulaConfig) (data : list DataRow)
  : option (list DataRow) :=
  fold_left (fun acc formula =>
               match acc with
               | Some d => applyFormula H columns d formula
               | None => None
               end) formulas (Some data).

(* ================================================================== *)
(** * The pipeline *)

Record PipelineState := {
  rawData : list DataRow;
  columns : list string;
  filters : list FilterConfig;
  sortConfig : list SortConfig;
  aggregation : option AggregationConfig;
  pivotConfig : option PivotConfig;
  formulas : list FormulaConfig
}.

(** The rows [applyTransformations] hands to [setTransformedData]. *)
Definition applyTransformations (H : host) (st : PipelineState)
  : option (list DataRow) :=
  let data := applyFilters (filters st) (rawData st) in
  match sortStage H (sortConfig st) data with
  | Some data =>
      match applyAggregation (aggregation st) data with
      | Some data =>
          let data := applyPivot (pivotConfig st) data in
          applyFormulas H (columns st) (formulas st) data
      | None => None
      end
  | None => None
  end.

(* ================================================================== *)
(** * A reference host *)

(** Strings compared by code units. *)
Definition compare_code_units (a b : string) : number :=
  match String.compare a b with
  | Lt => num_of_Z (-1)
  | Eq => S754_zero false
  | Gt => num_of_Z 1
  end.

(** A pattern made of word characters, spaces and [\b] compiles. *)
Fixpoint plain_pattern (s : string) : bool :=
  match s with
  | EmptyString => true
  | String "\" (String "b" t) => plain_pattern t
  | String c t => (is_id_char c || (code c =? 32)%nat) && plain_pattern t
  end.

(** A host for the examples: strings are compared by code units, no
    string is a date, the patterns of [plain_pattern] compile, and the
    names bound besides those of the source are a few standard globals
    and what the global object inherits from [Object.prototype]. *)
Definition reference_host : host := {|
  localeCompare := compare_code_units;
  Date_parse := fun _ => NaN;
  RegExp_compiles := plain_pattern;
  host_binds := fun x =>
    existsb (String.eqb x)
      (["Math"; "Number"; "String"; "Object"; "Array"; "Date"; "JSON";
        "window"; "document"; "name"; "length"; "isNaN"; "parseFloat"]
       ++ map fst Object_prototype)%list
|}.

(** [[...new Set(strings)]]: the distinct strings, each at its first
    appearance. *)
Fixpoint unique_strings (l : list string) : list string :=
  match l with
  | [] => []
  | x :: rest =>
      x :: filter (fun y => negb (String.eqb y x)) (unique_strings rest)
  end.

(* ================================================================== *)
(** * Column statistics *)

Record ColumnInfo := {
  info_name : string;
  info_type : ColumnType;
  info_missing : nat;
  info_unique : nat;
  info_min : jsval;
  info_max : jsval
}.

Definition is_neg_zero (x : number) : bool :=
  match x with S754_zero true => true | _ => false end.

Definition is_pos_zero (x : number) : bool :=
  match x with S754_zero false => true | _ => false end.

(** [Math.min(...nums)]: [NaN] if an argument is, else the least, [-0]
    counting as less than [+0]; [Infinity] for no argument.  The bound
    an engine puts on the number of arguments of a call is not modelled. *)
Definition Math_min (nums : list number) : number :=
  fold_left (fun lowest n =>
               if isNaN lowest || isNaN n then NaN
               else if num_lt n lowest || (is_neg_zero n && is_pos_zero lowest)
                    then n else lowest)
    nums Infinity.

(** [Math.max(...nums)]. *)
Definition Math_max (nums : list number) : number :=
  fold_left (fun highest n =>
               if isNaN highest || isNaN n then NaN
               else if num_lt highest n || (is_pos_zero n && is_neg_zero highest)
                    then n else highest)
    nums (S754_infinity true).

(** [baseExtremum] on strings: the first element no later one beats. *)
Definition extremum_of (beats : string -> string -> bool) (values : list string)
  : option string :=
  fold_left (fun best v =>
               match best with
               | None => Some v
               | Some b => if beats v b then Some v else best
               end) values None.

(** [_.min(strings) || ''] and [_.max(strings) || '']. *)
Definition min_string (values : list string) : string :=
  match extremum_of String.ltb values with Some s => s | None => "" end.

Definition max_string (values : list string) : string :=
  match extremum_of (fun v b => String.ltb b v) values with
  | Some s => s
  | None => ""
  end.

Definition getColumnStats (H : host) (data : list DataRow) (column : string)
  : ColumnInfo :=
  let values := map (fun row => row_get row column) data in
  let nonEmpty := filter non_empty values in
  let uniqueValues := unique_strings (map js_String nonEmpty) in
  let type := detectColumnType H nonEmpty in
  let missing := List.length values - List.length nonEmpty in
  let unique := List.length uniqueValues in
  match type with
  | TNumber =>
      let nums := filter (fun n => negb (isNaN n)) (map js_Number nonEmpty) in
      match nums with
      | [] => {| info_name := column; info_type := type; info_missing := missing;
                 info_unique := unique; info_min := VUndefined;
                 info_max := VUndefined |}
      | _ => {| info_name := column; info_type := type; info_missing := missing;
                info_unique := unique; info_min := VNum (Math_min nums);
                info_max := VNum (Math_max nums) |}
      end
  | TString | TDate =>
      {| info_name := column; info_type := type; info_missing := missing;
         info_unique := unique;
         info_min := VStr (min_string (map js_String nonEmpty));
         info_max := VStr (max_string (map js_String nonEmpty)) |}
  | _ => {| info_name := column; info_type := type; info_missing := missing;
            info_unique := unique; info_min := VUndefined; info_max := VUndefined |}
  end.

(* ================================================================== *)
(** * File kinds *)

Inductive FileKind := CsvFile | JsonFile | ExcelFile | OtherFile.

(** [file.name.split('.').pop()?.toLowerCase()] *)
Definition file_extension (name : string) : string :=
  toLowerCase (last (str_split "." name) "").

(** The branch [handleFileUpload] takes for a file name. *)
Definition file_kind (name : string) : FileKind :=
  let extension := file_extension name in
  if String.eqb extension "csv" then CsvFile
  else if String.eqb extension "json" then JsonFile
  else if String.eqb extension "xlsx" || String.eqb extension "xls" then ExcelFile
  else OtherFile.

(* ================================================================== *)
(** * Editing the configuration *)

(** A partial filter configuration: the fields to overwrite. *)
Record FilterUpdate := {
  update_column : option string;
  update_operator : option string;
  update_value : option string;
  update_value2 : option string
}.

(** The state the formula panel works on. *)
Record FormulaPanel := {
  panel_formulas : list FormulaConfig;
  newFormulaName : string;
  newFormulaText : string;
  formulaError : string
}.

Module Editor.

Definition addFilter (columns : list string) (filters : list FilterConfig)
  : list FilterConfig :=
  match columns with
  | first :: _ =>
      (filters ++ [{| filter_column := first; filter_operator := "contains";
                      filter_value := ""; filter_value2 := None |}])%list
  | [] => filters
  end.

(** [l.filter((_, i) => i !== index)], the positions counted from [i]. *)
Fixpoint drop_index {A : Type} (index i : nat) (l : list A) : list A :=
  match l with
  | [] => []
  | x :: rest =>
      if (i =? index)%nat then drop_index index (S i) rest
      else x :: drop_index index (S i) rest
  end.

Definition removeFilter (index : nat) (filters : list FilterConfig)
  : list FilterConfig :=
  drop_index index 0 filters.

(** [{ ...f, ...updates }] *)
Definition merge_filter (f : FilterConfig) (updates : FilterUpdate) : FilterConfig :=
  {| filter_column := match update_column updates with
                      | Some c => c
                      | None => filter_column f
                      end;
     filter_operator := match update_operator updates with
                        | Some o => o
                        | None => filter_operator f
                        end;
     filter_value := match update_value updates with
                     | Some v => v
                     | None => filter_value f
                     end;
     filter_value2 := match update_value2 updates with
                      | Some v => Some v
                      | None => filter_value2 f
                      end |}.

(** [l.map((f, i) => i === index ? g f : f)], the positions counted from [i]. *)
Fixpoint map_index {A : Type} (g : A -> A) (index i : nat) (l : list A) : list A :=
  match l with
  | [] => []
  | x :: rest =>
      (if (i =? index)%nat then g x else x) :: map_index g index (S i) rest
  end.

Definition updateFilter (index : nat) (updates : FilterUpdate)
  (filters : list FilterConfig) : list FilterConfig :=
  map_index (fun f => merge_filter f updates) index 0 filters.

Definition toggleSort (column : string) (sortConfig : list SortConfig)
  : list SortConfig :=
  match find (fun s => String.eqb (sort_column s) column) sortConfig with
  | Some existing =>
      if String.eqb (sort_direction existing) "asc" then
        map (fun s => if String.eqb (sort_column s) column
                      then {| sort_column := sort_column s; sort_direction := "desc" |}
                      else s) sortConfig
      else filter (fun s => negb (String.eqb (sort_column s) column)) sortConfig
  | None =>
      (sortConfig ++ [{| sort_column := column; sort_direction := "asc" |}])%list
  end.

Definition applyFormula (panel : FormulaPanel) : FormulaPanel :=
  if String.eqb (newFormulaName panel) "" || String.eqb (newFormulaText panel) "" then
    {| panel_formulas := panel_formulas panel;
       newFormulaName := newFormulaName panel;
       newFormulaText := newFormulaText panel;
       formulaError := "Please enter both formula name and expression" |}
  else if existsb (fun f => String.eqb (formula_name f) (newFormulaName panel))
            (panel_formulas panel) then
    {| panel_formulas := panel_formulas panel;
       newFormulaName := newFormulaName panel;
       newFormulaText := newFormulaText panel;
       formulaError := "Formula name already exists" |}
  else
    {| panel_formulas :=
         (panel_formulas panel
          ++ [{| formula_name := newFormulaName panel;
                 formula_text := newFormulaText panel |}])%list;
       newFormulaName := "";
       newFormulaText := "";
       formulaError := "" |}.

Definition removeFormula (name : string) (formulas : list FormulaConfig)
  : list FormulaConfig :=
  filter (fun f => negb (String.eqb (formula_name f) name)) formulas.

End Editor.

(** The handlers of the pivot panel's buttons.
    [current.includes(c) ? current.filter(r => r !== c) : [...current, c]] *)
Definition toggle_member (c : string) (current : list string) : list string :=
  if existsb (String.eqb c) current
  then filter (fun r => negb (String.eqb r c)) current
  else (current ++ [c])%list.

(** The button of a row label. *)
Definition toggle_pivot_row (c : string) (pivotConfig : option PivotConfig)
  : option PivotConfig :=
  let current := match pivotConfig with Some p => pivot_rows p | None => [] end in
  let newRows := toggle_member c current in
  match pivotConfig with
  | Some p =>
      Some {| pivot_rows := newRows; pivot_columns := pivot_columns p;
              pivot_values := pivot_values p;
              pivot_aggregation := pivot_aggregation p |}
  | None =>
      Some {| pivot_rows := newRows; pivot_columns := []; pivot_values := [];
              pivot_aggregation := "sum" |}
  end.

(** The button of a value column. *)
Definition toggle_pivot_value (c : string) (pivotConfig : option PivotConfig)
  : option PivotConfig :=
  let current := match pivotConfig with Some p => pivot_values p | None => [] end in
  let newValues := toggle_member c current in
  match pivotConfig with
  | Some p =>
      Some {| pivot_rows := pivot_rows p; pivot_columns := pivot_columns p;
              pivot_values := newValues;
              pivot_aggregation := pivot_aggregation p |}
  | None =>
      Some {| pivot_rows := []; pivot_columns := []; pivot_values := newValues;
              pivot_aggregation := "sum" |}
  end.

(* ================================================================== *)
(** * SQL export *)

Definition newline : string := String (ascii_of_nat 10) EmptyString.

(** [/\s+/] *)
Definition match_spaces (s : string) : option (unit * nat) :=
  match span is_space s with
  | (String a w, _) => Some (tt, String.length (String a w))
  | _ => None
  end.

(** [/'/] *)
Definition match_quote (s : string) : option (unit * nat) :=
  match s with
  | String c _ => if (code c =? 39)%nat then Some (tt, 1) else None
  | EmptyString => None
  end.

(** [c.replace(/\s+/g, '_')] *)
Definition sql_column (c : string) : string :=
  replace_all match_spaces (fun _ _ => "_") c 0.

(** [s.replace(/'/g, "''")] *)
Definition sql_escape (s : string) : string :=
  replace_all match_quote (fun _ _ => "''") s 0.

(** The text of one value in a tuple. *)
Definition sql_value (val : jsval) : string :=
  match val with
  | VNull | VUndefined => "NULL"
  | VNum n => NumberToString n
  | _ => "'" ++ sql_escape (js_String val) ++ "'"
  end.

(** [Object.keys(row)]. *)
Definition Object_keys (row : DataRow) : list string := map fst (Object_entries row).

(** The text [generateSQL] offers for download. *)
Definition generateSQL (transformedData : list DataRow) : string :=
  let tableName := "transformed_data" in
  let cols := Object_keys (hd [] transformedData) in
  "-- SQL Query for transformed data" ++ newline
  ++ "CREATE TABLE " ++ tableName ++ " (" ++ newline
  ++ String.concat ("," ++ newline)
       (map (fun c => "  " ++ sql_column c ++ " TEXT") cols)
  ++ newline ++ ");" ++ newline ++ newline
  ++ "INSERT INTO " ++ tableName ++ " (" ++ String.concat ", " cols ++ ") VALUES"
  ++ newline
  ++ String.concat ("," ++ newline)
       (map (fun row =>
               "(" ++ String.concat ", " (map (fun c => sql_value (row_get row c)) cols)
               ++ ")") transformedData)
  ++ ";".

(* ================================================================== *)
(** * Chart data *)

Record ChartPoint := {
  point_name : string;
  point_value : number
}.

Definition is_number_type (t : ColumnType) : bool :=
  match t with TNumber => true | _ => false end.

Definition chartData (transformedData : list DataRow) (columns : list string)
  (columnStats : list ColumnInfo) : list ChartPoint :=
  let data := firstn 20 transformedData in
  if (List.length columns <? 2)%nat then []
  else
    let numCol :=
      find (fun c => existsb (fun cs => String.eqb (info_name cs) c
                                        && is_number_type (info_type cs))
                       columnStats) columns in
    let catCol := hd "" columns in
    match numCol with
    | None | Some EmptyString => []
    | Some numCol =>
        map (fun row =>
               let cat := row_get row catCol in
               let num := js_Number (row_get row numCol) in
               {| point_name :=
                    substring 0 20 (js_String (if truthy cat then cat else VStr ""));
                  point_value := if truthy (VNum num) then num else S754_zero false |})
          data
    end.

(* ================================================================== *)
(** * Notions of the specification *)

(** The running total of a column over the first [n] rows: each row adds
    its value, when that value is a number. *)
Fixpoint running_total (col : string) (rows : list DataRow) (n : nat) : number :=
  match n with
  | O => S754_zero false
  | S k =>
      let total := running_total col rows k in
      match nth_error rows k with
      | Some r =>
          let v := js_Number (row_get r col) in
          if isNaN v then total else num_add total v
      | None => total
      end
  end.

(** The distinct elements of a list of keys, each at its first
    appearance. *)
Fixpoint distinct (keys : list string) : list string :=
  match keys with
  | [] => []
  | k :: rest => k :: filter (fun k' => negb (String.eqb k' k)) (distinct rest)
  end.

(** [x] comes before [y] in [l]. *)
Definition comes_before {A : Type} (x y : A) (l : list A) : Prop :=
  exists l1 l2 l3, l = (l1 ++ x :: l2 ++ y :: l3)%list.

(** The sample rows [x = 1, 2, 3]. *)
Definition rows_x123 : list DataRow :=
  [[("x", VNum (num_of_Z 1))]; [("x", VNum (num_of_Z 2))]; [("x", VNum (num_of_Z 3))]].

(** A sample row whose [price] is 10. *)
Definition row_price10 : DataRow := [("price", VNum (num_of_Z 10))].

(** The text an [IF] term is rewritten to on [row_price10]. *)
Definition if_on_price10 (text : string) : option string :=
  rewrite_formula reference_host [row_price10] 0 row_price10 text.

(** Two rows of one pivot group; the value of the first converts to
    infinity, that of the second to no number. *)
Definition rows_infinite : list DataRow :=
  [[("r", VStr "a"); ("v", VStr "Infinity")]; [("r", VStr "a"); ("v", VStr "n/a")]].

Definition pivot_count_of_v : PivotConfig :=
  {| pivot_rows := ["r"]; pivot_columns := []; pivot_values := ["v"];
     pivot_aggregation := "count" |}.



(** The elements of the group of [k], in input order. *)
Definition members {A : Type} (key : A -> string) (k : string) (data : list A)
  : list A :=
  filter (fun x => String.eqb (key x) k) data.

(** Ascending order of array indices. *)
Definition index_le (a b : string) : Prop := (index_value a <= index_value b)%Z.

(** [before x y l]: some occurrence of [x] in [l] is followed, later, by
    an occurrence of [y]. *)
Fixpoint before {A : Type} (x y : A) (l : list A) : Prop :=
  match l with
  | [] => False
  | a :: rest => (a = x /\ In y rest) \/ before x y rest
  end.

(** Numbers in ascending order: no element is less than an earlier one. *)
Definition ascending (l : list number) : Prop :=
  StronglySorted (fun a b => num_lt b a = false) l.

(** The rows of a group with the values 2, 4, 6, and of one whose second
    value is no number. *)
Definition rows_x246 : list DataRow :=
  [[("x", VNum (num_of_Z 2))]; [("x", VNum (num_of_Z 4))]; [("x", VNum (num_of_Z 6))]].

Definition rows_x2_6 : list DataRow :=
  [[("x", VNum (num_of_Z 2))]; [("x", VStr "n/a")]; [("x", VNum (num_of_Z 6))]].

(** The field [_value] of the summary row of a group under an operation. *)
Definition value_of (col op key : string) (rows : list DataRow) : jsval :=
  row_get (aggregate_group {| agg_column := col; agg_operation := op |} (key, rows))
    "_value".

(** An invariant of the insertion: in the sorted part [acc], last
    element first, an element [q] stays ahead of an element [p] that came
    earlier in the input and does not sort after it. *)
Definition keeps_ties {A : Type} (comparefn : A -> A -> number)
  (input acc : list A) : Prop :=
  forall p q, before p q input -> sorts_after comparefn p q = false ->
              before q p acc.

(** A comparator on elements, applied to elements paired with their
    positions. *)
Definition on_rows {A : Type} (comparefn : A -> A -> number) (p q : nat * A)
  : number :=
  comparefn (snd p) (snd q).




(** The formula [total], which names no field either, and no variable. *)
Definition formula_total : FormulaConfig :=
  {| formula_name := "y"; formula_text := "total" |}.

(** Sample rows for the sort: the first and the third tie on [k]. *)
Definition rows_k101 : list DataRow :=
  [[("k", VNum (num_of_Z 1)); ("n", VStr "a")];
   [("k", VNum (num_of_Z 0)); ("n", VStr "b")];
   [("k", VNum (num_of_Z 1)); ("n", VStr "c")]].

Definition sort_by_k : list SortConfig :=
  [{| sort_column := "k"; sort_direction := "asc" |}].

(** The scenario of three rows [a = 1, 2, 3], [b = x, y, x]: the rows with
    [b = x], by descending [a], with the length of [b]. *)
Definition scenario : PipelineState := {|
  rawData := [[("a", VNum (num_of_Z 1)); ("b", VStr "x")];
              [("a", VNum (num_of_Z 2)); ("b", VStr "y")];
              [("a", VNum (num_of_Z 3)); ("b", VStr "x")]];
  columns := ["a"; "b"];
  filters := [{| filter_column := "b"; filter_operator := "equals";
                 filter_value := "x"; filter_value2 := None |}];
  sortConfig := [{| sort_column := "a"; sort_direction := "desc" |}];
  aggregation := None;
  pivotConfig := None;
  formulas := [{| formula_name := "len"; formula_text := "LEN(b)" |}]
|}.

(** What the comparison of a condition says on a row. *)
Definition comparison_holds (row : DataRow) (col op lit : string) : bool :=
  String.eqb (comparison_term row (col, op, lit)) "true".

(** A row passes a list of filters when it passes each of them. *)
Definition passes_all (filters : list FilterConfig) (row : DataRow) : bool :=
  forallb (fun f => filter_row f row) filters.

(** The operators that compare numbers. *)
Definition numeric_operators : list string := ["gt"; "lt"; "gte"; "lte"; "between"].

Definition filter_on (column operator value : string) : FilterConfig :=
  {| filter_column := column; filter_operator := operator;
     filter_value := value; filter_value2 := None |}.

Definition sort_on (column direction : string) : SortConfig :=
  {| sort_column := column; sort_direction := direction |}.

Definition rows_ab : list DataRow :=
  [[("a", VNum (num_of_Z 0)); ("b", VStr "x")];
   [("a", VNum (num_of_Z 5)); ("b", VStr "")];
   [("a", VStr "n/a"); ("b", VStr "xy")]].

(** Rows whose column [a] holds the numbers 10 and 2 and the text [10]. *)
Definition rows_mixed : list DataRow :=
  [[("a", VNum (num_of_Z 10))]; [("a", VNum (num_of_Z 2))]; [("a", VStr "10")]].

Definition sort_by_a : list SortConfig :=
  [{| sort_column := "a"; sort_direction := "asc" |}].

(** A comparator that orders the elements of [l] consistently: of two
    elements at most one sorts after the other, and not sorting after is
    transitive. *)
Definition consistent_on {A : Type} (comparefn : A -> A -> number) (l : list A)
  : Prop :=
  (forall a b, In a l -> In b l ->
               sorts_after comparefn a b = true -> sorts_after comparefn b a = false)
  /\ (forall a b c, In a l -> In b l -> In c l ->
                    sorts_after comparefn a b = false ->
                    sorts_after comparefn b c = false ->
                    sorts_after comparefn a c = false).

(** The operations the aggregation stage has a case for. *)
Definition handled_operations : list string :=
  ["sum"; "mean"; "median"; "count"; "min"; "max"].

(** A text without the character of the pivot separator. *)
Definition no_colon (s : string) : bool :=
  all_chars (fun c => negb (code c =? 58)%nat) s.

Definition pivot_sum_by_r : PivotConfig :=
  {| pivot_rows := ["r"; "s"]; pivot_columns := []; pivot_values := ["v"];
     pivot_aggregation := "sum" |}.

Definition rows_rsv : list DataRow :=
  [[("r", VStr "a"); ("s", VNum (num_of_Z 1)); ("v", VNum (num_of_Z 2))];
   [("r", VStr "b"); ("s", VNull); ("v", VNum (num_of_Z 3))];
   [("r", VStr "a"); ("s", VNum (num_of_Z 1)); ("v", VNum (num_of_Z 4))]].

(** How many of the first [n] rows hold a number in a column. *)
Definition running_count (col : string) (rows : list DataRow) (n : nat) : nat :=
  List.length (numeric_values col (firstn n rows)).

(** A cell that the substitution of names writes as a literal of the
    same value: plain text, a boolean or [null]. *)
Definition written_as_literal (v : jsval) : bool :=
  match v with
  | VStr s => all_chars (plain_in_literal "'"%char) s
  | VBool _ | VNull => true
  | _ => false
  end.

Definition formulas_total_len : list FormulaConfig :=
  [{| formula_name := "total"; formula_text := "SUM(x)" |};
   {| formula_name := "x"; formula_text := "LEN(total)" |}].

(** The numbers and the texts of a column that take part in its
    statistics. *)
Definition column_numbers (data : list DataRow) (column : string) : list number :=
  filter (fun n => negb (isNaN n))
    (map js_Number (filter non_empty (map (fun row => row_get row column) data))).

Definition column_texts (data : list DataRow) (column : string) : list string :=
  map js_String (filter non_empty (map (fun row => row_get row column) data)).

Definition rows_a : list DataRow :=
  [[("a", VNum (num_of_Z 3))]; [("a", VNull)]; [("a", VStr "-1")];
   [("b", VStr "x")]; [("a", VNum (num_of_Z 3))]].

Definition rows_name : list DataRow :=
  [[("name", VStr "pear")]; [("name", VStr "Apple")]; [("name", VStr "")];
   [("name", VStr "fig")]].

Definition panel_with (formulas : list FormulaConfig) (name text : string)
  : FormulaPanel :=
  {| panel_formulas := formulas; newFormulaName := name; newFormulaText := text;
     formulaError := "" |}.

Definition is_apostrophe (c : ascii) : bool := (code c =? 39)%nat.

(** The body of an SQL string literal, read after its opening quote: a
    doubled quote stands for one quote, a single one ends the literal.
    The result is the text and what follows the literal. *)
Fixpoint read_sql_body (s : string) : option (string * string) :=
  match s with
  | EmptyString => None
  | String a t =>
      if is_apostrophe a then
        match t with
        | String b t' =>
            if is_apostrophe b then
              match read_sql_body t' with
              | Some (body, rest) => Some (String a body, rest)
              | None => None
              end
            else Some (EmptyString, t)
        | EmptyString => Some (EmptyString, EmptyString)
        end
      else
        match read_sql_body t with
        | Some (body, rest) => Some (String a body, rest)
        | None => None
        end
  end.

Definition read_sql_literal (s : string) : option (string * string) :=
  match s with
  | String a t => if is_apostrophe a then read_sql_body t else None
  | EmptyString => None
  end.

Definition starts_with_apostrophe (s : string) : bool :=
  match s with
  | String c _ => is_apostrophe c
  | EmptyString => false
  end.

Definition not_space (c : ascii) : bool := negb (is_space c).
Definition not_dot (c : ascii) : bool := negb (code c =? 46)%nat.

(** A state with filters and a sort only. *)
Definition scenario_plain : PipelineState := {|
  rawData := rows_ab;
  columns := ["a"; "b"];
  filters := [filter_on "b" "contains" "x"];
  sortConfig := [sort_on "b" "desc"];
  aggregation := None;
  pivotConfig := None;
  formulas := []
|}.







(** A text without an opening parenthesis: none of the five rewritings
    applies to it. *)
Definition no_call (text : string) : bool :=
  all_chars (fun c => negb (code c =? 40)%nat) text.



(** What follows a name in a text: nothing, or a character that no name
    holds. *)
Definition ends_name (r : string) : Prop :=
  match r with
  | EmptyString => True
  | String c _ => is_id_char c = false
  end.












(* ------------------------------------------------------------------ *)
(** Proof automation *)

(** Case analysis on the comparisons of exponents and mantissas. *)
Ltac order_cases :=
  repeat match goal with
  | |- context [Z.compare ?a ?b] => destruct (Z.compare_spec a b)
  | H : context [Z.compare ?a ?b] |- _ => destruct (Z.compare_spec a b)
  | |- context [Pos.compare_cont Eq ?a ?b] =>
      change (Pos.compare_cont Eq a b) with (Pos.compare a b);
      destruct (Pos.compare_spec a b)
  | H : context [Pos.compare_cont Eq ?a ?b] |- _ =>
      change (Pos.compare_cont Eq a b) with (Pos.compare a b) in H;
      destruct (Pos.compare_spec a b)
  end.

(** Selects the branch of [aggregate_group] for a given operation. *)
Ltac reduce_value :=
  unfold value_of, aggregate_group; cbn [agg_column agg_operation];
  repeat match goal with
  | |- context [String.eqb ?a ?b] =>
      let r := eval vm_compute in (String.eqb a b) in
      change (String.eqb a b) with r
  end;
  cbv iota.

(* ================================================================== *)
(** * Strings: auxiliary facts *)

Lemma append_empty_r (s : string) : s ++ "" = s.
Proof. induction s as [|c s IH]; simpl; [reflexivity | now rewrite IH]. Qed.

Lemma append_length (a b : string) :
  String.length (a ++ b) = String.length a + String.length b.
Proof. induction a as [|c a IH]; simpl; [reflexivity | now rewrite IH]. Qed.

Lemma substring_whole (s : string) : substring 0 (String.length s) s = s.
Proof. induction s as [|c s IH]; simpl; [reflexivity | now rewrite IH]. Qed.

Lemma all_chars_cons (p : ascii -> bool) (c : ascii) (s : string) :
  all_chars p (String c s) = p c && all_chars p s.
Proof.
  unfold all_chars; simpl.
  destruct (p c); [| reflexivity].
  destruct (span p s) as [a [|d b]]; reflexivity.
Qed.

(** A run of characters of a class ends at the first character outside. *)
Lemma span_run (p : ascii -> bool) (s : string) (c : ascii) (t : string) :
  all_chars p s = true -> p c = false ->
  span p (s ++ String c t) = (s, String c t).
Proof.
  induction s as [|d s IH]; intros Hall Hc; simpl.
  - now rewrite Hc.
  - rewrite all_chars_cons in Hall. apply andb_prop in Hall as [Hd Hs].
    rewrite Hd, (IH Hs Hc). reflexivity.
Qed.

Lemma span_whole (p : ascii -> bool) (s : string) :
  all_chars p s = true -> span p s = (s, "").
Proof.
  induction s as [|d s IH]; intros Hall; simpl; [reflexivity |].
  rewrite all_chars_cons in Hall. apply andb_prop in Hall as [Hd Hs].
  rewrite Hd, (IH Hs). reflexivity.
Qed.

Section ReplaceFacts.
Context {C : Type}.
Variable pattern : string -> option (C * nat).

(** Inside a match nothing is looked at. *)
Lemma replace_all_skip (cb : string -> C -> string) (s : string) (k : nat) :
  String.length s <= k -> replace_all pattern cb s k = "".
Proof.
  revert k; induction s as [|c s IH]; intros k Hk; simpl; [reflexivity |].
  destruct k as [|k]; simpl in Hk; [lia |]. apply IH. lia.
Qed.

(** A text the pattern matches as a whole is replaced by the callback's
    result. *)
Lemma replace_all_whole (cb : string -> C -> string) (s : string) (g : C) :
  s <> "" -> pattern s = Some (g, String.length s) ->
  replace_all pattern cb s 0 = cb s g.
Proof.
  intros Hne Hm. destruct s as [|c t]; [congruence |].
  cbn [replace_all]. rewrite Hm, substring_whole.
  rewrite replace_all_skip by (simpl; lia).
  apply append_empty_r.
Qed.

(** A text in which the pattern matches nowhere stays as it is. *)
Lemma replace_all_none (cb : string -> C -> string) (P : string -> Prop) :
  (forall c t, P (String c t) -> P t) ->
  (forall s, P s -> pattern s = None) ->
  forall s, P s -> replace_all pattern cb s 0 = s.
Proof.
  intros Htail Hnone s. induction s as [|c t IH]; intros HP; simpl; [reflexivity |].
  rewrite (Hnone _ HP), IH; [reflexivity |]. eapply Htail, HP.
Qed.

Lemma replace_all_opt_none (cb : string -> C -> option string)
  (P : string -> Prop) :
  (forall c t, P (String c t) -> P t) ->
  (forall s, P s -> pattern s = None) ->
  forall s, P s -> replace_all_opt pattern cb s 0 = Some s.
Proof.
  intros Htail Hnone s. induction s as [|c t IH]; intros HP; simpl; [reflexivity |].
  rewrite (Hnone _ HP), IH; [reflexivity |]. eapply Htail, HP.
Qed.
End ReplaceFacts.

(** The whole of [NAME(cols)] is one match of the pattern of [NAME]. *)
Lemma match_call_term (name cols : string) :
  (forall rest, strip_prefix_ci (name ++ "(") (name ++ "(" ++ rest) = Some rest) ->
  cols <> "" -> all_chars not_rparen cols = true ->
  match_call name (name ++ "(" ++ cols ++ ")")
  = Some (cols, String.length (name ++ "(" ++ cols ++ ")")).
Proof.
  intros Hpre Hne Hall. unfold match_call. rewrite Hpre.
  rewrite (span_run not_rparen cols ")"%char "" Hall eq_refl).
  destruct cols as [|a cols]; [congruence |].
  f_equal. f_equal. rewrite !append_length. simpl. lia.
Qed.

Lemma replace_call_term (name cols : string) (cb : string -> string -> string) :
  (forall rest, strip_prefix_ci (name ++ "(") (name ++ "(" ++ rest) = Some rest) ->
  cols <> "" -> all_chars not_rparen cols = true ->
  replace_all (match_call name) cb (name ++ "(" ++ cols ++ ")") 0
  = cb (name ++ "(" ++ cols ++ ")") cols.
Proof.
  intros Hpre Hne Hall. apply replace_all_whole.
  - intros E. apply (f_equal String.length) in E.
    rewrite !append_length in E. simpl in E. lia.
  - now apply match_call_term.
Qed.

(* ================================================================== *)
(** * Filter stage: unknown operators *)

(** C6. A filter whose operator is none of the eleven known ones keeps
    every row: the predicate is [true] on each row, so the stage returns
    its input unchanged; no case of the predicate raises. *)
Theorem unknown_operator_keeps_rows (f : FilterConfig) :
  ~ In (filter_operator f) known_operators ->
  (forall row, filter_row f row = true)
  /\ (forall data, applyFilters [f] data = data).
Proof.
  intros Hop.
  assert (Hrow : forall row, filter_row f row = true).
  { intros row. unfold filter_row.
    repeat match goal with
    | |- context [String.eqb (filter_operator f) ?k] =>
        destruct (String.eqb_spec (filter_operator f) k) as [E | _];
        [exfalso; apply Hop; rewrite E; simpl; tauto |]
    end.
    reflexivity. }
  split; [exact Hrow |].
  intros data. unfold applyFilters. simpl.
  induction data as [|r data IH]; simpl; [reflexivity |].
  rewrite Hrow, IH. reflexivity.
Qed.

Lemma unknown_operator_keeps_rows_witness :
  ~ In "matches" known_operators
  /\ filter_row {| filter_column := "a"; filter_operator := "matches";
                   filter_value := "z"; filter_value2 := None |}
       [("a", VStr "b")] = true.
Proof.
  assert (H : ~ In "matches" known_operators).
  { simpl. intros K.
    repeat (destruct K as [K | K]; [discriminate K |]). exact K. }
  split; [exact H |].
  apply (unknown_operator_keeps_rows
           {| filter_column := "a"; filter_operator := "matches";
              filter_value := "z"; filter_value2 := None |} H).
Defined.

(* ================================================================== *)
(** * Type profiler: numbers before booleans *)

Lemma finite_not_NaN (x : number) : is_finite x = true -> isNaN x = false.
Proof. destruct x; simpl; congruence. Qed.

Lemma non_empty_not_blank (v : jsval) :
  non_empty v = true -> strict_equal v (VStr "") = false.
Proof. destruct v as [| | b | n | [|c s] | t]; simpl; congruence. Qed.

Lemma In_firstn_In {A : Type} (n : nat) (l : list A) (x : A) :
  In x (firstn n l) -> In x l.
Proof.
  revert l; induction n as [|n IH]; intros [|a l]; simpl; try tauto.
  intros [K | K]; [now left | right; now apply IH].
Qed.

(** C9. A column that has non-empty values, and whose sampled non-empty
    values (the first hundred) all convert to finite numbers, is inferred
    as [number], whatever else the values could be read as: the number
    test comes first. *)
Theorem numeric_sample_is_number (H : host) (values : list jsval) :
  filter non_empty values <> [] ->
  (forall v, In v (firstn 100 (filter non_empty values)) ->
             is_finite (js_Number v) = true) ->
  detectColumnType H values = TNumber.
Proof.
  intros Hne Hfin. unfold detectColumnType.
  remember (filter non_empty values) as ne eqn:E.
  destruct ne as [|v0 rest]; [congruence |].
  replace (forallb _ (firstn 100 (v0 :: rest))) with true; [reflexivity |].
  symmetry. apply forallb_forall. intros v Hv.
  rewrite (finite_not_NaN _ (Hfin v Hv)).
  apply In_firstn_In in Hv. rewrite E in Hv.
  apply filter_In in Hv as [_ Hv]. now rewrite (non_empty_not_blank _ Hv).
Qed.

(** The column ["0", "1", "0"], whose values are all boolean tokens, is a
    number column. *)
Lemma numeric_sample_is_number_witness :
  forallb (fun v => existsb (String.eqb (toLowerCase (js_String v))) boolean_tokens)
    [VStr "0"; VStr "1"; VStr "0"] = true
  /\ detectColumnType reference_host [VStr "0"; VStr "1"; VStr "0"] = TNumber.
Proof.
  split; [reflexivity |].
  apply (numeric_sample_is_number reference_host [VStr "0"; VStr "1"; VStr "0"]).
  - simpl. discriminate.
  - simpl. intros v [E | [E | [E | []]]]; subst v; reflexivity.
Defined.

(* ================================================================== *)
(** * Formula stage: the terms [LEN] and [SUM] *)

Lemma call_prefix_LEN (rest : string) :
  strip_prefix_ci ("LEN" ++ "(") ("LEN" ++ "(" ++ rest) = Some rest.
Proof. reflexivity. Qed.

Lemma call_prefix_SUM (rest : string) :
  strip_prefix_ci ("SUM" ++ "(") ("SUM" ++ "(" ++ rest) = Some rest.
Proof. reflexivity. Qed.

(** C10. Where the cell of the column holds a falsy value (the number 0,
    [false], the empty string, as well as [undefined]), the term
    [LEN(col)] is rewritten to [0]: the empty string stands in for the
    cell. *)
Theorem len_of_falsy_cell (row : DataRow) (cols : string) :
  cols <> "" -> all_chars not_rparen cols = true ->
  truthy (row_get row (trim cols)) = false ->
  replace_all (match_call "LEN") (fun _ => len_term row) ("LEN(" ++ cols ++ ")") 0
  = "0".
Proof.
  intros Hne Hall Hfalsy.
  change ("LEN(" ++ cols ++ ")") with ("LEN" ++ "(" ++ cols ++ ")").
  rewrite (replace_call_term "LEN" cols _ call_prefix_LEN Hne Hall).
  unfold len_term. rewrite Hfalsy. reflexivity.
Qed.

(** The cells 0, [false] and the empty string: the length is 0 for each,
    although [String(0)] has one character. *)
Lemma len_of_falsy_cell_witness :
  String.length (js_String (VNum (num_of_Z 0))) = 1
  /\ Forall (fun v =>
       replace_all (match_call "LEN") (fun _ => len_term [("n", v)]) "LEN(n)" 0 = "0")
       [VNum (num_of_Z 0); VBool false; VStr ""].
Proof.
  split; [reflexivity |].
  apply Forall_cons;
    [apply (len_of_falsy_cell _ "n"); [discriminate | reflexivity | reflexivity] |].
  apply Forall_cons;
    [apply (len_of_falsy_cell _ "n"); [discriminate | reflexivity | reflexivity] |].
  apply Forall_cons;
    [apply (len_of_falsy_cell _ "n"); [discriminate | reflexivity | reflexivity] |].
  apply Forall_nil.
Defined.

Lemma firstn_succ {A : Type} (n : nat) (l : list A) :
  firstn (S n) l
  = (firstn n l ++ match nth_error l n with Some x => [x] | None => [] end)%list.
Proof.
  revert l; induction n as [|n IH]; intros [|a l]; try reflexivity.
  change (firstn (S (S n)) (a :: l)) with (a :: firstn (S n) l).
  rewrite IH. reflexivity.
Qed.

(** The sum over the first [n] rows is the running total. *)
Lemma reduce_sum_running_total (col : string) (data : list DataRow) (n : nat) :
  reduce_sum (numeric_values col (firstn n data)) = running_total col data n.
Proof.
  induction n as [|n IH].
  - reflexivity.
  - rewrite firstn_succ. unfold reduce_sum, numeric_values in *.
    rewrite map_app, filter_app, fold_left_app, IH.
    cbn [running_total]. destruct (nth_error data n) as [r |]; [| reflexivity].
    simpl. destruct (isNaN (js_Number (row_get r col))); reflexivity.
Qed.

(** C3. At row [idx] the term [SUM(col)] is rewritten to the running
    total of the column over the rows [0] to [idx]; on the rows
    [x = 1, 2, 3] the formula [SUM(x)] gives 1, 3 and 6. *)
Theorem sum_term_is_running_total :
  (forall data idx cols,
      cols <> "" -> all_chars not_rparen cols = true ->
      replace_all (match_call "SUM") (fun _ => sum_term data idx)
        ("SUM(" ++ cols ++ ")") 0
      = NumberToString (running_total (trim cols) data (S idx)))
  /\ applyFormula reference_host ["x"] rows_x123
       {| formula_name := "total"; formula_text := "SUM(x)" |}
     = Some [[("x", VNum (num_of_Z 1)); ("total", VNum (num_of_Z 1))];
             [("x", VNum (num_of_Z 2)); ("total", VNum (num_of_Z 3))];
             [("x", VNum (num_of_Z 3)); ("total", VNum (num_of_Z 6))]].
Proof.
  split.
  - intros data idx cols Hne Hall.
    change ("SUM(" ++ cols ++ ")") with ("SUM" ++ "(" ++ cols ++ ")").
    rewrite (replace_call_term "SUM" cols _ call_prefix_SUM Hne Hall).
    unfold sum_term. rewrite Nat.add_1_r. f_equal.
    apply reduce_sum_running_total.
  - vm_compute. reflexivity.
Qed.

Lemma sum_term_is_running_total_witness :
  map (fun idx =>
         replace_all (match_call "SUM") (fun _ => sum_term rows_x123 idx) "SUM( x )" 0)
    [0; 1; 2]
  = map (fun idx => NumberToString (running_total "x" rows_x123 (S idx))) [0; 1; 2].
Proof.
  unfold map.
  rewrite !(proj1 sum_term_is_running_total _ _ " x ") by (discriminate || reflexivity).
  reflexivity.
Defined.

(* ================================================================== *)
(** * Formula stage: the condition of [IF] *)

Lemma literal_char_facts (c : ascii) :
  is_literal_char c = true ->
  is_space c = false /\ is_name_char c = false /\ Ascii.eqb "="%char c = false.
Proof.
  destruct c as [[] [] [] [] [] [] [] []]; vm_compute; intros E;
    try discriminate E; repeat split; reflexivity.
Qed.

Lemma space_char_facts (c : ascii) :
  is_space c = true ->
  is_name_char c = false /\ is_literal_char c = false /\ Ascii.eqb "="%char c = false.
Proof.
  destruct c as [[] [] [] [] [] [] [] []]; vm_compute; intros E;
    try discriminate E; repeat split; reflexivity.
Qed.

Lemma strip_prefix_app (p r : string) : strip_prefix p (p ++ r) = Some r.
Proof. induction p as [|a p IH]; simpl; [reflexivity |]. now rewrite Ascii.eqb_refl. Qed.

(** Spaces, then a literal: the two runs are found as they are, and the
    text starts with no equals sign and no name character. *)
Lemma spaces_then_literal (ws lit : string) :
  all_chars is_space ws = true -> lit <> "" -> all_chars is_literal_char lit = true ->
  span is_space (ws ++ lit) = (ws, lit)
  /\ span is_literal_char lit = (lit, "")
  /\ exists c t, ws ++ lit = String c t /\ Ascii.eqb "="%char c = false.
Proof.
  intros Hws Hne Hlit. destruct lit as [|c lit]; [congruence |].
  assert (Hc : is_literal_char c = true).
  { rewrite all_chars_cons in Hlit. now apply andb_prop in Hlit. }
  destruct (literal_char_facts c Hc) as [Hs [_ He]].
  repeat split.
  - now apply span_run.
  - now apply span_whole.
  - destruct ws as [|d ws]; simpl; [now exists c, lit |].
    exists d, (ws ++ String c lit). split; [reflexivity |].
    rewrite all_chars_cons in Hws. apply andb_prop in Hws as [Hd _].
    now destruct (space_char_facts d Hd) as [_ [_ K]].
Qed.

Lemma strip_prefix_common (p q r : string) :
  strip_prefix (p ++ q) (p ++ r) = strip_prefix q r.
Proof. induction p as [|a p IH]; simpl; [reflexivity |]. now rewrite Ascii.eqb_refl. Qed.

Lemma strip_equals (c : ascii) (t : string) :
  Ascii.eqb "="%char c = false -> strip_prefix "=" (String c t) = None.
Proof.
  intros E.
  change (strip_prefix "=" (String c t))
    with (if Ascii.eqb "="%char c then Some t else None).
  now rewrite E.
Qed.

Lemma operator_skip (op : string) (rest : list string) (s : string) :
  strip_prefix op s = None ->
  match_operator (op :: rest) s = match_operator rest s.
Proof. intros E. cbn [match_operator]. now rewrite E. Qed.

Lemma operator_skip_equals (op : string) (rest : list string) (s r : string) :
  strip_prefix op s = Some (String "="%char r) ->
  match_operator (op :: rest) s = match_operator rest s.
Proof. intros E. cbn [match_operator]. now rewrite E. Qed.

Lemma operator_found (op : string) (rest : list string) (ws lit : string) :
  all_chars is_space ws = true -> lit <> "" -> all_chars is_literal_char lit = true ->
  match_operator (op :: rest) (op ++ ws ++ lit)
  = Some (op, lit, String.length op + String.length ws + String.length lit).
Proof.
  intros Hws Hne Hlit.
  destruct (spaces_then_literal ws lit Hws Hne Hlit) as [Hsp [Hl _]].
  cbn [match_operator]. rewrite strip_prefix_app, Hsp, Hl.
  destruct lit; [congruence | reflexivity].
Qed.

Lemma match_operator_found (op ws lit : string) :
  In op condition_operators ->
  all_chars is_space ws = true -> lit <> "" -> all_chars is_literal_char lit = true ->
  match_operator condition_operators (op ++ ws ++ lit)
  = Some (op, lit, String.length op + String.length ws + String.length lit).
Proof.
  intros Hop Hws Hne Hlit.
  destruct (spaces_then_literal ws lit Hws Hne Hlit) as [_ [_ [c [t [Ew Hc]]]]].
  assert (Hgt : strip_prefix "&gt;=" ("&gt;" ++ ws ++ lit) = None).
  { change "&gt;=" with ("&gt;" ++ "=").
    rewrite strip_prefix_common, Ew. now apply strip_equals. }
  assert (Hlt : strip_prefix "&lt;=" ("&lt;" ++ ws ++ lit) = None).
  { change "&lt;=" with ("&lt;" ++ "=").
    rewrite strip_prefix_common, Ew. now apply strip_equals. }
  unfold condition_operators. simpl in Hop.
  destruct Hop as [<- | [<- | [<- | [<- | [<- | [<- | [<- | []]]]]]]].
  - now apply operator_found.
  - rewrite operator_skip by reflexivity. now apply operator_found.
  - rewrite operator_skip by exact Hgt.
    rewrite operator_skip by reflexivity. now apply operator_found.
  - rewrite operator_skip by reflexivity.
    rewrite operator_skip by exact Hlt.
    rewrite operator_skip by reflexivity. now apply operator_found.
  - rewrite !operator_skip by reflexivity. now apply operator_found.
  - rewrite !operator_skip by reflexivity.
    rewrite (operator_skip_equals "=" _ _ (ws ++ lit)) by reflexivity.
    now apply operator_found.
  - rewrite !operator_skip by reflexivity. now apply operator_found.
Qed.

(** A condition [col OP literal] is one match of the condition pattern. *)
Lemma match_condition_whole (col ws1 op ws2 lit : string) :
  col <> "" -> all_chars is_name_char col = true ->
  all_chars is_space ws1 = true -> In op condition_operators ->
  all_chars is_space ws2 = true ->
  lit <> "" -> all_chars is_literal_char lit = true ->
  condition_pattern (col ++ ws1 ++ op ++ ws2 ++ lit)
  = Some ((col, op, lit), String.length (col ++ ws1 ++ op ++ ws2 ++ lit)).
Proof.
  intros Hne Hcol Hws1 Hop Hws2 Hnl Hlit.
  unfold condition_pattern, match_condition.
  assert (Hfirst : exists c t, op ++ ws2 ++ lit = String c t
                               /\ is_name_char c = false /\ is_space c = false).
  { simpl in Hop.
    destruct Hop as [<- | [<- | [<- | [<- | [<- | [<- | [<- | []]]]]]]];
      eexists; eexists; (split; [reflexivity | split; reflexivity]). }
  destruct Hfirst as [c [t [Eo [Hn Hs]]]].
  assert (Hrest : exists d u, ws1 ++ op ++ ws2 ++ lit = String d u
                              /\ is_name_char d = false).
  { destruct ws1 as [|d ws1]; simpl.
    - exists c, t. now split.
    - exists d, (ws1 ++ op ++ ws2 ++ lit). split; [reflexivity |].
      rewrite all_chars_cons in Hws1. apply andb_prop in Hws1 as [Hd _].
      now destruct (space_char_facts d Hd). }
  destruct Hrest as [d [u [Er Hd]]].
  rewrite Er, (span_run is_name_char col d u Hcol Hd), <- Er.
  destruct col as [|a col']; [congruence |].
  rewrite Eo, (span_run is_space ws1 c t Hws1 Hs), <- Eo.
  rewrite (match_operator_found op ws2 lit Hop Hws2 Hnl Hlit).
  f_equal. f_equal. rewrite !append_length. simpl. lia.
Qed.

Lemma condition_rewritten (row : DataRow) (col ws1 op ws2 lit : string) :
  col <> "" -> all_chars is_name_char col = true ->
  all_chars is_space ws1 = true -> In op condition_operators ->
  all_chars is_space ws2 = true ->
  lit <> "" -> all_chars is_literal_char lit = true ->
  replace_all condition_pattern (fun _ => comparison_term row)
    (col ++ ws1 ++ op ++ ws2 ++ lit) 0
  = comparison_term row (col, op, lit).
Proof.
  intros Hne Hcol Hws1 Hop Hws2 Hnl Hlit.
  apply (replace_all_whole condition_pattern (fun _ => comparison_term row) _
           (col, op, lit)).
  - destruct col; [congruence | discriminate].
  - now apply match_condition_whole.
Qed.

(** For a condition [col OP literal], with the operators spelled as in
    the pattern, the term is rewritten to its second or its third
    argument, trimmed, as the comparison tells. *)
Theorem if_term_on_condition (H : host) (row : DataRow) (idx : nat)
  (matched col ws1 op ws2 lit trueVal falseVal : string) :
  col <> "" -> all_chars is_name_char col = true ->
  all_chars is_space ws1 = true -> In op condition_operators ->
  all_chars is_space ws2 = true ->
  lit <> "" -> all_chars is_literal_char lit = true ->
  if_term H row idx matched (col ++ ws1 ++ op ++ ws2 ++ lit, trueVal, falseVal)
  = Some (if comparison_holds row col op lit then trim trueVal else trim falseVal).
Proof.
  intros Hne Hcol Hws1 Hop Hws2 Hnl Hlit. unfold if_term.
  rewrite (condition_rewritten row col ws1 op ws2 lit) by assumption.
  unfold comparison_holds.
  assert (Hc : comparison_term row (col, op, lit) = "true"
               \/ comparison_term row (col, op, lit) = "false").
  { unfold comparison_term.
    match goal with |- context [if ?b then "true" else "false"] => destruct b end;
      auto. }
  destruct Hc as [-> | ->]; reflexivity.
Qed.

(** C1. On a row whose [price] is 10 the comparisons [price > 5],
    [price < 50], [price >= 10] and [price <= 10] hold, yet the terms
    written with these operators are rewritten to the third argument:
    the condition pattern knows the four operators under the spellings
    [&gt;], [&lt;], [&gt;=] and [&lt;=] only, the text of the condition
    reaches [eval] as it is, and reading [price] raises.  The operators
    [=], [==] and [!=] select the argument as the comparison tells. *)
Theorem if_term_on_sample_row :
  js_Number (row_get row_price10 "price") = num_of_Z 10
  /\ map if_on_price10
       ["IF(price > 5, 1, 0)"; "IF(price < 50, 1, 0)";
        "IF(price >= 10, 1, 0)"; "IF(price <= 10, 1, 0)"]
     = [Some "0"; Some "0"; Some "0"; Some "0"]
  /\ map if_on_price10
       ["IF(price &gt; 5, 1, 0)"; "IF(price &lt; 50, 1, 0)";
        "IF(price &gt;= 10, 1, 0)"; "IF(price &lt;= 10, 1, 0)"]
     = [Some "1"; Some "1"; Some "1"; Some "1"]
  /\ map if_on_price10
       ["IF(price = 10, 1, 0)"; "IF(price == 10, 1, 0)"; "IF(price != 10, 1, 0)";
        "IF(price = 5, 1, 0)"; "IF(price != 5,  yes , no)"]
     = [Some "1"; Some "1"; Some "0"; Some "0"; Some "yes"].
Proof. repeat split; vm_compute; reflexivity. Qed.

(* ================================================================== *)
(** * Rows: reading after writing *)

Lemma row_get_set_same (row : DataRow) (k : string) (v : jsval) :
  row_get (row_set row k v) k = v.
Proof.
  induction row as [|[k' v'] row IH]; simpl.
  - now rewrite String.eqb_refl.
  - destruct (String.eqb k' k) eqn:E; simpl.
    + now rewrite String.eqb_refl.
    + now rewrite E.
Qed.

Lemma row_get_set_other (row : DataRow) (k k' : string) (v : jsval) :
  k <> k' -> row_get (row_set row k v) k' = row_get row k'.
Proof.
  intros Hne. induction row as [|[k0 v0] row IH]; simpl.
  - destruct (String.eqb_spec k k'); [contradiction | reflexivity].
  - destruct (String.eqb_spec k0 k) as [-> | Hk]; simpl.
    + destruct (String.eqb_spec k k'); [contradiction | reflexivity].
    + destruct (String.eqb k0 k'); [reflexivity | exact IH].
Qed.

Lemma append_same_suffix (a b s : string) : a ++ s = b ++ s -> a = b.
Proof.
  revert b; induction a as [|c a IH]; intros [|d b] E; simpl in E.
  - reflexivity.
  - apply (f_equal String.length) in E. simpl in E. rewrite append_length in E. lia.
  - apply (f_equal String.length) in E. simpl in E. rewrite append_length in E. lia.
  - injection E as -> E. f_equal. now apply IH.
Qed.

(* ================================================================== *)
(** * Pivot stage: what [count] counts *)

Lemma numeric_values_length (col : string) (rows : list DataRow) :
  List.length (numeric_values col rows)
  = List.length (filter (fun r => negb (isNaN (js_Number (row_get r col)))) rows).
Proof.
  unfold numeric_values. induction rows as [|r rows IH]; simpl; [reflexivity |].
  destruct (isNaN (js_Number (row_get r col))); simpl; now rewrite IH.
Qed.

Lemma pivot_count_fold (cfg : PivotConfig) (rows : list DataRow)
  (vals : list string) (row : DataRow) (val : string) :
  pivot_aggregation cfg = "count" -> In val vals ->
  row_get (fold_left (set_pivot_value cfg rows) vals row) (val ++ "_count")
  = VNum (num_of_nat (List.length (numeric_values val rows))).
Proof.
  intros Hop. revert row. induction vals as [|v vals IH] using rev_ind; intros row Hin.
  - destruct Hin.
  - rewrite fold_left_app. simpl. unfold set_pivot_value at 1. rewrite Hop. simpl.
    destruct (string_dec v val) as [-> | Hne].
    + apply row_get_set_same.
    + rewrite row_get_set_other.
      * apply IH. apply in_app_or in Hin as [K | [K | []]]; congruence.
      * intros E. apply Hne. eapply append_same_suffix, E.
Qed.

(** C5, as amended. Under the aggregation [count] the field
    [<value>_count] of a pivot group holds the number of the group's rows
    whose value converts to something other than [NaN]; an infinite value
    counts. *)
Theorem pivot_count_counts_numbers (cfg : PivotConfig) (key : string)
  (rows : list DataRow) (val : string) :
  pivot_aggregation cfg = "count" -> In val (pivot_values cfg) ->
  row_get (pivot_group cfg (key, rows)) (val ++ "_count")
  = VNum (num_of_nat
            (List.length
               (filter (fun r => negb (isNaN (js_Number (row_get r val)))) rows))).
Proof.
  intros Hop Hin. unfold pivot_group.
  rewrite (pivot_count_fold cfg rows _ _ val Hop Hin).
  now rewrite numeric_values_length.
Qed.

Lemma pivot_count_counts_numbers_witness :
  row_get (pivot_group pivot_count_of_v ("a", rows_infinite)) ("v" ++ "_count")
  = VNum (num_of_nat
            (List.length
               (filter (fun r => negb (isNaN (js_Number (row_get r "v"))))
                  rows_infinite))).
Proof.
  apply (pivot_count_counts_numbers pivot_count_of_v "a" rows_infinite "v").
  - reflexivity.
  - simpl. left. reflexivity.
Defined.

(** C5 as stated fails: of the two values of the group none converts to a
    finite number, and the field holds 1. *)
Lemma pivot_count_counterexample :
  applyPivot (Some pivot_count_of_v) rows_infinite
  = [[("r", VStr "a"); ("v_count", VNum (num_of_Z 1))]]
  /\ List.length
       (filter (fun r => is_finite (js_Number (row_get r "v"))) rows_infinite) = 0
  /\ List.length rows_infinite = 2.
Proof. repeat split; vm_compute; reflexivity. Qed.

(* ================================================================== *)
(** * Grouping: the groups and their order *)

Lemma distinct_In (keys : list string) (k : string) :
  In k (distinct keys) <-> In k keys.
Proof.
  induction keys as [|a keys IH]; simpl; [tauto |].
  rewrite filter_In, IH. split.
  - intros [E | [K _]]; auto.
  - intros [E | K]; [now left |].
    destruct (string_dec a k) as [E | Hne]; [now left | right].
    split; [exact K |]. destruct (String.eqb_spec k a); [congruence | reflexivity].
Qed.

Lemma distinct_NoDup (keys : list string) : NoDup (distinct keys).
Proof.
  induction keys as [|a keys IH]; simpl; constructor.
  - rewrite filter_In. intros [_ K]. now rewrite String.eqb_refl in K.
  - now apply NoDup_filter.
Qed.

(** A key added at the end is new or has been seen. *)
Lemma distinct_snoc (keys : list string) (k : string) :
  distinct (keys ++ [k])
  = (distinct keys ++ if existsb (String.eqb k) keys then [] else [k])%list.
Proof.
  induction keys as [|a keys IH]; simpl; [reflexivity |].
  rewrite IH, filter_app. f_equal. f_equal.
  destruct (String.eqb_spec k a) as [-> | Hne]; simpl.
  - destruct (existsb (String.eqb a) keys); simpl; [reflexivity |].
    now rewrite String.eqb_refl.
  - destruct (existsb (String.eqb k) keys); simpl; [reflexivity |].
    destruct (String.eqb_spec k a); [contradiction | reflexivity].
Qed.

Lemma existsb_eqb_In (k : string) (l : list string) :
  existsb (String.eqb k) l = true <-> In k l.
Proof.
  rewrite existsb_exists. split.
  - intros [y [Hy E]]. apply String.eqb_eq in E. now subst.
  - intros K. exists k. split; [exact K | apply String.eqb_refl].
Qed.

Lemma existsb_distinct (k : string) (keys : list string) :
  existsb (String.eqb k) (distinct keys) = existsb (String.eqb k) keys.
Proof.
  apply eq_true_iff_eq. rewrite !existsb_eqb_In. apply distinct_In.
Qed.

Section GroupFacts.
Context {A : Type}.
Variable key : A -> string.

Lemma members_none (k : string) (data : list A) :
  ~ In k (map key data) -> members key k data = [].
Proof.
  induction data as [|y data IH]; simpl; intros Hk; [reflexivity |].
  destruct (String.eqb_spec (key y) k) as [E | _]; [tauto |].
  apply IH. tauto.
Qed.

(** One more element: its group grows at the end, or a new group is
    created after the others. *)
Lemma group_add_map (F : string -> list A) (k : string) (x : A)
  (ks : list string) :
  NoDup ks ->
  group_add k x (map (fun k' => (k', F k')) ks)
  = (map (fun k' => (k', if String.eqb k' k then F k' ++ [x] else F k')) ks
     ++ if existsb (String.eqb k) ks then [] else [(k, [x])])%list.
Proof.
  induction ks as [|a ks IH]; intros Hnd; simpl; [reflexivity |].
  inversion Hnd as [|a' ks' Ha Hks]; subst.
  destruct (String.eqb_spec a k) as [-> | Hne].
  - rewrite String.eqb_refl. simpl. rewrite app_nil_r. f_equal.
    apply map_ext_in. intros k' Hk'.
    destruct (String.eqb_spec k' k); [congruence | reflexivity].
  - destruct (String.eqb_spec k a); [congruence |]. simpl.
    now rewrite (IH Hks).
Qed.

(** [_.groupBy]: one group for each distinct key, in the order of the
    first appearance of the keys, each with its elements in input
    order. *)
Lemma groupBy_members (data : list A) :
  groupBy key data
  = map (fun k => (k, members key k data)) (distinct (map key data)).
Proof.
  induction data as [|x data IH] using rev_ind; [reflexivity |].
  unfold groupBy in *. rewrite fold_left_app. simpl. rewrite IH.
  rewrite group_add_map by apply distinct_NoDup.
  replace (map key (data ++ [x])) with (map key data ++ [key x])%list
    by (now rewrite map_app).
  rewrite distinct_snoc, map_app, existsb_distinct.
  f_equal.
  - apply map_ext. intros k. unfold members. rewrite filter_app. simpl.
    destruct (String.eqb (key x) k) eqn:E.
    + now rewrite String.eqb_sym, E.
    + rewrite String.eqb_sym, E. now rewrite app_nil_r.
  - destruct (existsb (String.eqb (key x)) (map key data)) eqn:E;
      [reflexivity |]. simpl. f_equal. f_equal.
    unfold members at 1. rewrite filter_app. simpl. rewrite String.eqb_refl.
    fold (members key (key x) data). rewrite members_none; [reflexivity |].
    rewrite <- existsb_eqb_In. congruence.
Qed.
End GroupFacts.

Section EntriesFacts.
Context {A : Type}.

Lemma insert_index_perm (e : string * A) (l : list (string * A)) :
  Permutation (insert_index e l) (e :: l).
Proof.
  induction l as [|e' l IH]; simpl; [apply Permutation_refl |].
  destruct (index_value (fst e) <=? index_value (fst e'))%Z.
  - apply Permutation_refl.
  - eapply perm_trans; [apply perm_skip, IH | apply perm_swap].
Qed.

Lemma insert_index_sorted (e : string * A) (l : list (string * A)) :
  StronglySorted (fun a b => index_le (fst a) (fst b)) l ->
  StronglySorted (fun a b => index_le (fst a) (fst b)) (insert_index e l).
Proof.
  induction l as [|e' l IH]; intros Hs; simpl.
  - constructor; constructor.
  - inversion Hs as [|x y Hs' Hall]; subst.
    destruct (Z.leb_spec (index_value (fst e)) (index_value (fst e'))) as [Hle | Hgt].
    + constructor; [exact Hs |]. constructor; [exact Hle |].
      eapply Forall_impl; [| exact Hall]. unfold index_le. intros; lia.
    + constructor; [now apply IH |].
      eapply Permutation_Forall; [apply Permutation_sym, insert_index_perm |].
      constructor; [unfold index_le; lia | exact Hall].
Qed.

Lemma sorted_entries (l : list (string * A)) :
  Permutation (fold_right insert_index [] l) l
  /\ StronglySorted (fun a b => index_le (fst a) (fst b))
       (fold_right insert_index [] l).
Proof.
  induction l as [|e l [IHp IHs]]; simpl.
  - split; constructor.
  - split.
    + eapply perm_trans; [apply insert_index_perm | now apply perm_skip].
    + now apply insert_index_sorted.
Qed.
End EntriesFacts.




Lemma filter_split_perm {B : Type} (p : B -> bool) (l : list B) :
  Permutation (filter p l ++ filter (fun x => negb (p x)) l) l.
Proof.
  induction l as [|x l IH]; simpl; [constructor |].
  destruct (p x); simpl.
  - now apply perm_skip.
  - eapply perm_trans; [apply Permutation_sym, Permutation_middle |].
    now apply perm_skip.
Qed.

(* ================================================================== *)
(** * Aggregation stage: one row for each key, and their order *)





(* ================================================================== *)
(** * The order of numbers *)

Lemma num_lt_asym (x y : number) : num_lt x y = true -> num_lt y x = false.
Proof.
  unfold num_lt, SFltb, SFcompare.
  destruct x as [sx | sx | | sx mx ex], y as [sy | sy | | sy my ey];
    try destruct sx; try destruct sy; try (simpl; congruence);
    order_cases; simpl; intros; subst; try congruence; try lia.
Qed.

(** On numbers other than [NaN], "not less than" is transitive. *)
Lemma num_lt_false_trans (x y z : number) :
  isNaN x = false -> isNaN y = false -> isNaN z = false ->
  num_lt x y = false -> num_lt y z = false -> num_lt x z = false.
Proof.
  unfold num_lt, SFltb, SFcompare.
  destruct x as [sx | sx | | sx mx ex], y as [sy | sy | | sy my ey],
           z as [sz | sz | | sz mz ez];
    try destruct sx; try destruct sy; try destruct sz;
    try (simpl; congruence);
    intros _ _ _; order_cases; simpl; intros; subst; try congruence; try lia.
Qed.

Lemma num_lt_irrefl (x : number) : num_lt x x = false.
Proof.
  destruct (num_lt x x) eqn:E; [| reflexivity].
  now rewrite (num_lt_asym x x E) in E.
Qed.

(** A comparator's zero is not positive. *)
Lemma zero_not_positive (c : number) :
  num_eq c (S754_zero false) = true -> num_lt (S754_zero false) c = false.
Proof.
  unfold num_eq, num_lt, SFeqb, SFltb, SFcompare.
  destruct c as [s | s | | s m e]; try destruct s; simpl; congruence.
Qed.

(* ================================================================== *)
(** * [Array.prototype.sort]: permutation, and the order of ties *)

Lemma before_split {A : Type} (x y : A) (l : list A) :
  before x y l -> comes_before x y l.
Proof.
  induction l as [|a l IH]; simpl; [tauto |].
  intros [[-> Hy] | Hb].
  - apply in_split in Hy as [l2 [l3 ->]]. now exists [], l2, l3.
  - destruct (IH Hb) as [l1 [l2 [l3 ->]]]. now exists (a :: l1), l2, l3.
Qed.

Lemma split_before {A : Type} (x y : A) (l1 l2 l3 : list A) :
  before x y (l1 ++ x :: l2 ++ y :: l3).
Proof.
  induction l1 as [|a l1 IH]; simpl.
  - left. split; [reflexivity |]. apply in_or_app. right. now left.
  - right. exact IH.
Qed.

Lemma comes_before_rev {A : Type} (x y : A) (l : list A) :
  comes_before y x l -> comes_before x y (rev l).
Proof.
  intros [l1 [l2 [l3 ->]]]. exists (rev l3), (rev l2), (rev l1).
  rewrite !rev_app_distr. simpl. rewrite !rev_app_distr. simpl.
  rewrite <- !app_assoc. reflexivity.
Qed.

Lemma comes_before_map {A B : Type} (f : A -> B) (x y : A) (l : list A) :
  comes_before x y l -> comes_before (f x) (f y) (map f l).
Proof.
  intros [l1 [l2 [l3 ->]]]. exists (map f l1), (map f l2), (map f l3).
  rewrite map_app. simpl. rewrite map_app. reflexivity.
Qed.

Lemma before_insert {A : Type} (p q x : A) (l1 l2 : list A) :
  before p q (l1 ++ l2) -> before p q (l1 ++ x :: l2).
Proof.
  induction l1 as [|a l1 IH]; simpl.
  - tauto.
  - intros [[-> Hq] | Hb]; [left | right; now apply IH].
    split; [reflexivity |]. apply in_app_or in Hq as [K | K];
      apply in_or_app; [now left | right; now right].
Qed.

Lemma before_inserted {A : Type} (p x : A) (l1 l2 : list A) :
  In p l2 -> before x p (l1 ++ x :: l2).
Proof.
  intros Hp. induction l1 as [|a l1 IH]; simpl; [left | right]; tauto.
Qed.

Lemma before_snoc {A : Type} (p q x : A) (l : list A) :
  before p q (l ++ [x]) -> before p q l \/ (In p l /\ q = x).
Proof.
  induction l as [|a l IH]; simpl; [tauto |].
  intros [[-> Hq] | Hb].
  - apply in_app_or in Hq as [K | [K | []]]; [left; left; tauto |].
    right. split; [now left | now symmetry].
  - destruct (IH Hb) as [K | [K ->]]; [left; now right |].
    right. split; [now right | reflexivity].
Qed.

Section SortFacts.
Context {A : Type}.
Variable comparefn : A -> A -> number.

(** Where the inserted element lands: after the elements it passed,
    which all sort after it. *)
Lemma insert_down_split (x : A) (acc : list A) :
  exists l1 l2,
    acc = (l1 ++ l2)%list
    /\ insert_down comparefn x acc = (l1 ++ x :: l2)%list
    /\ Forall (fun y => sorts_after comparefn y x = true) l1
    /\ match l2 with
       | [] => True
       | y :: _ => sorts_after comparefn y x = false
       end.
Proof.
  induction acc as [|y acc IH]; simpl.
  - exists [], []. repeat split; constructor.
  - destruct (sorts_after comparefn y x) eqn:E.
    + destruct IH as [l1 [l2 [E1 [E2 [H1 H2]]]]].
      exists (y :: l1), l2. simpl. rewrite E1 at 1. rewrite E2.
      repeat split; [now constructor | exact H2].
    + exists [], (y :: acc). repeat split; [constructor | exact E].
Qed.

Lemma insert_down_perm (x : A) (acc : list A) :
  Permutation (insert_down comparefn x acc) (x :: acc).
Proof.
  destruct (insert_down_split x acc) as [l1 [l2 [-> [-> _]]]].
  apply Permutation_sym, Permutation_middle.
Qed.

Lemma fold_insert_perm (l acc : list A) :
  Permutation (fold_left (fun acc x => insert_down comparefn x acc) l acc)
    (l ++ acc).
Proof.
  revert acc; induction l as [|x l IH]; intros acc; simpl; [apply Permutation_refl |].
  eapply perm_trans; [apply IH |].
  eapply perm_trans; [apply Permutation_app_head, insert_down_perm |].
  apply Permutation_sym, Permutation_middle.
Qed.

Lemma array_sort_perm (l : list A) : Permutation (array_sort comparefn l) l.
Proof.
  unfold array_sort. eapply perm_trans; [apply Permutation_sym, Permutation_rev |].
  eapply perm_trans; [apply fold_insert_perm |]. now rewrite app_nil_r.
Qed.

Lemma fold_insert_keeps_ties (rest input acc : list A) :
  (forall p, In p input -> In p acc) -> keeps_ties comparefn input acc ->
  keeps_ties comparefn (input ++ rest)
    (fold_left (fun acc x => insert_down comparefn x acc) rest acc).
Proof.
  revert input acc; induction rest as [|x rest IH]; intros input acc Hin Hk; simpl.
  - now rewrite app_nil_r.
  - replace (input ++ x :: rest)%list with ((input ++ [x]) ++ rest)%list
      by (now rewrite <- app_assoc).
    destruct (insert_down_split x acc) as [l1 [l2 [Ea [Ei [H1 _]]]]].
    apply IH.
    + intros p Hp. eapply Permutation_in;
        [apply Permutation_sym, insert_down_perm |].
      apply in_app_or in Hp as [K | [K | []]]; [right; now apply Hin | now left].
    + intros p q Hb Hs. rewrite Ei.
      apply before_snoc in Hb as [Hb | [Hp ->]].
      * apply before_insert. rewrite <- Ea. now apply Hk.
      * apply before_inserted.
        apply Hin in Hp. rewrite Ea in Hp.
        apply in_app_or in Hp as [K | K]; [| exact K].
        rewrite Forall_forall in H1. rewrite (H1 _ K) in Hs. discriminate.
Qed.

(** Stability: an element stays ahead of a later one that it does not
    sort after. *)
Lemma array_sort_keeps_ties (l : list A) (p q : A) :
  before p q l -> sorts_after comparefn p q = false ->
  comes_before p q (array_sort comparefn l).
Proof.
  intros Hb Hs. unfold array_sort. apply comes_before_rev, before_split.
  apply (fold_insert_keeps_ties l [] []).
  - intros x [].
  - intros x y [].
  - exact Hb.
  - exact Hs.
Qed.
End SortFacts.

(* ------------------------------------------------------------------ *)
(** Rows paired with their positions *)

Lemma tagged_fst {A : Type} (l : list A) (s : nat) :
  map fst (combine (seq s (List.length l)) l) = seq s (List.length l).
Proof.
  revert s; induction l as [|a l IH]; intros s; simpl; [reflexivity |].
  now rewrite IH.
Qed.

Lemma tagged_snd {A : Type} (l : list A) (s : nat) :
  map snd (combine (seq s (List.length l)) l) = l.
Proof.
  revert s; induction l as [|a l IH]; intros s; simpl; [reflexivity |].
  now rewrite IH.
Qed.

Lemma tagged_nth {A : Type} (d : A) (l : list A) (s : nat) (e : nat * A) :
  In e (combine (seq s (List.length l)) l) ->
  s <= fst e /\ nth (fst e - s) l d = snd e.
Proof.
  revert s; induction l as [|a l IH]; intros s; simpl; [tauto |].
  intros [<- | K]; simpl.
  - split; [lia |]. now rewrite Nat.sub_diag.
  - destruct (IH _ K) as [Hle Hn]. split; [lia |].
    replace (fst e - s) with (S (fst e - S s)) by lia. exact Hn.
Qed.

Lemma tagged_in {A : Type} (l : list A) (s k : nat) (b : A) :
  nth_error l k = Some b -> In (s + k, b) (combine (seq s (List.length l)) l).
Proof.
  revert s k; induction l as [|a l IH]; intros s [|k] E; simpl in *; try discriminate.
  - injection E as ->. left. f_equal. lia.
  - right. replace (s + S k) with (S s + k) by lia. now apply IH.
Qed.

Lemma tagged_before {A : Type} (l : list A) (s i j : nat) (a b : A) :
  i < j -> nth_error l i = Some a -> nth_error l j = Some b ->
  before (s + i, a) (s + j, b) (combine (seq s (List.length l)) l).
Proof.
  revert s i j; induction l as [|x l IH]; intros s i j Hij Ha Hb.
  - destruct i; discriminate.
  - destruct j as [|j]; [lia |]. simpl in Hb.
    destruct i as [|i]; simpl in Ha; simpl.
    + injection Ha as ->. left. split; [f_equal; lia |].
      replace (s + S j) with (S s + j) by lia. now apply tagged_in.
    + right. replace (s + S i) with (S s + i) by lia.
      replace (s + S j) with (S s + j) by lia. apply IH; [lia | assumption ..].
Qed.

Section TaggedSort.
Context {A : Type}.
Variable comparefn : A -> A -> number.

(** [on_rows comparefn] compares rows paired with their positions. *)
Lemma insert_down_snd (x : nat * A) (acc : list (nat * A)) :
  map snd (insert_down (on_rows comparefn) x acc) = insert_down comparefn (snd x) (map snd acc).
Proof.
  induction acc as [|y acc IH]; simpl; [reflexivity |].
  change (sorts_after (on_rows comparefn) y x)
    with (sorts_after comparefn (snd y) (snd x)).
  destruct (sorts_after comparefn (snd y) (snd x)); simpl;
    [now rewrite IH | reflexivity].
Qed.

Lemma array_sort_snd (l : list (nat * A)) :
  map snd (array_sort (on_rows comparefn) l) = array_sort comparefn (map snd l).
Proof.
  unfold array_sort. rewrite map_rev. f_equal.
  change (@nil A) with (map (@snd nat A) []).
  generalize (@nil (nat * A)) as acc.
  induction l as [|x l IH]; intros acc; simpl; [reflexivity |].
  rewrite IH, insert_down_snd. reflexivity.
Qed.

(** The sort as a rearrangement of positions: the positions of two
    elements of which the earlier does not sort after the later keep
    their order. *)
Lemma array_sort_positions (d : A) (l : list A) :
  exists order : list nat,
    Permutation order (seq 0 (List.length l))
    /\ array_sort comparefn l = map (fun i => nth i l d) order
    /\ forall i j a b,
         i < j -> nth_error l i = Some a -> nth_error l j = Some b ->
         sorts_after comparefn a b = false -> comes_before i j order.
Proof.
  set (tg := combine (seq 0 (List.length l)) l).
  exists (map fst (array_sort (on_rows comparefn) tg)).
  assert (Hp : Permutation (array_sort (on_rows comparefn) tg) tg) by apply array_sort_perm.
  repeat split.
  - rewrite <- (tagged_fst l 0). now apply Permutation_map.
  - rewrite <- (tagged_snd l 0) at 1. fold tg. rewrite <- array_sort_snd.
    rewrite map_map. apply map_ext_in. intros e He.
    destruct (tagged_nth d l 0 e (Permutation_in _ Hp He)) as [_ Hn].
    now rewrite Nat.sub_0_r in Hn.
  - intros i j a b Hij Ha Hb Hs.
    apply (comes_before_map fst (i, a) (j, b)).
    apply array_sort_keeps_ties; [| exact Hs].
    apply (tagged_before l 0 i j a b Hij Ha Hb).
Qed.
End TaggedSort.

Lemma identity_positions {A : Type} (d : A) (l : list A) :
  l = map (fun i => nth i l d) (seq 0 (List.length l))
  /\ forall i j a b,
       i < j -> nth_error l i = Some a -> nth_error l j = Some b ->
       comes_before i j (seq 0 (List.length l)).
Proof.
  split.
  - rewrite <- (tagged_fst l 0), map_map.
    rewrite <- (tagged_snd l 0) at 1. apply map_ext_in. intros e He.
    destruct (tagged_nth d l 0 e He) as [_ Hn]. now rewrite Nat.sub_0_r in Hn.
  - intros i j a b Hij Ha Hb. rewrite <- (tagged_fst l 0).
    apply (comes_before_map fst (i, a) (j, b)), before_split.
    apply (tagged_before l 0 i j a b Hij Ha Hb).
Qed.

(* ================================================================== *)
(** * Sort stage: stability *)

(** The sign of a comparator's result that is a number. *)
Lemma sign_cases (x : number) :
  isNaN x = false ->
  (num_lt x (S754_zero false) = true /\ num_eq x (S754_zero false) = false
   /\ num_lt (S754_zero false) x = false)
  \/ (num_lt x (S754_zero false) = false /\ num_eq x (S754_zero false) = true
      /\ num_lt (S754_zero false) x = false)
  \/ (num_lt x (S754_zero false) = false /\ num_eq x (S754_zero false) = false
      /\ num_lt (S754_zero false) x = true).
Proof.
  destruct x as [s | s | | s m e]; try destruct s; intros E;
    try discriminate E; vm_compute; tauto.
Qed.

Section ConsistentComparator.
Context {A : Type}.
Variable comparefn : A -> A -> number.
Variable l : list A.
Hypothesis Hcons : consistent_comparator comparefn l = true.

Lemma consistent_at_all (a b c : A) :
  In a l -> In b l -> In c l -> consistent_at comparefn a b c = true.
Proof.
  intros Ha Hb Hc. unfold consistent_comparator in Hcons.
  rewrite forallb_forall in Hcons. specialize (Hcons a Ha).
  rewrite forallb_forall in Hcons. specialize (Hcons b Hb).
  rewrite forallb_forall in Hcons. exact (Hcons c Hc).
Qed.

Lemma consistent_facts (a b c : A) :
  In a l -> In b l -> In c l ->
  isNaN (comparefn a b) = false
  /\ compares_equal comparefn a a
  /\ (compares_equal comparefn a b -> compares_equal comparefn b a)
  /\ (compares_equal comparefn a b -> compares_equal comparefn b c ->
      compares_equal comparefn a c)
  /\ (compares_less comparefn a b -> compares_less comparefn b c ->
      compares_less comparefn a c)
  /\ (compares_greater comparefn a b -> compares_greater comparefn b c ->
      compares_greater comparefn a c).
Proof.
  intros Ha Hb Hc. pose proof (consistent_at_all a b c Ha Hb Hc) as E.
  unfold consistent_at in E.
  repeat (apply andb_prop in E as [E ?]).
  apply negb_true_iff in E.
  unfold compares_less, compares_equal, compares_greater.
  repeat split; try assumption.
  - intros K. now rewrite K in *.
  - intros K1 K2. now rewrite K1, K2 in *.
  - intros K1 K2. now rewrite K1, K2 in *.
  - intros K1 K2. now rewrite K1, K2 in *.
Qed.

Lemma consistent_sign (a b : A) :
  In a l -> In b l ->
  (compares_less comparefn a b /\ ~ compares_equal comparefn a b
   /\ ~ compares_greater comparefn a b)
  \/ (~ compares_less comparefn a b /\ compares_equal comparefn a b
      /\ ~ compares_greater comparefn a b)
  \/ (~ compares_less comparefn a b /\ ~ compares_equal comparefn a b
      /\ compares_greater comparefn a b).
Proof.
  intros Ha Hb. destruct (consistent_facts a b a Ha Hb Ha) as [Hn _].
  unfold compares_less, compares_equal, compares_greater.
  destruct (sign_cases _ Hn) as [[-> [-> ->]] | [[-> [-> ->]] | [-> [-> ->]]]];
    [left | right; left | right; right]; repeat split; discriminate.
Qed.

Lemma greater_less (a b : A) :
  In a l -> In b l ->
  compares_greater comparefn a b -> compares_less comparefn b a.
Proof.
  intros Ha Hb Hg.
  destruct (consistent_facts a b a Ha Hb Ha) as [_ [Haa [_ [_ [_ Hgt]]]]].
  destruct (consistent_facts b a b Hb Ha Hb) as [_ [_ [Hsym _]]].
  destruct (consistent_sign a a Ha Ha) as [[_ [K _]] | [[_ [_ Kg]] | [_ [K _]]]];
    try (now elim K).
  destruct (consistent_sign a b Ha Hb) as [[_ [_ K]] | [[_ [_ K]] | [_ [Kab _]]]];
    try (now elim K).
  destruct (consistent_sign b a Hb Ha) as [[K _] | [[_ [K _]] | [_ [_ K]]]].
  - exact K.
  - elim Kab. destruct (consistent_facts b a b Hb Ha Hb) as [_ [_ [S _]]].
    now apply S.
  - elim Kg. now apply Hgt.
Qed.

(** A consistent comparator orders the elements consistently. *)
Lemma consistent_comparator_on : consistent_on comparefn l.
Proof.
  split.
  - intros a b Ha Hb Hab.
    destruct (sorts_after comparefn b a) eqn:Hba; [| reflexivity].
    destruct (consistent_facts a b a Ha Hb Ha) as [_ [_ [_ [_ [_ Hgt]]]]].
    destruct (consistent_sign a a Ha Ha) as [[_ [K _]] | [[_ [_ K]] | [_ [K _]]]];
      destruct (consistent_facts a a a Ha Ha Ha) as [_ [Haa _]];
      try (now elim K).
    elim K. now apply Hgt.
  - intros a b c Ha Hb Hc Hab Hbc.
    destruct (sorts_after comparefn a c) eqn:Hac; [| reflexivity]. exfalso.
    assert (Hca : compares_less comparefn c a) by (now apply greater_less).
    destruct (consistent_facts c a b Hc Ha Hb) as [_ [_ [_ [_ [Lcab _]]]]].
    destruct (consistent_facts b c a Hb Hc Ha) as [_ [_ [Sbc [_ [Lbca _]]]]].
    destruct (consistent_facts a b c Ha Hb Hc) as [_ [_ [Sab [Eabc [Labc _]]]]].
    destruct (consistent_sign a c Ha Hc) as [[_ [_ K]] | [[_ [_ K]] | [Nl [Ne _]]]];
      try (now elim K).
    destruct (consistent_sign a b Ha Hb) as [[Lab _] | [[_ [Eab _]] | [_ [_ K]]]];
      [| | unfold compares_greater in K; unfold sorts_after in Hab; congruence];
      (destruct (consistent_sign b c Hb Hc) as [[Lbc _] | [[_ [Ebc _]] | [_ [_ K]]]];
       [| | unfold compares_greater in K; unfold sorts_after in Hbc; congruence]).
    + apply Nl. now apply Labc.
    + assert (Lcb : compares_less comparefn c b) by (now apply Lcab).
      destruct (consistent_sign c b Hc Hb) as [[_ [K _]] | [[K _] | [K _]]];
        try (now elim K). elim K. now apply Sbc.
    + assert (Lba : compares_less comparefn b a) by (now apply Lbca).
      destruct (consistent_sign b a Hb Ha) as [[_ [K _]] | [[K _] | [K _]]];
        try (now elim K). elim K. now apply Sab.
    + apply Ne. now apply Eabc.
Qed.
End ConsistentComparator.

(** For a consistent comparator the sort stage gives the order of the
    stable sort. *)
Lemma sortStage_consistent (H : host) (sortConfig : list SortConfig)
  (data : list DataRow) :
  consistent_comparator (compareRows H sortConfig) data = true ->
  sortStage H sortConfig data = Some (applySort H sortConfig data).
Proof.
  intros Hc. unfold sortStage, applySort, Array_sort.
  destruct sortConfig; [reflexivity | now rewrite Hc].
Qed.

Lemma applySort_positions (H : host) (sortConfig : list SortConfig)
  (data : list DataRow) :
  exists order : list nat,
    Permutation order (seq 0 (List.length data))
    /\ applySort H sortConfig data = map (fun i => nth i data []) order
    /\ forall i j a b,
         i < j -> nth_error data i = Some a -> nth_error data j = Some b ->
         num_eq (compareRows H sortConfig a b) (S754_zero false) = true ->
         comes_before i j order.
Proof.
  destruct sortConfig as [|sort rest].
  - exists (seq 0 (List.length data)).
    destruct (identity_positions [] data) as [Hid Hord].
    repeat split; [apply Permutation_refl | exact Hid |].
    intros i j a b Hij Ha Hb _. exact (Hord i j a b Hij Ha Hb).
  - destruct (array_sort_positions (compareRows H (sort :: rest)) [] data)
      as [order [Hp [Hs Hord]]].
    exists order. repeat split; [exact Hp | exact Hs |].
    intros i j a b Hij Ha Hb Hz.
    apply (Hord i j a b Hij Ha Hb). unfold sorts_after.
    now apply zero_not_positive.
Qed.

(** C8, as amended. Where the composite comparator is a consistent
    comparator for the rows (it never returns [NaN], comparing as equal is
    reflexive, symmetric and transitive on them, comparing as less and
    comparing as greater are transitive), the sort stage rearranges the
    rows by positions in such a way that two rows on which the comparator
    returns zero (they tie on every sort key) keep their input order; with
    no sort key the rows are not reordered at all.  For other rows the
    language leaves the order to the engine. *)
Theorem sort_keeps_ties_in_input_order (H : host) :
  (forall sortConfig data,
      consistent_comparator (compareRows H sortConfig) data = true ->
      exists order : list nat,
        Permutation order (seq 0 (List.length data))
        /\ sortStage H sortConfig data = Some (map (fun i => nth i data []) order)
        /\ forall i j a b,
             i < j -> nth_error data i = Some a -> nth_error data j = Some b ->
             num_eq (compareRows H sortConfig a b) (S754_zero false) = true ->
             comes_before i j order)
  /\ (forall data, sortStage H [] data = Some data).
Proof.
  split; [| reflexivity].
  intros sortConfig data Hc. rewrite (sortStage_consistent H sortConfig data Hc).
  destruct (applySort_positions H sortConfig data) as [order [Hp [Hs Hord]]].
  exists order. rewrite Hs. repeat split; assumption.
Qed.

(** Sorted by [k], the third of the rows [k = 1, 0, 1] stays behind the
    first. *)
Lemma sort_keeps_ties_witness :
  exists order : list nat,
    Permutation order (seq 0 3)
    /\ sortStage reference_host sort_by_k rows_k101
       = Some (map (fun i => nth i rows_k101 []) order)
    /\ comes_before 0 2 order.
Proof.
  destruct (proj1 (sort_keeps_ties_in_input_order reference_host) sort_by_k
              rows_k101 eq_refl)
    as [order [Hp [Hs Hord]]].
  exists order. split; [exact Hp |]. split; [exact Hs |].
  apply (Hord 0 2 (nth 0 rows_k101 []) (nth 2 rows_k101 []));
    [lia | reflexivity | reflexivity | vm_compute; reflexivity].
Defined.

(** C8 as stated fails on the rows [a = 10, 2, '10'] sorted by [a]: the
    first row and the third tie, the first sorts after the second and the
    second after the third.  The comparator is not consistent, so that
    the language fixes no order; the one order in which no row sorts after
    a later one is third, second, first (the order that an engine arrives
    at which finds the rows in descending order and reverses them), and it
    is an order the language allows: the rows that tie have changed
    places. *)
Lemma sort_keeps_ties_counterexample :
  num_eq (compareRows reference_host sort_by_a
            (nth 0 rows_mixed []) (nth 2 rows_mixed []))
    (S754_zero false) = true
  /\ consistent_comparator (compareRows reference_host sort_by_a) rows_mixed
     = false
  /\ sortStage reference_host sort_by_a rows_mixed = None
  /\ sort_result (compareRows reference_host sort_by_a) rows_mixed
       (rev rows_mixed)
  /\ (forall out,
         Permutation out rows_mixed ->
         StronglySorted
           (fun a b => sorts_after (compareRows reference_host sort_by_a) a b
                       = false) out ->
         out = rev rows_mixed)
  /\ StronglySorted
       (fun a b => sorts_after (compareRows reference_host sort_by_a) a b = false)
       (rev rows_mixed)
  /\ comes_before (nth 2 rows_mixed []) (nth 0 rows_mixed []) (rev rows_mixed).
Proof.
  split; [vm_compute; reflexivity |].
  split; [vm_compute; reflexivity |].
  split; [vm_compute; reflexivity |].
  split.
  { split; [apply Permutation_sym, Permutation_rev |].
    intros fixed E. vm_compute in E. discriminate E. }
  split.
  { intros out Hp Hs.
    pose proof (Permutation_length Hp) as Hl.
    assert (H0 : In (nth 0 rows_mixed []) out)
      by (apply (Permutation_in _ (Permutation_sym Hp)); simpl; auto).
    assert (H1 : In (nth 1 rows_mixed []) out)
      by (apply (Permutation_in _ (Permutation_sym Hp)); simpl; auto).
    assert (H2 : In (nth 2 rows_mixed []) out)
      by (apply (Permutation_in _ (Permutation_sym Hp)); simpl; auto).
    destruct out as [|x [|y [|z [|w out]]]]; try discriminate Hl.
    inversion Hs as [|? ? Hs' Hx]; subst.
    inversion Hs' as [|? ? _ Hy]; subst.
    inversion Hx as [|? ? Hxy Hx']; subst.
    inversion Hx' as [|? ? Hxz _]; subst.
    inversion Hy as [|? ? Hyz _]; subst.
    destruct H0 as [E0 | [E0 | [E0 | []]]];
      destruct H1 as [E1 | [E1 | [E1 | []]]];
      destruct H2 as [E2 | [E2 | [E2 | []]]];
      subst;
      try (vm_compute in E1; discriminate E1);
      try (vm_compute in E2; discriminate E2);
      try (vm_compute in Hxy; discriminate Hxy);
      try (vm_compute in Hxz; discriminate Hxz);
      try (vm_compute in Hyz; discriminate Hyz);
      reflexivity. }
  split.
  { repeat constructor. }
  exists [], [nth 1 rows_mixed []], []. reflexivity.
Qed.

(* ================================================================== *)
(** * lodash reductions: sorted values and extrema *)

Lemma StronglySorted_app_inv {A : Type} (R : A -> A -> Prop) (l1 l2 : list A) :
  StronglySorted R (l1 ++ l2) ->
  StronglySorted R l1 /\ StronglySorted R l2
  /\ forall a b, In a l1 -> In b l2 -> R a b.
Proof.
  induction l1 as [|x l1 IH]; simpl; intros Hs.
  - repeat split; [constructor | exact Hs | intros a b []].
  - inversion Hs as [|y l Hs' Hall]; subst.
    destruct (IH Hs') as [H1 [H2 H3]].
    rewrite Forall_app in Hall. destruct Hall as [Ha1 Ha2].
    repeat split; [now constructor | exact H2 |].
    intros a b [<- | Ha] Hb; [| now apply H3].
    rewrite Forall_forall in Ha2. now apply Ha2.
Qed.

Lemma StronglySorted_app {A : Type} (R : A -> A -> Prop) (l1 l2 : list A) :
  StronglySorted R l1 -> StronglySorted R l2 ->
  (forall a b, In a l1 -> In b l2 -> R a b) ->
  StronglySorted R (l1 ++ l2).
Proof.
  induction l1 as [|x l1 IH]; simpl; intros H1 H2 H3; [exact H2 |].
  inversion H1 as [|y l H1' Hall]; subst.
  constructor.
  - apply IH; [exact H1' | exact H2 | intros; apply H3; auto].
  - rewrite Forall_app. split; [exact Hall |].
    apply Forall_forall. intros b Hb. apply H3; [now left | exact Hb].
Qed.

Lemma StronglySorted_rev {A : Type} (R : A -> A -> Prop) (l : list A) :
  StronglySorted R l -> StronglySorted (fun a b => R b a) (rev l).
Proof.
  induction 1 as [|x l Hs IH Hall]; simpl; [constructor |].
  apply StronglySorted_app; [exact IH | repeat constructor |].
  intros a b Ha [<- | []]. rewrite Forall_forall in Hall.
  apply Hall. now apply in_rev.
Qed.

Lemma sorts_after_ascending (y x : number) :
  sorts_after compareAscending y x = num_lt x y.
Proof.
  unfold sorts_after, compareAscending.
  destruct (num_lt x y); [reflexivity |].
  destruct (num_lt y x); reflexivity.
Qed.

(** Inserting a number keeps the sorted part in descending order. *)
Lemma insert_down_descending (x : number) (acc : list number) :
  isNaN x = false -> Forall (fun v => isNaN v = false) acc ->
  StronglySorted (fun a b => num_lt a b = false) acc ->
  StronglySorted (fun a b => num_lt a b = false)
    (insert_down compareAscending x acc).
Proof.
  intros Hx Hnn Hs.
  destruct (insert_down_split compareAscending x acc) as [l1 [l2 [Ea [-> [H1 H2]]]]].
  subst acc. destruct (StronglySorted_app_inv _ _ _ Hs) as [Hs1 [Hs2 Hc]].
  rewrite Forall_app in Hnn. destruct Hnn as [_ Hnn2].
  rewrite Forall_forall in H1.
  apply StronglySorted_app; [exact Hs1 | |].
  - constructor; [exact Hs2 |].
    destruct l2 as [|y l2]; [constructor |].
    rewrite sorts_after_ascending in H2.
    inversion Hs2 as [|y' l Hs2' Hall]; subst.
    inversion Hnn2 as [|y' l Hy Hnn2']; subst.
    constructor; [exact H2 |].
    rewrite Forall_forall in *. intros z Hz.
    apply (num_lt_false_trans x y z); auto.
  - intros a b Ha [<- | Hb]; [| now apply Hc].
    apply num_lt_asym. rewrite <- sorts_after_ascending. now apply H1.
Qed.

(** [_.sortBy] on numbers other than [NaN]: a permutation in ascending
    order. *)
Lemma lodash_sortBy_sorted (values : list number) :
  Forall (fun v => isNaN v = false) values ->
  Permutation (lodash_sortBy values) values /\ ascending (lodash_sortBy values).
Proof.
  intros Hnn. split; [apply array_sort_perm |].
  unfold ascending, lodash_sortBy, array_sort.
  apply (StronglySorted_rev (fun a b => num_lt a b = false)).
  assert (Hgen : forall l acc,
             Forall (fun v => isNaN v = false) l ->
             Forall (fun v => isNaN v = false) acc ->
             StronglySorted (fun a b => num_lt a b = false) acc ->
             StronglySorted (fun a b => num_lt a b = false)
               (fold_left (fun acc x => insert_down compareAscending x acc) l acc)).
  { induction l as [|x l IH]; intros acc Hl Hacc Hs; simpl; [exact Hs |].
    inversion Hl as [|x' l' Hx Hl']; subst.
    apply IH; [exact Hl' | | now apply insert_down_descending].
    eapply Permutation_Forall; [apply Permutation_sym, insert_down_perm |].
    now constructor. }
  apply Hgen; [exact Hnn | constructor | constructor].
Qed.

(** [baseExtremum]: on numbers other than [NaN], an element that no
    element beats. *)
Lemma extremum_spec (beats : number -> number -> bool) (values : list number) :
  (forall a b, beats a b = true -> beats b a = false) ->
  (forall a b c, isNaN a = false -> isNaN b = false -> isNaN c = false ->
                 beats a b = false -> beats b c = false -> beats a c = false) ->
  Forall (fun v => isNaN v = false) values -> values <> [] ->
  exists m, extremum beats values = Some m /\ In m values
            /\ Forall (fun v => beats v m = false) values.
Proof.
  intros Hasym Htrans Hnn Hne. unfold extremum.
  destruct values as [|v0 rest]; [congruence |].
  inversion Hnn as [|v l Hv0 Hrest]; subst.
  simpl. rewrite Hv0.
  assert (Hirr : forall a, beats a a = false).
  { intros a. destruct (beats a a) eqn:E; [| reflexivity].
    now rewrite (Hasym a a E) in E. }
  assert (Hgen : forall l seen b,
             Forall (fun v => isNaN v = false) l ->
             Forall (fun v => isNaN v = false) seen ->
             In b seen -> Forall (fun v => beats v b = false) seen ->
             exists m,
               fold_left (fun best v =>
                            match best with
                            | None => if isNaN v then None else Some v
                            | Some b => if beats v b then Some v else best
                            end) l (Some b) = Some m
               /\ In m (seen ++ l) /\ Forall (fun v => beats v m = false) (seen ++ l)).
  { induction l as [|x l IH]; intros seen b Hl Hseen Hb Hall; simpl.
    - exists b. rewrite app_nil_r. auto.
    - inversion Hl as [|x' l' Hx Hl']; subst.
      assert (Hbn : isNaN b = false)
        by (rewrite Forall_forall in Hseen; now apply Hseen).
      replace (seen ++ x :: l)%list with ((seen ++ [x]) ++ l)%list
        by (now rewrite <- app_assoc).
      destruct (beats x b) eqn:E.
      + apply IH; [exact Hl' | | |].
        * rewrite Forall_app. split; [exact Hseen | now constructor].
        * apply in_or_app. right. now left.
        * rewrite Forall_app. split; [| constructor; [apply Hirr | constructor]].
          rewrite Forall_forall in *. intros u Hu.
          apply (Htrans u b x); auto.
      + apply IH; [exact Hl' | | |].
        * rewrite Forall_app. split; [exact Hseen | now constructor].
        * apply in_or_app. now left.
        * rewrite Forall_app. split; [exact Hall | now repeat constructor]. }
  destruct (Hgen rest [v0] v0 Hrest) as [m Hm].
  - now constructor.
  - now left.
  - constructor; [apply Hirr | constructor].
  - exists m. exact Hm.
Qed.

Lemma numeric_values_not_NaN (col : string) (rows : list DataRow) :
  Forall (fun v => isNaN v = false) (numeric_values col rows).
Proof.
  apply Forall_forall. intros v Hv. unfold numeric_values in Hv.
  apply filter_In in Hv as [_ Hv]. now apply negb_true_iff in Hv.
Qed.

(* ================================================================== *)
(** * Aggregation stage: the reductions *)

(** C4. For the rows of a group and the numbers [values] their column
    converts to: [sum] is the values added from left to right (0 for no
    value), [mean] that sum divided by their number, [median] the element
    at index [n / 2] of the values in ascending order, [min] and [max] a
    value that none is less, respectively greater, than, and [count] the
    number of rows.  For the values 2, 4, 6: 12, 4, 4, 2, 6 and 3; the
    count is 3 as well when one of three values is no number. *)
Theorem aggregation_reductions :
  (forall (col key : string) (rows : list DataRow),
      let values := numeric_values col rows in
      value_of col "sum" key rows
      = VNum (match values with
              | [] => S754_zero false
              | v :: rest => fold_left num_add rest v
              end)
      /\ (values <> [] ->
          value_of col "mean" key rows
          = VNum (num_div (match values with
                           | [] => S754_zero false
                           | v :: rest => fold_left num_add rest v
                           end)
                    (num_of_nat (List.length values))))
      /\ (exists sorted,
             Permutation sorted values /\ ascending sorted
             /\ value_of col "median" key rows
                = opt_num (nth_error sorted (List.length values / 2)))
      /\ (values <> [] ->
          exists m, value_of col "min" key rows = VNum m /\ In m values
                    /\ Forall (fun v => num_lt v m = false) values)
      /\ (values <> [] ->
          exists m, value_of col "max" key rows = VNum m /\ In m values
                    /\ Forall (fun v => num_lt m v = false) values)
      /\ value_of col "count" key rows = VNum (num_of_nat (List.length rows)))
  /\ map (fun op => value_of "x" op "k" rows_x246)
       ["sum"; "mean"; "median"; "min"; "max"; "count"]
     = map (fun z => VNum (num_of_Z z)) [12; 4; 4; 2; 6; 3]%Z
  /\ numeric_values "x" rows_x2_6 = [num_of_Z 2; num_of_Z 6]
  /\ value_of "x" "count" "k" rows_x2_6 = VNum (num_of_Z 3).
Proof.
  split; [| repeat split; vm_compute; reflexivity].
  intros col key rows values.
  assert (Hnn : Forall (fun v => isNaN v = false) values)
    by apply numeric_values_not_NaN.
  repeat split.
  - reduce_value; rewrite row_get_set_same. reflexivity.
  - intros Hne. reduce_value; rewrite row_get_set_same. fold values. unfold lodash_mean, lodash_sum.
    destruct values; [congruence | reflexivity].
  - exists (lodash_sortBy values).
    destruct (lodash_sortBy_sorted values Hnn) as [Hp Hs].
    repeat split; [exact Hp | exact Hs |]. reduce_value; rewrite row_get_set_same. reflexivity.
  - intros Hne.
    destruct (extremum_spec num_lt values num_lt_asym num_lt_false_trans Hnn Hne)
      as [m [Em [Hin Hall]]].
    exists m. repeat split; [| exact Hin | exact Hall].
    reduce_value; rewrite row_get_set_same. fold values. unfold lodash_min. now rewrite Em.
  - intros Hne.
    destruct (extremum_spec (fun v b => num_lt b v) values) as [m [Em [Hin Hall]]].
    + intros a b. apply num_lt_asym.
    + intros a b c Ha Hb Hc H1 H2. apply (num_lt_false_trans c b a); assumption.
    + exact Hnn.
    + exact Hne.
    + exists m. repeat split; [| exact Hin | exact Hall].
      reduce_value; rewrite row_get_set_same. fold values. unfold lodash_max. now rewrite Em.
  - reduce_value; rewrite row_get_set_same. reflexivity.
Qed.

(** On the values 2, 4, 6 the minimum is an element that none is less
    than. *)
Lemma aggregation_reductions_witness :
  exists m, value_of "x" "min" "k" rows_x246 = VNum m
            /\ In m (numeric_values "x" rows_x246)
            /\ Forall (fun v => num_lt v m = false) (numeric_values "x" rows_x246).
Proof.
  apply (proj1 (proj2 (proj2 (proj2
           (proj1 aggregation_reductions "x" "k" rows_x246))))).
  discriminate.
Defined.

(* ================================================================== *)
(** * Formula stage: names, and what failures do *)

Lemma name_char_facts (c : ascii) :
  is_name_char c = true ->
  is_space c = false /\ is_digit c = false /\ (code c =? 46)%nat = false
  /\ is_quote c = false /\ is_id_start c = true /\ is_id_char c = true
  /\ (code c =? 40)%nat = false.
Proof.
  destruct c as [[] [] [] [] [] [] [] []]; vm_compute; intros E;
    try discriminate E; repeat split.
Qed.

Lemma all_chars_impl (p q : ascii -> bool) (s : string) :
  (forall c, p c = true -> q c = true) ->
  all_chars p s = true -> all_chars q s = true.
Proof.
  intros Hpq. induction s as [|c s IH]; [reflexivity |].
  rewrite !all_chars_cons. intros E. apply andb_prop in E as [Hc Hs].
  now rewrite (Hpq c Hc), (IH Hs).
Qed.

Lemma all_chars_tail (p : ascii -> bool) (c : ascii) (t : string) :
  all_chars p (String c t) = true -> all_chars p t = true.
Proof. rewrite all_chars_cons. intros E. now apply andb_prop in E. Qed.


Lemma name_no_call (x : string) :
  all_chars is_name_char x = true -> no_call x = true.
Proof.
  apply all_chars_impl. intros c Hc.
  destruct (name_char_facts c Hc) as [_ [_ [_ [_ [_ [_ K]]]]]]. now rewrite K.
Qed.

(** Lowering a character makes no parenthesis of it. *)
Lemma lower_char_paren (c : ascii) :
  Ascii.eqb "("%char (lower_char c) = true -> (code c =? 40)%nat = true.
Proof.
  destruct c as [[] [] [] [] [] [] [] []]; vm_compute; intros E;
    solve [discriminate E | reflexivity].
Qed.

(** A prefix that holds a parenthesis is found in no text without one. *)
Lemma prefix_ci_no_call (p s : string) :
  no_call p = false -> no_call s = true -> strip_prefix_ci p s = None.
Proof.
  unfold no_call. revert s; induction p as [|a p IH]; intros [|b s];
    simpl; try reflexivity; try discriminate.
  rewrite !all_chars_cons. intros Hp Hs. apply andb_prop in Hs as [Hb Hs].
  destruct (Ascii.eqb (lower_char a) (lower_char b)) eqn:Eab; [| reflexivity].
  destruct (code b <? 128)%nat; [| reflexivity]. simpl.
  apply IH; [| exact Hs].
  destruct (code a =? 40)%nat eqn:Ea; [| exact Hp].
  exfalso. apply Nat.eqb_eq in Ea.
  assert (a = "("%char).
  { rewrite <- (ascii_nat_embedding a). unfold code in Ea. now rewrite Ea. }
  subst a. apply lower_char_paren in Eab. now rewrite Eab in Hb.
Qed.

Lemma prefix_no_call (p s : string) :
  no_call p = false -> no_call s = true -> strip_prefix p s = None.
Proof.
  unfold no_call. revert s; induction p as [|a p IH]; intros [|b s];
    simpl; try reflexivity; try discriminate.
  rewrite !all_chars_cons. intros Hp Hs. apply andb_prop in Hs as [Hb Hs].
  destruct (Ascii.eqb_spec a b) as [-> | _]; [| reflexivity].
  apply IH; [| exact Hs]. now rewrite Hb in Hp.
Qed.

(** A text without a parenthesis is left as it is by the five
    rewritings. *)
Lemma rewrite_formula_plain (H : host) (data : list DataRow) (idx : nat)
  (row : DataRow) (text : string) :
  no_call text = true -> rewrite_formula H data idx row text = Some text.
Proof.
  intros Hx. unfold rewrite_formula.
  set (P := fun s => no_call s = true).
  assert (Htail : forall c t, P (String c t) -> P t)
    by (intros c t; apply all_chars_tail).
  assert (Hcall : forall name cb,
             no_call (name ++ "(") = false ->
             replace_all (match_call name) cb text 0 = text).
  { intros name cb Hn. apply (replace_all_none _ _ P Htail); [| exact Hx].
    intros s Hs. unfold match_call. now rewrite (prefix_ci_no_call _ _ Hn Hs). }
  rewrite (Hcall "SUM") by reflexivity.
  rewrite (Hcall "AVG") by reflexivity.
  rewrite (Hcall "LEN") by reflexivity.
  rewrite (replace_all_opt_none _ _ P Htail) with (s := text); [| | exact Hx].
  - rewrite (replace_all_none _ _ P Htail); [reflexivity | | exact Hx].
    intros s Hs. unfold match_row.
    now rewrite (prefix_no_call "ROW()" s eq_refl Hs).
  - intros s Hs. unfold if_pattern, match_if.
    now rewrite (prefix_ci_no_call "IF(" s eq_refl Hs).
Qed.

(** A formula that is one name is left as it is by the five rewritings. *)
Lemma rewrite_formula_name (H : host) (data : list DataRow) (idx : nat)
  (row : DataRow) (x : string) :
  all_chars is_name_char x = true -> rewrite_formula H data idx row x = Some x.
Proof. intros Hx. now apply rewrite_formula_plain, name_no_call. Qed.

(* ------------------------------------------------------------------ *)
(** The names of a text and the values put for them *)

Lemma substring_prefix (a b : string) :
  substring 0 (String.length a) (a ++ b) = a.
Proof. induction a as [|c a IH]; simpl; [now destruct b | now rewrite IH]. Qed.

Lemma replace_all_passed {C : Type} (pattern : string -> option (C * nat))
  (cb : string -> C -> string) (a b : string) :
  replace_all pattern cb (a ++ b) (String.length a) = replace_all pattern cb b 0.
Proof.
  induction a as [|c a IH]; [reflexivity |].
  destruct b; simpl; exact IH.
Qed.

Lemma span_name (p : ascii -> bool) (x r : string) :
  all_chars p x = true ->
  match r with EmptyString => True | String c _ => p c = false end ->
  span p (x ++ r) = (x, r).
Proof.
  intros Hx Hr. destruct r as [|c t].
  - rewrite append_empty_r. now apply span_whole.
  - now apply span_run.
Qed.

Lemma id_char_name_char (c : ascii) : is_id_char c = false -> is_name_char c = false.
Proof.
  unfold is_id_char, is_id_start. destruct (is_name_char c); [discriminate | reflexivity].
Qed.

(** A name of the text is replaced by what the callback makes of it. *)
Lemma replace_name (row : DataRow) (x r : string) :
  x <> "" -> all_chars is_name_char x = true -> ends_name r ->
  evalStr_of row (x ++ r) = name_term row x ++ evalStr_of row r.
Proof.
  intros Hne Hx Hr. unfold evalStr_of.
  assert (Hm : match_name (x ++ r) = Some (x, String.length x)).
  { unfold match_name. rewrite (span_name is_name_char x r Hx).
    - destruct x; [congruence | reflexivity].
    - destruct r as [|d r]; [exact I |]. now apply id_char_name_char. }
  destruct x as [|c t]; [congruence |].
  change (String c t ++ r) with (String c (t ++ r)) in *. cbn [replace_all].
  rewrite Hm. cbv iota beta.
  replace (String.length (String c t) - 1) with (String.length t)
    by (simpl; lia).
  now rewrite replace_all_passed.
Qed.


(** The text of a cell is put for a formula that is its name. *)
Lemma evalStr_of_cell (row : DataRow) (x : string) :
  x <> "" -> all_chars is_name_char x = true ->
  evalStr_of row x = name_term row x.
Proof.
  intros Hne Hx. rewrite <- (append_empty_r x) at 1.
  rewrite (replace_name row x "" Hne Hx I). apply append_empty_r.
Qed.


(* ------------------------------------------------------------------ *)
(** The tokens of names, whole numbers and operators *)















(* ------------------------------------------------------------------ *)
(** Their expression *)




















Lemma map_rows_nth (f : nat -> DataRow -> option DataRow) (rows out : list DataRow)
  (s : nat) :
  map_rows f s rows = Some out ->
  List.length out = List.length rows
  /\ forall i row, nth_error rows i = Some row -> nth_error out i = f (s + i) row.
Proof.
  revert s out; induction rows as [|r rows IH]; intros s out E; simpl in E.
  - injection E as <-. split; [reflexivity |]. intros [|i] row K; discriminate.
  - destruct (f s r) as [r' |] eqn:Er; [| discriminate].
    destruct (map_rows f (S s) rows) as [rs |] eqn:Ers; [| discriminate].
    injection E as <-. destruct (IH _ _ Ers) as [Hlen Hnth].
    split; [simpl; now rewrite Hlen |].
    intros [|i] row K; simpl in *.
    + injection K as <-. now rewrite Nat.add_0_r.
    + rewrite (Hnth i row K). f_equal. lia.
Qed.



Lemma formula_row_shape (H : host) (columns : list string)
  (formula : FormulaConfig) (data : list DataRow) (idx : nat) (row r' : DataRow) :
  formula_row H columns formula data idx row = Some r' ->
  exists v, r' = row_set row (formula_name formula) v.
Proof.
  unfold formula_row.
  destruct (rewrite_formula H data idx row (formula_text formula)); [| discriminate].
  destruct (columns_compile H columns).
  - destruct (js_eval _ _) as [v | |]; intros E; try discriminate;
      injection E as <-; eauto.
  - intros E. injection E as <-. eauto.
Qed.

(* ------------------------------------------------------------------ *)
(** Texts that are no expression *)













(* ================================================================== *)
(** * Filter stage: how filters combine *)

Lemma filter_twice {A : Type} (p q : A -> bool) (l : list A) :
  filter q (filter p l) = filter (fun x => p x && q x) l.
Proof.
  induction l as [|x l IH]; simpl; [reflexivity |].
  destruct (p x); simpl; [destruct (q x) |]; now rewrite IH.
Qed.

Lemma applyFilters_passes_all (fs : list FilterConfig) (data : list DataRow) :
  applyFilters fs data = filter (passes_all fs) data.
Proof.
  revert data. induction fs as [|f fs IH]; intros data.
  - simpl. induction data as [|x data IHd]; simpl; [reflexivity | now rewrite <- IHd].
  - unfold applyFilters in *. simpl. rewrite IH, filter_twice. reflexivity.
Qed.

Lemma passes_all_perm (fs fs' : list FilterConfig) (row : DataRow) :
  Permutation fs fs' -> passes_all fs row = passes_all fs' row.
Proof.
  unfold passes_all. induction 1; simpl.
  - reflexivity.
  - now rewrite IHPermutation.
  - destruct (filter_row x row), (filter_row y row); reflexivity.
  - congruence.
Qed.

(** X1. The filter stage keeps, in input order, exactly the rows that
    pass every filter.  So the order in which the filters are listed does
    not change the result, and filtering the result again with the same
    filters changes nothing. *)
Theorem filters_combine_by_conjunction :
  (forall fs data, applyFilters fs data = filter (passes_all fs) data)
  /\ (forall fs fs' data,
         Permutation fs fs' -> applyFilters fs data = applyFilters fs' data)
  /\ (forall fs data, applyFilters fs (applyFilters fs data) = applyFilters fs data).
Proof.
  split; [exact applyFilters_passes_all | split].
  - intros fs fs' data Hp. rewrite !applyFilters_passes_all.
    apply filter_ext. intros row. now apply passes_all_perm.
  - intros fs data. rewrite !applyFilters_passes_all, filter_twice.
    apply filter_ext. intros row. now destruct (passes_all fs row).
Qed.

Lemma filters_combine_by_conjunction_witness :
  applyFilters [filter_on "b" "contains" "x"; filter_on "a" "isEmpty" ""] rows_ab
  = applyFilters [filter_on "a" "isEmpty" ""; filter_on "b" "contains" "x"] rows_ab.
Proof.
  apply (proj1 (proj2 filters_combine_by_conjunction)). apply perm_swap.
Defined.

(** X2. The operator [isEmpty] keeps a row exactly when its cell is falsy
    ([undefined], [null], the empty string, but also the number 0, [NaN] and
    [false]), and [isNotEmpty] keeps exactly the other rows. *)
Theorem emptiness_filters_test_truthiness (f g : FilterConfig) (row : DataRow) :
  filter_operator f = "isEmpty" -> filter_operator g = "isNotEmpty" ->
  filter_column g = filter_column f ->
  filter_row f row = negb (truthy (row_get row (filter_column f)))
  /\ filter_row g row = truthy (row_get row (filter_column f)).
Proof.
  intros Hf Hg Hc. unfold filter_row. rewrite Hf, Hg, Hc. cbn [String.eqb Ascii.eqb Bool.eqb].
  destruct (row_get row (filter_column f)) as [| |[]|[[]| | |]|[|c s]|t];
    split; reflexivity.
Qed.

Lemma emptiness_filters_test_truthiness_witness :
  filter_row (filter_on "a" "isEmpty" "") [("a", VNum (num_of_Z 0))] = negb false
  /\ filter_row (filter_on "a" "isNotEmpty" "") [("a", VNum (num_of_Z 0))] = false.
Proof.
  apply (emptiness_filters_test_truthiness (filter_on "a" "isEmpty" "")
           (filter_on "a" "isNotEmpty" "") [("a", VNum (num_of_Z 0))]);
    reflexivity.
Defined.

Lemma num_lt_NaN (x y : number) : isNaN x = true \/ isNaN y = true -> num_lt x y = false.
Proof. intros [H | H]; destruct x, y; try discriminate; reflexivity. Qed.

Lemma num_le_NaN (x y : number) : isNaN x = true \/ isNaN y = true -> num_le x y = false.
Proof. intros [H | H]; destruct x, y; try discriminate; reflexivity. Qed.

(** X3. Under the operators [gt], [lt], [gte], [lte] and [between] a row
    is dropped when its cell or the filter value does not convert to a
    number; under [between] it is also dropped when the second value is
    missing or is no number. *)
Theorem numeric_filters_reject_non_numbers (f : FilterConfig) (row : DataRow) :
  In (filter_operator f) numeric_operators ->
  isNaN (js_Number (row_get row (filter_column f))) = true
  \/ isNaN (StringToNumber (toLowerCase (filter_value f))) = true
  \/ (filter_operator f = "between"
      /\ match filter_value2 f with
         | Some v => isNaN (StringToNumber (toLowerCase v)) = true
         | None => True
         end) ->
  filter_row f row = false.
Proof.
  intros Hop Hnan. unfold filter_row.
  assert (Hupper : filter_operator f = "between" ->
            match filter_value2 f with
            | Some v => isNaN (StringToNumber (toLowerCase v)) = true
            | None => True
            end ->
            num_le (js_Number (row_get row (filter_column f)))
              (match option_map toLowerCase (filter_value2 f) with
               | Some s => StringToNumber s
               | None => NaN
               end) = false).
  { intros _ Hv. apply num_le_NaN. right.
    destruct (filter_value2 f); [exact Hv | reflexivity]. }
  simpl in Hop.
  destruct Hop as [E | [E | [E | [E | [E | []]]]]]; rewrite <- E in *;
    cbn [String.eqb Ascii.eqb Bool.eqb];
    destruct Hnan as [Hn | [Hn | [Ho Hn]]]; try discriminate Ho;
    first [ apply num_lt_NaN; tauto
          | apply num_le_NaN; tauto
          | apply andb_false_iff; left; apply num_le_NaN; tauto
          | apply andb_false_iff; right; apply num_le_NaN; tauto
          | apply andb_false_iff; right; now apply Hupper ].
Qed.

Lemma numeric_filters_reject_non_numbers_witness :
  filter_row (filter_on "a" "between" "0") [("a", VNum (num_of_Z 5))] = false.
Proof.
  apply numeric_filters_reject_non_numbers.
  - simpl. tauto.
  - right. right. split; reflexivity.
Defined.

Lemma includes_empty (s : string) : includes s "" = true.
Proof. destruct s; reflexivity. Qed.

Lemma applyFilters_app (fs gs : list FilterConfig) (data : list DataRow) :
  applyFilters (fs ++ gs) data = applyFilters gs (applyFilters fs data).
Proof. unfold applyFilters. apply fold_left_app. Qed.

Lemma filter_all {A : Type} (p : A -> bool) (l : list A) :
  (forall x, In x l -> p x = true) -> filter p l = l.
Proof.
  intros Hp. induction l as [|x l IH]; simpl; [reflexivity |].
  rewrite Hp by now left. rewrite IH; [reflexivity |].
  intros y Hy. apply Hp. now right.
Qed.

(** X4. The filter that [addFilter] appends ([contains] the empty text,
    on the first column) keeps every row: until it is edited, the rows
    of the result are those of the filters there were. *)
Theorem added_filter_keeps_every_row (columns : list string)
  (filters : list FilterConfig) (data : list DataRow) :
  applyFilters (Editor.addFilter columns filters) data = applyFilters filters data.
Proof.
  destruct columns as [|first rest]; [reflexivity |].
  unfold Editor.addFilter. rewrite applyFilters_app.
  unfold applyFilters at 1. simpl. apply filter_all.
  intros row _. unfold filter_row. cbn [filter_operator filter_value String.eqb Ascii.eqb Bool.eqb toLowerCase].
  apply includes_empty.
Qed.

(* ================================================================== *)
(** * Sort stage: the order of the result *)

Section OrderedSort.
Context {A : Type}.
Variable comparefn : A -> A -> number.

Lemma insert_down_ordered (data : list A) (x : A) (acc : list A) :
  consistent_on comparefn data -> In x data -> (forall y, In y acc -> In y data) ->
  StronglySorted (fun a b => sorts_after comparefn b a = false) acc ->
  StronglySorted (fun a b => sorts_after comparefn b a = false)
    (insert_down comparefn x acc).
Proof.
  intros [Hasym Htrans] Hx Hacc Hs.
  destruct (insert_down_split comparefn x acc) as [l1 [l2 [Ea [-> [H1 H2]]]]].
  subst acc. destruct (StronglySorted_app_inv _ _ _ Hs) as [Hs1 [Hs2 Hc]].
  rewrite Forall_forall in H1.
  apply StronglySorted_app; [exact Hs1 | |].
  - constructor; [exact Hs2 |].
    destruct l2 as [|y l2]; [constructor |].
    inversion Hs2 as [|y' l Hs2' Hall]; subst.
    constructor; [exact H2 |].
    rewrite Forall_forall in *. intros z Hz.
    apply (Htrans z y x); auto.
    + apply Hacc, in_or_app. right. now right.
    + apply Hacc, in_or_app. right. now left.
  - intros a b Ha [<- | Hb]; [| now apply Hc].
    apply Hasym; auto. apply Hacc, in_or_app. now left.
Qed.

Lemma fold_insert_ordered (data l acc : list A) :
  consistent_on comparefn data ->
  (forall y, In y l -> In y data) -> (forall y, In y acc -> In y data) ->
  StronglySorted (fun a b => sorts_after comparefn b a = false) acc ->
  StronglySorted (fun a b => sorts_after comparefn b a = false)
    (fold_left (fun acc x => insert_down comparefn x acc) l acc).
Proof.
  intros Hc. revert acc. induction l as [|x l IH]; intros acc Hl Hacc Hs; simpl.
  - exact Hs.
  - apply IH.
    + intros y Hy. apply Hl. now right.
    + intros y Hy.
      apply (Permutation_in _ (insert_down_perm comparefn x acc)) in Hy.
      destruct Hy as [<- | Hy]; [apply Hl; now left | now apply Hacc].
    + apply (insert_down_ordered data); auto. apply Hl. now left.
Qed.

Lemma array_sort_ordered (l : list A) :
  consistent_on comparefn l ->
  StronglySorted (fun a b => sorts_after comparefn a b = false)
    (array_sort comparefn l).
Proof.
  intros Hc. unfold array_sort.
  apply (StronglySorted_rev (fun a b => sorts_after comparefn b a = false)).
  apply (fold_insert_ordered l); auto; [intros y [] | constructor].
Qed.
End OrderedSort.

Lemma ties_ordered {A : Type} (comparefn : A -> A -> number) (l : list A) :
  (forall a b, sorts_after comparefn a b = false) ->
  StronglySorted (fun a b => sorts_after comparefn a b = false) l.
Proof.
  intros Hf. induction l as [|x l IH]; constructor; [exact IH |].
  apply Forall_forall. intros y _. apply Hf.
Qed.



(** X6. With no aggregation, no pivot and no formula, and sort keys
    whose comparator is a consistent comparator for the rows that pass
    every filter, the pipeline returns these rows sorted by the sort keys:
    a rearrangement of them, none lost and none added, in which no row
    sorts after a row that follows it. *)
Theorem filtered_then_sorted (H : host) (st : PipelineState) :
  aggregation st = None -> pivotConfig st = None -> formulas st = [] ->
  consistent_comparator (compareRows H (sortConfig st))
    (filter (passes_all (filters st)) (rawData st)) = true ->
  exists out,
    applyTransformations H st = Some out
    /\ Permutation out (filter (passes_all (filters st)) (rawData st))
    /\ StronglySorted
         (fun a b => sorts_after (compareRows H (sortConfig st)) a b = false) out.
Proof.
  intros Ha Hp Hf Hc. unfold applyTransformations. rewrite Ha, Hp, Hf.
  rewrite applyFilters_passes_all, (sortStage_consistent _ _ _ Hc).
  cbn [applyAggregation applyPivot applyFormulas fold_left].
  eexists. split; [reflexivity |]. split.
  - unfold applySort. destruct (sortConfig st); [reflexivity | apply array_sort_perm].
  - destruct (sortConfig st) as [|s rest] eqn:Es.
    + apply ties_ordered. reflexivity.
    + apply array_sort_ordered. now apply consistent_comparator_on.
Qed.

Lemma filtered_then_sorted_witness :
  exists out,
    applyTransformations reference_host scenario_plain = Some out
    /\ Permutation out
         (filter (passes_all (filters scenario_plain)) (rawData scenario_plain))
    /\ StronglySorted
         (fun a b =>
            sorts_after (compareRows reference_host (sortConfig scenario_plain)) a b
            = false) out.
Proof.
  apply (filtered_then_sorted reference_host scenario_plain); reflexivity.
Defined.

(* ================================================================== *)
(** * Grouping: a partition of the rows *)

Lemma Object_entries_perm {B : Type} (o : list (string * B)) :
  Permutation (Object_entries o) o.
Proof.
  unfold Object_entries.
  rewrite (proj1 (sorted_entries _)).
  apply filter_split_perm.
Qed.

Lemma concat_perm {B : Type} (l l' : list (list B)) :
  Permutation l l' -> Permutation (List.concat l) (List.concat l').
Proof.
  induction 1; simpl.
  - reflexivity.
  - now apply Permutation_app_head.
  - rewrite !app_assoc. apply Permutation_app_tail, Permutation_app_comm.
  - etransitivity; eassumption.
Qed.

Section Partition.
Context {A : Type}.
Variable key : A -> string.

Lemma group_add_concat (k : string) (x : A) (g : list (string * list A)) :
  Permutation (List.concat (map snd (group_add k x g))) (x :: List.concat (map snd g)).
Proof.
  induction g as [|[k' xs] g IH]; simpl.
  - reflexivity.
  - destruct (String.eqb k' k); simpl.
    + rewrite <- app_assoc. simpl. apply Permutation_sym, Permutation_middle.
    + rewrite IH. apply Permutation_sym, Permutation_middle.
Qed.

Lemma groupBy_concat (data : list A) :
  Permutation (List.concat (map snd (groupBy key data))) data.
Proof.
  unfold groupBy.
  assert (Hgen : forall l g,
             Permutation
               (List.concat (map snd (fold_left (fun g x => group_add (key x) x g) l g)))
               (List.concat (map snd g) ++ l)).
  { induction l as [|x l IH]; intros g; simpl.
    - now rewrite app_nil_r.
    - rewrite IH, group_add_concat. simpl. apply Permutation_middle. }
  apply (Hgen data []).
Qed.

(** X7. The groups that the aggregation and pivot stages go through
    partition the rows: together they hold every row once, no two groups
    have the same key, and each group is made of the rows of its key, in
    input order, and is not empty. *)
Theorem groups_partition_rows (data : list A) :
  let groups := Object_entries (groupBy key data) in
  Permutation (List.concat (map snd groups)) data
  /\ NoDup (map fst groups)
  /\ Forall (fun e => snd e = members key (fst e) data /\ snd e <> []) groups.
Proof.
  intros groups. pose proof (Object_entries_perm (groupBy key data)) as Hp.
  fold groups in Hp. repeat split.
  - rewrite (concat_perm _ _ (Permutation_map snd Hp)). apply groupBy_concat.
  - apply (Permutation_NoDup (Permutation_sym (Permutation_map fst Hp))).
    rewrite groupBy_members, map_map. simpl. rewrite map_id. apply distinct_NoDup.
  - apply (Permutation_Forall (Permutation_sym Hp)).
    rewrite groupBy_members. apply Forall_forall. intros e He.
    apply in_map_iff in He. destruct He as [k [<- Hk]]. simpl. split; [reflexivity |].
    apply distinct_In, in_map_iff in Hk. destruct Hk as [x [Ex Hx]].
    intros Hm. assert (Hin : In x (members key k data)).
    { apply filter_In. split; [exact Hx | now apply String.eqb_eq]. }
    rewrite Hm in Hin. exact Hin.
Qed.
End Partition.

(** X8. In the summary row of a group, the grouping column holds the key
    of the group as a text, and [_count] the number of rows of the group,
    whatever the operation (the grouping column being named neither
    [_count] nor [_value]). *)
Theorem summary_row_fields (cfg : AggregationConfig) (key : string)
  (rows : list DataRow) :
  agg_column cfg <> "_count" -> agg_column cfg <> "_value" ->
  row_get (aggregate_group cfg (key, rows)) (agg_column cfg) = VStr key
  /\ row_get (aggregate_group cfg (key, rows)) "_count"
     = VNum (num_of_nat (List.length rows)).
Proof.
  intros Hc Hv. unfold aggregate_group.
  assert (Hneq : "_count" <> "_value") by discriminate.
  split;
    repeat match goal with
           | |- context [if ?b then _ else _] => destruct b
           end;
    rewrite ?(row_get_set_other _ "_value") by congruence;
    rewrite ?row_get_set_same; try reflexivity;
    rewrite (row_get_set_other _ "_count") by congruence;
    apply row_get_set_same.
Qed.

Lemma summary_row_fields_witness :
  row_get (aggregate_group {| agg_column := "x"; agg_operation := "sum" |}
             ("2", rows_x246)) "x" = VStr "2"
  /\ row_get (aggregate_group {| agg_column := "x"; agg_operation := "sum" |}
                ("2", rows_x246)) "_count" = VNum (num_of_nat 3).
Proof.
  apply (summary_row_fields {| agg_column := "x"; agg_operation := "sum" |}
           "2" rows_x246); discriminate.
Defined.

(** X9. An operation the aggregation stage has no case for, such as
    [std], gives summary rows made of the key and [_count] only: they
    have no field [_value]. *)
Theorem unhandled_operation_gives_no_value (cfg : AggregationConfig)
  (key : string) (rows : list DataRow) :
  ~ In (agg_operation cfg) handled_operations ->
  aggregate_group cfg (key, rows)
  = row_set (row_set [] (agg_column cfg) (VStr key)) "_count"
      (VNum (num_of_nat (List.length rows)))
  /\ (agg_column cfg <> "_value" ->
      row_get (aggregate_group cfg (key, rows)) "_value" = VUndefined).
Proof.
  intros Hop.
  assert (E : aggregate_group cfg (key, rows)
              = row_set (row_set [] (agg_column cfg) (VStr key)) "_count"
                  (VNum (num_of_nat (List.length rows)))).
  { unfold aggregate_group.
    repeat match goal with
           | |- context [if String.eqb ?a ?b then _ else _] =>
               destruct (String.eqb_spec a b) as [E | _];
               [exfalso; apply Hop; rewrite E; simpl; tauto |]
           end.
    reflexivity. }
  split; [exact E |].
  intros Hv. rewrite E.
  rewrite (row_get_set_other _ "_count") by discriminate.
  rewrite row_get_set_other by exact Hv. reflexivity.
Qed.

Lemma unhandled_operation_gives_no_value_witness :
  aggregate_group {| agg_column := "x"; agg_operation := "std" |} ("2", rows_x246)
  = [("x", VStr "2"); ("_count", VNum (num_of_nat 3))].
Proof.
  apply (unhandled_operation_gives_no_value
           {| agg_column := "x"; agg_operation := "std" |} "2" rows_x246).
  simpl. intros [E | [E | [E | [E | [E | [E | []]]]]]]; discriminate E.
Defined.

(* ================================================================== *)
(** * Pivot stage: rows and labels *)

Lemma strip_colons_none (c : ascii) (t : string) :
  (code c =? 58)%nat = false -> strip_prefix "::" (String c t) = None.
Proof.
  intros Hc.
  change (strip_prefix "::" (String c t))
    with (if Ascii.eqb ":"%char c then strip_prefix ":" t else None).
  destruct (Ascii.eqb_spec ":"%char c) as [<- | _];
    [discriminate Hc | reflexivity].
Qed.

Lemma split_go_no_colon (p : string) (cur : string -> string) :
  no_colon p = true -> split_go "::" cur p 0 = [cur p].
Proof.
  revert cur. induction p as [|c p IH]; intros cur Hp; [reflexivity |].
  unfold no_colon in Hp. rewrite all_chars_cons in Hp.
  apply andb_true_iff in Hp. destruct Hp as [Hc Hp].
  apply negb_true_iff in Hc.
  cbn [split_go]. rewrite (strip_colons_none c p Hc).
  apply (IH (fun x => cur (String c x)) Hp).
Qed.

Lemma split_go_part (p rest : string) (cur : string -> string) :
  no_colon p = true ->
  split_go "::" cur (p ++ "::" ++ rest) 0 = cur p :: split_go "::" (fun x => x) rest 0.
Proof.
  revert cur. induction p as [|c p IH]; intros cur Hp; [reflexivity |].
  unfold no_colon in Hp. rewrite all_chars_cons in Hp.
  apply andb_true_iff in Hp. destruct Hp as [Hc Hp].
  apply negb_true_iff in Hc.
  change (String c p ++ "::" ++ rest) with (String c (p ++ "::" ++ rest)).
  cbn [split_go]. rewrite (strip_colons_none c _ Hc).
  apply (IH (fun x => cur (String c x)) Hp).
Qed.

Lemma split_joined (parts : list string) :
  parts <> [] -> Forall (fun p => no_colon p = true) parts ->
  str_split "::" (String.concat "::" parts) = parts.
Proof.
  intros Hne Hall. unfold str_split.
  induction parts as [|p parts IH]; [congruence |].
  inversion Hall as [|p' l Hp Hrest]; subst.
  destruct parts as [|q parts].
  - simpl. now apply split_go_no_colon.
  - change (String.concat "::" (p :: q :: parts))
      with (p ++ "::" ++ String.concat "::" (q :: parts)).
    rewrite (split_go_part _ _ _ Hp). f_equal. apply IH; [discriminate | exact Hrest].
Qed.

(** X10. The pivot stage leaves the data as it is when no row label or
    no value column is chosen; otherwise its result has one row for each
    distinct key of row labels. *)
Theorem pivot_row_count (cfg : PivotConfig) (data : list DataRow) :
  (pivot_rows cfg = [] \/ pivot_values cfg = [] -> applyPivot (Some cfg) data = data)
  /\ (pivot_rows cfg <> [] -> pivot_values cfg <> [] ->
      List.length (applyPivot (Some cfg) data)
      = List.length (distinct (map (pivot_key cfg) data))).
Proof.
  unfold applyPivot. split.
  - intros [E | E]; rewrite E; [reflexivity |].
    now destruct (pivot_rows cfg).
  - intros Hr Hv.
    destruct (pivot_rows cfg) as [|r rs]; [congruence |].
    destruct (pivot_values cfg) as [|v vs]; [congruence |].
    rewrite length_map, (Permutation_length (Object_entries_perm _)).
    now rewrite groupBy_members, length_map.
Qed.

Lemma pivot_row_count_witness :
  List.length (applyPivot (Some pivot_sum_by_r) rows_rsv)
  = List.length (distinct (map (pivot_key pivot_sum_by_r) rows_rsv)).
Proof.
  apply (proj2 (pivot_row_count pivot_sum_by_r rows_rsv)); discriminate.
Defined.

Lemma row_assign_other (row : DataRow) (k k' : string) (v : jsval) :
  k <> k' -> row_get (row_assign row k v) k' = row_get row k'.
Proof.
  intros Hk. unfold row_assign.
  destruct (String.eqb k "__proto__" && _); [reflexivity |].
  now apply row_get_set_other.
Qed.

Lemma row_assign_same (row : DataRow) (k : string) (v : jsval) :
  k <> "__proto__" -> row_get (row_assign row k v) k = v.
Proof.
  intros Hk. unfold row_assign. apply String.eqb_neq in Hk. rewrite Hk.
  apply row_get_set_same.
Qed.

Lemma set_labels_other (parts : list string) (labels : list string) (i : nat)
  (row : DataRow) (r : string) :
  ~ In r labels -> row_get (set_labels parts i labels row) r = row_get row r.
Proof.
  revert i row. induction labels as [|l labels IH]; intros i row Hr; [reflexivity |].
  simpl. rewrite IH by (intros Hin; apply Hr; now right).
  apply row_assign_other. intros E. apply Hr. now left.
Qed.

Lemma set_labels_get (text : string -> string) (parts : list string)
  (labels : list string) (i : nat) (row : DataRow) (r : string) :
  (forall j l, nth_error labels j = Some l -> nth_error parts (i + j) = Some (text l)) ->
  In r labels -> r <> "__proto__" ->
  row_get (set_labels parts i labels row) r = VStr (text r).
Proof.
  revert i row.
  induction labels as [|l labels IH]; intros i row Hparts Hr Hp; [destruct Hr |].
  simpl. destruct (in_dec string_dec r labels) as [Hin | Hout].
  - apply IH; [| exact Hin | exact Hp]. intros j l' Hj.
    replace (S i + j) with (i + S j) by lia. now apply Hparts.
  - destruct Hr as [-> | Hr]; [| contradiction].
    rewrite set_labels_other by exact Hout.
    rewrite row_assign_same by exact Hp.
    specialize (Hparts 0 r eq_refl). rewrite Nat.add_0_r in Hparts. now rewrite Hparts.
Qed.

Lemma set_labels_proto (parts : list string) (labels : list string) (i : nat) :
  row_get (set_labels parts i labels []) "__proto__" = VObject "[object Object]".
Proof.
  assert (Hgen : forall labels i row,
             existsb (fun e => String.eqb (fst e) "__proto__") row = false ->
             row_get (set_labels parts i labels row) "__proto__"
             = row_get row "__proto__").
  { clear. induction labels as [|l labels IH]; intros i row Hrow; [reflexivity |].
    simpl. unfold row_assign.
    destruct (String.eqb_spec l "__proto__") as [-> | Hl].
    - rewrite Hrow. simpl. now apply IH.
    - simpl. rewrite IH.
      + now apply row_get_set_other.
      + clear IH. induction row as [|[k v] row IHr]; simpl in *.
        * apply String.eqb_neq in Hl. now rewrite Hl.
        * apply orb_false_iff in Hrow. destruct Hrow as [Hk Hrow].
          destruct (String.eqb_spec k l) as [-> | Hkl]; simpl.
          -- apply String.eqb_neq in Hl. now rewrite Hl, Hrow.
          -- now rewrite Hk, IHr. }
  now rewrite Hgen.
Qed.

Lemma set_pivot_value_other (cfg : PivotConfig) (rows : list DataRow)
  (vals : list string) (row : DataRow) (k : string) :
  (forall val, In val vals -> k <> val ++ "_" ++ pivot_aggregation cfg) ->
  row_get (fold_left (set_pivot_value cfg rows) vals row) k = row_get row k.
Proof.
  revert row. induction vals as [|v vals IH]; intros row Hk; [reflexivity |].
  simpl. rewrite IH by (intros val Hval; apply Hk; now right).
  specialize (Hk v (or_introl eq_refl)). unfold set_pivot_value.
  repeat match goal with
         | |- context [if String.eqb ?a ?b then _ else _] =>
             destruct (String.eqb_spec a b) as [E | _];
             [rewrite E in Hk; simpl in Hk; apply row_get_set_other; congruence |]
         end.
  reflexivity.
Qed.

(** X11. Where the label cells of a row hold no colon, splitting the key
    of the row gives back the texts of these cells, and the pivot row of
    that key holds, under each row label, the text of the cell (the empty
    text for [null] or a cell that reads [undefined]), provided no value
    field has the name of the label.  The label [__proto__] is the one
    that is not stored: the assignment is lost, and the pivot row reads
    [Object.prototype] under it. *)
Theorem pivot_labels_are_cell_texts (cfg : PivotConfig) (row : DataRow)
  (rows : list DataRow) (r : string) :
  Forall (fun c => no_colon (join_item (row_get row c)) = true) (pivot_rows cfg) ->
  In r (pivot_rows cfg) ->
  (forall val, In val (pivot_values cfg) -> r <> val ++ "_" ++ pivot_aggregation cfg) ->
  str_split "::" (pivot_key cfg row)
  = map (fun c => join_item (row_get row c)) (pivot_rows cfg)
  /\ row_get (pivot_group cfg (pivot_key cfg row, rows)) r
     = if String.eqb r "__proto__" then VObject "[object Object]"
       else VStr (join_item (row_get row r)).
Proof.
  intros Hplain Hr Hvals.
  assert (Hsplit : str_split "::" (pivot_key cfg row)
                   = map (fun c => join_item (row_get row c)) (pivot_rows cfg)).
  { unfold pivot_key. apply split_joined.
    - destruct (pivot_rows cfg); [destruct Hr | discriminate].
    - apply Forall_forall. intros p Hp. apply in_map_iff in Hp.
      destruct Hp as [c [<- Hc]]. rewrite Forall_forall in Hplain. now apply Hplain. }
  split; [exact Hsplit |].
  unfold pivot_group. rewrite set_pivot_value_other by exact Hvals.
  rewrite Hsplit.
  destruct (String.eqb_spec r "__proto__") as [-> | Hp]; [apply set_labels_proto |].
  apply (set_labels_get (fun c => join_item (row_get row c))); [| exact Hr | exact Hp].
  intros j l Hj. simpl. rewrite nth_error_map, Hj. reflexivity.
Qed.

Lemma pivot_labels_are_cell_texts_witness :
  str_split "::" (pivot_key pivot_sum_by_r [("r", VStr "a"); ("s", VNum (num_of_Z 1))])
  = ["a"; "1"]
  /\ row_get (pivot_group pivot_sum_by_r
                (pivot_key pivot_sum_by_r [("r", VStr "a"); ("s", VNum (num_of_Z 1))],
                 rows_rsv)) "s"
     = VStr "1".
Proof.
  apply (pivot_labels_are_cell_texts pivot_sum_by_r
           [("r", VStr "a"); ("s", VNum (num_of_Z 1))] rows_rsv "s").
  - repeat constructor.
  - simpl. tauto.
  - intros val [<- | []]. discriminate.
Defined.

(* ================================================================== *)
(** * Formula stage: means, copies and what is kept *)

Lemma call_prefix_AVG (rest : string) :
  strip_prefix_ci ("AVG" ++ "(") ("AVG" ++ "(" ++ rest) = Some rest.
Proof. reflexivity. Qed.

(** X12. The term [AVG(col)] is rewritten to the mean of the numbers
    that the column holds in the rows up to the current one: their running
    total divided by their count, and 0 where there is none. *)
Theorem avg_term_is_running_mean (data : list DataRow) (idx : nat) (cols : string) :
  cols <> "" -> all_chars not_rparen cols = true ->
  replace_all (match_call "AVG") (fun _ => avg_term data idx) ("AVG(" ++ cols ++ ")") 0
  = NumberToString
      (if (running_count (trim cols) data (S idx) =? 0)%nat then S754_zero false
       else num_div (running_total (trim cols) data (S idx))
              (num_of_nat (running_count (trim cols) data (S idx)))).
Proof.
  intros Hne Hall.
  change ("AVG(" ++ cols ++ ")") with ("AVG" ++ "(" ++ cols ++ ")").
  rewrite (replace_call_term "AVG" cols _ call_prefix_AVG Hne Hall).
  unfold avg_term, running_count. rewrite Nat.add_1_r.
  rewrite <- reduce_sum_running_total.
  now destruct (numeric_values (trim cols) (firstn (S idx) data)).
Qed.

Lemma avg_term_is_running_mean_witness :
  replace_all (match_call "AVG") (fun _ => avg_term rows_x2_6 2) "AVG(x)" 0 = "4".
Proof.
  apply (avg_term_is_running_mean rows_x2_6 2 "x"); [discriminate | reflexivity].
Defined.

Lemma js_eval_text (scope : string -> binding) (s : string) :
  all_chars (plain_in_literal "'"%char) s = true ->
  js_eval scope ("'" ++ s ++ "'") = Normal (VStr s).
Proof.
  intros Hs. unfold js_eval.
  change ("'" ++ s ++ "'") with (String "'"%char (s ++ "'")).
  cbn [lex String.length is_space].
  change (is_space "'"%char) with false.
  change (is_digit "'"%char || (code "'"%char =? 46)%nat) with false.
  change (is_quote "'"%char) with true. cbv iota.
  rewrite (span_run (plain_in_literal "'"%char) s "'"%char "" Hs eq_refl).
  rewrite Ascii.eqb_refl.
  destruct (String.length (s ++ "'")) eqn:El.
  - rewrite append_length in El. simpl in El. lia.
  - reflexivity.
Qed.

(** X13. A formula that is the name of a column copies the cell of that
    column into the new field, where the cell is [null], a boolean, or a
    text without quote, backslash and line break (and the patterns of the
    columns compile). *)
Theorem name_formula_copies_cell (H : host) (columns : list string)
  (formula : FormulaConfig) (data : list DataRow) (idx : nat) (row : DataRow) :
  formula_text formula <> "" ->
  all_chars is_name_char (formula_text formula) = true ->
  written_as_literal (row_get row (formula_text formula)) = true ->
  columns_compile H columns = true ->
  formula_row H columns formula data idx row
  = Some (row_set row (formula_name formula) (row_get row (formula_text formula))).
Proof.
  intros Hne Hx Hv Hc. unfold formula_row.
  rewrite (rewrite_formula_name H data idx row _ Hx), Hc.
  rewrite (evalStr_of_cell row _ Hne Hx). unfold name_term.
  destruct (row_get row (formula_text formula)) as [| |b|n|s|t]; try discriminate Hv.
  - reflexivity.
  - destruct b; reflexivity.
  - simpl in Hv. now rewrite (js_eval_text _ s Hv).
Qed.

Lemma name_formula_copies_cell_witness :
  formula_row reference_host ["b"] {| formula_name := "c"; formula_text := "b" |}
    [] 0 [("b", VStr "it is")]
  = Some [("b", VStr "it is"); ("c", VStr "it is")].
Proof.
  apply (name_formula_copies_cell reference_host ["b"]
           {| formula_name := "c"; formula_text := "b" |} [] 0 [("b", VStr "it is")]);
    solve [discriminate | reflexivity].
Defined.

Lemma applyFormulas_none (H : host) (columns : list string)
  (fs : list FormulaConfig) :
  fold_left (fun acc formula =>
               match acc with
               | Some d => applyFormula H columns d formula
               | None => None
               end) fs None = None.
Proof. induction fs as [|f fs IH]; simpl; [reflexivity | exact IH]. Qed.

(** X14. Where the formula stage yields a result, it has as many rows as
    the data, and each row keeps the value of every field that no formula
    is named after. *)
Theorem formulas_keep_rows_and_other_fields (H : host) (columns : list string)
  (fs : list FormulaConfig) (data out : list DataRow) :
  applyFormulas H columns fs data = Some out ->
  List.length out = List.length data
  /\ forall i row,
       nth_error data i = Some row ->
       exists r', nth_error out i = Some r'
                  /\ forall k, ~ In k (map formula_name fs) ->
                               row_get r' k = row_get row k.
Proof.
  revert data. induction fs as [|f fs IH]; intros data Hout.
  - injection Hout as <-. split; [reflexivity |].
    intros i row Hrow. exists row. split; [exact Hrow | reflexivity].
  - unfold applyFormulas in Hout. simpl in Hout.
    destruct (applyFormula H columns data f) as [d1 |] eqn:E1;
      [| now rewrite applyFormulas_none in Hout].
    destruct (IH d1 Hout) as [Hlen Hrows].
    destruct (map_rows_nth _ _ _ _ E1) as [Hlen1 Hrows1].
    split; [congruence |].
    intros i row Hrow. specialize (Hrows1 i row Hrow). simpl in Hrows1.
    destruct (nth_error d1 i) as [r1 |] eqn:E;
      [| apply nth_error_None in E;
         assert (i < List.length data) by (apply nth_error_Some; congruence); lia ].
    destruct (formula_row_shape _ _ _ _ _ _ _ (eq_sym Hrows1)) as [v ->].
    destruct (Hrows i _ E) as [r' [Hr' Hk]].
    exists r'. split; [exact Hr' |].
    intros k Hnot. rewrite Hk by (intros Hin; apply Hnot; now right).
    apply row_get_set_other. intros Ek. apply Hnot. now left.
Qed.

Lemma formulas_keep_rows_and_other_fields_witness :
  exists out,
    applyFormulas reference_host ["x"] formulas_total_len rows_x123 = Some out
    /\ List.length out = List.length rows_x123.
Proof.
  eexists. split; [vm_compute; reflexivity |].
  refine (proj1 (formulas_keep_rows_and_other_fields reference_host ["x"]
                   formulas_total_len rows_x123 _ _)).
  vm_compute. reflexivity.
Defined.

(* ================================================================== *)
(** * Column statistics *)

Lemma filter_idem {A : Type} (p : A -> bool) (l : list A) :
  filter p (filter p l) = filter p l.
Proof.
  induction l as [|x l IH]; simpl; [reflexivity |].
  destruct (p x) eqn:E; simpl; [now rewrite E, IH | exact IH].
Qed.

Lemma detectColumnType_non_empty (H : host) (values : list jsval) :
  detectColumnType H (filter non_empty values) = detectColumnType H values.
Proof. unfold detectColumnType. now rewrite filter_idem. Qed.

Lemma filter_length_le {A : Type} (p : A -> bool) (l : list A) :
  List.length (filter p l) <= List.length l.
Proof.
  induction l as [|x l IH]; simpl; [lia |]. destruct (p x); simpl; lia.
Qed.

Lemma unique_strings_length (l : list string) :
  List.length (unique_strings l) <= List.length l.
Proof.
  induction l as [|x l IH]; simpl; [lia |].
  pose proof (filter_length_le (fun y => negb (String.eqb y x)) (unique_strings l)).
  lia.
Qed.

Lemma getColumnStats_fields (H : host) (data : list DataRow) (column : string) :
  let values := map (fun row => row_get row column) data in
  info_name (getColumnStats H data column) = column
  /\ info_type (getColumnStats H data column)
     = detectColumnType H (filter non_empty values)
  /\ info_missing (getColumnStats H data column)
     = List.length values - List.length (filter non_empty values)
  /\ info_unique (getColumnStats H data column)
     = List.length (unique_strings (map js_String (filter non_empty values))).
Proof.
  intros values. unfold getColumnStats. fold values.
  destruct (detectColumnType H (filter non_empty values));
    try (repeat split; reflexivity).
  destruct (filter (fun n => negb (isNaN n)) (map js_Number (filter non_empty values)));
    repeat split; reflexivity.
Qed.

(** X15. In the statistics of a column, the missing count and the number
    of values that are not blank add up to the number of rows; the
    unique count is at most the number of values that are not blank, and
    is zero exactly when every value is missing; the type is that of
    [detectColumnType] on the column. *)
Theorem column_stats_counts (H : host) (data : list DataRow) (column : string) :
  let values := map (fun row => row_get row column) data in
  let info := getColumnStats H data column in
  info_missing info + List.length (filter non_empty values) = List.length data
  /\ info_unique info <= List.length (filter non_empty values)
  /\ (info_unique info = 0 <-> info_missing info = List.length data)
  /\ info_type info = detectColumnType H values.
Proof.
  intros values info.
  destruct (getColumnStats_fields H data column) as [_ [Ht [Hm Hu]]].
  fold values in Ht, Hm, Hu. fold info in Ht, Hm, Hu.
  pose proof (filter_length_le non_empty values) as Hle.
  assert (Hlen : List.length values = List.length data) by apply length_map.
  pose proof (unique_strings_length (map js_String (filter non_empty values))) as Hul.
  rewrite length_map in Hul.
  repeat split.
  - lia.
  - lia.
  - intros E. rewrite Hu in E.
    destruct (filter non_empty values) as [|v l]; [simpl in *; lia | discriminate E].
  - intros E. rewrite Hu. 
    destruct (filter non_empty values) as [|v l]; [reflexivity | simpl in *; lia].
  - rewrite Ht. apply detectColumnType_non_empty.
Qed.

Lemma number_type_sample (H : host) (values : list jsval) :
  detectColumnType H values = TNumber ->
  exists v rest, filter non_empty values = v :: rest /\ isNaN (js_Number v) = false.
Proof.
  unfold detectColumnType. destruct (filter non_empty values) as [|v rest]; [discriminate |].
  intros E. exists v, rest. split; [reflexivity |].
  cbn [firstn forallb] in E.
  destruct (isNaN (js_Number v)); [| reflexivity].
  cbn [negb andb] in E.
  repeat match type of E with
         | (if ?b then _ else _) = _ => destruct b
         end; discriminate E.
Qed.

Lemma not_below_infinity (n : number) :
  isNaN n = false -> num_lt n Infinity = false -> n = Infinity.
Proof. destruct n as [[]|[]| |[] m e]; intros Hn Hlt; try discriminate; reflexivity. Qed.

Lemma not_above_minus_infinity (n : number) :
  isNaN n = false -> num_lt (S754_infinity true) n = false -> n = S754_infinity true.
Proof. destruct n as [[]|[]| |[] m e]; intros Hn Hlt; try discriminate; reflexivity. Qed.

Lemma zeros_not_less (n lowest : number) :
  is_neg_zero n && is_pos_zero lowest = true ->
  num_lt lowest n = false /\ num_lt n lowest = false.
Proof. destruct n as [[]|[]| |[] m e], lowest as [[]|[]| |[] m' e']; try discriminate; split; reflexivity. Qed.

Lemma zeros_not_more (n highest : number) :
  is_pos_zero n && is_neg_zero highest = true ->
  num_lt highest n = false /\ num_lt n highest = false.
Proof. destruct n as [[]|[]| |[] m e], highest as [[]|[]| |[] m' e']; try discriminate; split; reflexivity. Qed.

Lemma Math_min_fold (nums : list number) (lowest : number) (seen : list number) :
  Forall (fun n => isNaN n = false) nums -> isNaN lowest = false ->
  Forall (fun n => isNaN n = false /\ num_lt n lowest = false) seen ->
  let result :=
    fold_left (fun lowest n =>
                 if isNaN lowest || isNaN n then NaN
                 else if num_lt n lowest || (is_neg_zero n && is_pos_zero lowest)
                      then n else lowest) nums lowest in
  isNaN result = false
  /\ (result = lowest \/ In result nums)
  /\ Forall (fun n => num_lt n result = false) (seen ++ nums)%list.
Proof.
  revert lowest seen. induction nums as [|n nums IH]; intros lowest seen Hnn Hl Hseen.
  - simpl. rewrite app_nil_r. repeat split; [exact Hl | now left |].
    eapply Forall_impl; [| exact Hseen]. now intros m [_ Hm].
  - inversion Hnn as [|n' l Hn Hrest]; subst. cbn [fold_left]. rewrite Hl, Hn. cbn [orb].
    destruct (num_lt n lowest || is_neg_zero n && is_pos_zero lowest) eqn:E.
    + assert (Hle : num_lt lowest n = false).
      { apply orb_true_iff in E. destruct E as [E | E];
          [now apply num_lt_asym | exact (proj1 (zeros_not_less _ _ E))]. }
      destruct (IH n (seen ++ [n])%list Hrest Hn) as [R1 [R2 R3]].
      { apply Forall_app. split.
        - eapply Forall_impl; [| exact Hseen]. intros m [Hm1 Hm2].
          split; [exact Hm1 |]. now apply (num_lt_false_trans m lowest n).
        - constructor; [split; [exact Hn | apply num_lt_irrefl] | constructor]. }
      split; [exact R1 | split].
      * right. destruct R2 as [-> | R2]; [now left | now right].
      * now rewrite <- app_assoc in R3.
    + apply orb_false_iff in E. destruct E as [E _].
      destruct (IH lowest (seen ++ [n])%list Hrest Hl) as [R1 [R2 R3]].
      { apply Forall_app. split; [exact Hseen | constructor; [now split | constructor]]. }
      split; [exact R1 | split].
      * destruct R2 as [-> | R2]; [now left | right; now right].
      * now rewrite <- app_assoc in R3.
Qed.

Lemma Math_max_fold (nums : list number) (highest : number) (seen : list number) :
  Forall (fun n => isNaN n = false) nums -> isNaN highest = false ->
  Forall (fun n => isNaN n = false /\ num_lt highest n = false) seen ->
  let result :=
    fold_left (fun highest n =>
                 if isNaN highest || isNaN n then NaN
                 else if num_lt highest n || (is_pos_zero n && is_neg_zero highest)
                      then n else highest) nums highest in
  isNaN result = false
  /\ (result = highest \/ In result nums)
  /\ Forall (fun n => num_lt result n = false) (seen ++ nums)%list.
Proof.
  revert highest seen. induction nums as [|n nums IH]; intros highest seen Hnn Hl Hseen.
  - simpl. rewrite app_nil_r. repeat split; [exact Hl | now left |].
    eapply Forall_impl; [| exact Hseen]. now intros m [_ Hm].
  - inversion Hnn as [|n' l Hn Hrest]; subst. cbn [fold_left]. rewrite Hl, Hn. cbn [orb].
    destruct (num_lt highest n || is_pos_zero n && is_neg_zero highest) eqn:E.
    + assert (Hle : num_lt n highest = false).
      { apply orb_true_iff in E. destruct E as [E | E];
          [now apply num_lt_asym | exact (proj2 (zeros_not_more _ _ E))]. }
      destruct (IH n (seen ++ [n])%list Hrest Hn) as [R1 [R2 R3]].
      { apply Forall_app. split.
        - eapply Forall_impl; [| exact Hseen]. intros m [Hm1 Hm2].
          split; [exact Hm1 |]. now apply (num_lt_false_trans n highest m).
        - constructor; [split; [exact Hn | apply num_lt_irrefl] | constructor]. }
      split; [exact R1 | split].
      * right. destruct R2 as [-> | R2]; [now left | now right].
      * now rewrite <- app_assoc in R3.
    + apply orb_false_iff in E. destruct E as [E _].
      destruct (IH highest (seen ++ [n])%list Hrest Hl) as [R1 [R2 R3]].
      { apply Forall_app. split; [exact Hseen | constructor; [now split | constructor]]. }
      split; [exact R1 | split].
      * destruct R2 as [-> | R2]; [now left | right; now right].
      * now rewrite <- app_assoc in R3.
Qed.

Lemma Math_min_spec (nums : list number) :
  nums <> [] -> Forall (fun n => isNaN n = false) nums ->
  In (Math_min nums) nums /\ Forall (fun n => num_lt n (Math_min nums) = false) nums.
Proof.
  intros Hne Hnn.
  destruct (Math_min_fold nums Infinity [] Hnn eq_refl (Forall_nil _)) as [R1 [R2 R3]].
  fold (Math_min nums) in R1, R2, R3. simpl in R3. split; [| exact R3].
  destruct R2 as [E | Hin]; [| exact Hin].
  destruct nums as [|n rest]; [congruence |].
  inversion Hnn as [|n' l Hn _]; subst. inversion R3 as [|n' l Hlt _]; subst.
  rewrite E in Hlt. rewrite E. left. now apply not_below_infinity.
Qed.

Lemma Math_max_spec (nums : list number) :
  nums <> [] -> Forall (fun n => isNaN n = false) nums ->
  In (Math_max nums) nums /\ Forall (fun n => num_lt (Math_max nums) n = false) nums.
Proof.
  intros Hne Hnn.
  destruct (Math_max_fold nums (S754_infinity true) [] Hnn eq_refl (Forall_nil _))
    as [R1 [R2 R3]].
  fold (Math_max nums) in R1, R2, R3. simpl in R3. split; [| exact R3].
  destruct R2 as [E | Hin]; [| exact Hin].
  destruct nums as [|n rest]; [congruence |].
  inversion Hnn as [|n' l Hn _]; subst. inversion R3 as [|n' l Hlt _]; subst.
  rewrite E in Hlt. rewrite E. left. now apply not_above_minus_infinity.
Qed.

Lemma column_numbers_not_NaN (data : list DataRow) (column : string) :
  Forall (fun n => isNaN n = false) (column_numbers data column).
Proof.
  apply Forall_forall. intros n Hn. apply filter_In in Hn.
  now apply negb_true_iff.
Qed.

(** X16. For a column of type [number], the statistics always hold a
    minimum and a maximum: both are among the numbers of the column, none
    of which is less than the minimum or more than the maximum. *)
Theorem number_column_has_bounds (H : host) (data : list DataRow) (column : string) :
  info_type (getColumnStats H data column) = TNumber ->
  exists lo hi,
    info_min (getColumnStats H data column) = VNum lo
    /\ info_max (getColumnStats H data column) = VNum hi
    /\ In lo (column_numbers data column) /\ In hi (column_numbers data column)
    /\ Forall (fun n => num_lt n lo = false /\ num_lt hi n = false)
         (column_numbers data column).
Proof.
  intros Ht.
  destruct (getColumnStats_fields H data column) as [_ [Ht' _]]. rewrite Ht in Ht'.
  symmetry in Ht'.
  destruct (number_type_sample H _ Ht') as [v [rest [Ev Hv]]].
  rewrite filter_idem in Ev.
  assert (Hne : column_numbers data column <> []).
  { unfold column_numbers. rewrite Ev. simpl. now rewrite Hv. }
  pose proof (column_numbers_not_NaN data column) as Hnn.
  destruct (Math_min_spec _ Hne Hnn) as [Hlo1 Hlo2].
  destruct (Math_max_spec _ Hne Hnn) as [Hhi1 Hhi2].
  exists (Math_min (column_numbers data column)), (Math_max (column_numbers data column)).
  unfold getColumnStats. rewrite Ht'. fold (column_numbers data column).
  destruct (column_numbers data column) as [|n l] eqn:E; [congruence |].
  repeat split; try assumption.
  rewrite Forall_forall in *. intros m Hm. split; [now apply Hlo2 | now apply Hhi2].
Qed.

Lemma number_column_has_bounds_witness :
  exists lo hi,
    info_min (getColumnStats reference_host rows_a "a") = VNum lo
    /\ info_max (getColumnStats reference_host rows_a "a") = VNum hi
    /\ In lo (column_numbers rows_a "a") /\ In hi (column_numbers rows_a "a")
    /\ Forall (fun n => num_lt n lo = false /\ num_lt hi n = false)
         (column_numbers rows_a "a").
Proof.
  apply (number_column_has_bounds reference_host rows_a "a"). vm_compute. reflexivity.
Defined.

Lemma ltb_asym (a b : string) : String.ltb a b = true -> String.ltb b a = false.
Proof.
  unfold String.ltb. rewrite (String.compare_antisym b a).
  now destruct (String.compare a b).
Qed.

Lemma compare_lt_trans (a b c : string) :
  String.compare a b = Lt -> String.compare b c = Lt -> String.compare a c = Lt.
Proof.
  intros H1 H2. apply OrderedTypeEx.String_as_OT.cmp_lt.
  apply OrderedTypeEx.String_as_OT.cmp_lt in H1, H2.
  eapply OrderedTypeEx.String_as_OT.lt_trans; eassumption.
Qed.

Lemma compare_refl (a : string) : String.compare a a = Eq.
Proof.
  pose proof (String.compare_antisym a a) as E.
  destruct (String.compare a a); [reflexivity | discriminate E | discriminate E].
Qed.

Lemma ltb_false_trans (a b c : string) :
  String.ltb a b = false -> String.ltb b c = false -> String.ltb a c = false.
Proof.
  unfold String.ltb. intros H1 H2.
  destruct (String.compare a c) eqn:Eac; try reflexivity. exfalso.
  destruct (String.compare a b) eqn:Eab; [| discriminate H1 |].
  - apply String.compare_eq_iff in Eab. subst b. rewrite Eac in H2. discriminate H2.
  - destruct (String.compare b c) eqn:Ebc; [| discriminate H2 |].
    + apply String.compare_eq_iff in Ebc. subst c. rewrite Eab in Eac. discriminate Eac.
    + rewrite String.compare_antisym in Eab, Ebc.
      assert (Eba : String.compare b a = Lt) by now destruct (String.compare b a).
      assert (Ecb : String.compare c b = Lt) by now destruct (String.compare c b).
      pose proof (compare_lt_trans _ _ _ (compare_lt_trans _ _ _ Eac Ecb) Eba) as E.
      rewrite compare_refl in E. discriminate E.
Qed.

Lemma extremum_of_fold (beats : string -> string -> bool) (values seen : list string)
  (best : string) :
  (forall a b, beats a b = true -> beats b a = false) ->
  (forall a b c, beats a b = false -> beats b c = false -> beats a c = false) ->
  (forall a, beats a a = false) ->
  Forall (fun v => beats v best = false) seen ->
  exists m,
    fold_left (fun best v =>
                 match best with
                 | None => Some v
                 | Some b => if beats v b then Some v else best
                 end) values (Some best) = Some m
    /\ (m = best \/ In m values)
    /\ Forall (fun v => beats v m = false) (seen ++ values)%list.
Proof.
  intros Hasym Htrans Hrefl. revert seen best.
  induction values as [|v values IH]; intros seen best Hseen.
  - exists best. simpl. rewrite app_nil_r. auto.
  - cbn [fold_left]. destruct (beats v best) eqn:E.
    + destruct (IH (seen ++ [v])%list v) as [m [E1 [E2 E3]]].
      { apply Forall_app. split.
        - eapply Forall_impl; [| exact Hseen]. intros u Hu. simpl in Hu.
          apply (Htrans u best v Hu). now apply Hasym.
        - constructor; [apply Hrefl | constructor]. }
      exists m. split; [exact E1 | split].
      * right. destruct E2 as [-> | E2]; [now left | now right].
      * now rewrite <- app_assoc in E3.
    + destruct (IH (seen ++ [v])%list best) as [m [E1 [E2 E3]]].
      { apply Forall_app. split; [exact Hseen | constructor; [exact E | constructor]]. }
      exists m. split; [exact E1 | split].
      * destruct E2 as [-> | E2]; [now left | right; now right].
      * now rewrite <- app_assoc in E3.
Qed.

Lemma extremum_of_spec (beats : string -> string -> bool) (values : list string) :
  (forall a b, beats a b = true -> beats b a = false) ->
  (forall a b c, beats a b = false -> beats b c = false -> beats a c = false) ->
  (forall a, beats a a = false) ->
  values <> [] ->
  exists m, extremum_of beats values = Some m /\ In m values
            /\ Forall (fun v => beats v m = false) values.
Proof.
  intros Hasym Htrans Hrefl Hne. destruct values as [|v0 rest]; [congruence |].
  unfold extremum_of. cbn [fold_left].
  destruct (extremum_of_fold beats rest [v0] v0 Hasym Htrans Hrefl)
    as [m [E1 [E2 E3]]].
  { constructor; [apply Hrefl | constructor]. }
  exists m. split; [exact E1 | split; [| exact E3]].
  destruct E2 as [-> | E2]; [now left | now right].
Qed.

Lemma ltb_irrefl (a : string) : String.ltb a a = false.
Proof. unfold String.ltb. now rewrite compare_refl. Qed.

(** X17. For a column of type [string] or [date], the minimum and the
    maximum of the statistics are among the texts of the column, none of
    which comes before the minimum or after the maximum in the order of
    code units. *)
Theorem text_column_has_bounds (H : host) (data : list DataRow) (column : string) :
  info_type (getColumnStats H data column) = TString
  \/ info_type (getColumnStats H data column) = TDate ->
  exists lo hi,
    info_min (getColumnStats H data column) = VStr lo
    /\ info_max (getColumnStats H data column) = VStr hi
    /\ In lo (column_texts data column) /\ In hi (column_texts data column)
    /\ Forall (fun s => String.ltb s lo = false /\ String.ltb hi s = false)
         (column_texts data column).
Proof.
  intros Ht.
  destruct (getColumnStats_fields H data column) as [_ [Ht' _]].
  assert (Hne : column_texts data column <> []).
  { unfold column_texts. intros E. apply map_eq_nil in E.
    rewrite Ht' in Ht. unfold detectColumnType in Ht. rewrite filter_idem, E in Ht.
    destruct Ht as [Ht | Ht]; discriminate Ht. }
  destruct (extremum_of_spec String.ltb _ ltb_asym ltb_false_trans ltb_irrefl Hne)
    as [lo [Elo [Hlo1 Hlo2]]].
  destruct (extremum_of_spec (fun v b => String.ltb b v) (column_texts data column))
    as [hi [Ehi [Hhi1 Hhi2]]].
  { intros a b. apply ltb_asym. }
  { intros a b c H1 H2. now apply (ltb_false_trans c b a). }
  { apply ltb_irrefl. }
  { exact Hne. }
  exists lo, hi.
  assert (Emin : min_string (column_texts data column) = lo)
    by (unfold min_string; now rewrite Elo).
  assert (Emax : max_string (column_texts data column) = hi)
    by (unfold max_string; now rewrite Ehi).
  split; [| split; [| split; [exact Hlo1 | split; [exact Hhi1 |]]]].
  - rewrite <- Emin. unfold getColumnStats.
    rewrite Ht' in Ht. destruct Ht as [-> | ->]; reflexivity.
  - rewrite <- Emax. unfold getColumnStats.
    rewrite Ht' in Ht. destruct Ht as [-> | ->]; reflexivity.
  - rewrite Forall_forall in *. intros s Hs. split; [now apply Hlo2 | now apply Hhi2].
Qed.

Lemma text_column_has_bounds_witness :
  exists lo hi,
    info_min (getColumnStats reference_host rows_name "name") = VStr lo
    /\ info_max (getColumnStats reference_host rows_name "name") = VStr hi
    /\ In lo (column_texts rows_name "name") /\ In hi (column_texts rows_name "name")
    /\ Forall (fun s => String.ltb s lo = false /\ String.ltb hi s = false)
         (column_texts rows_name "name").
Proof.
  apply (text_column_has_bounds reference_host rows_name "name").
  left. vm_compute. reflexivity.
Defined.

Lemma firstn_app_long {A : Type} (n : nat) (l l' : list A) :
  n <= List.length l -> firstn n (l ++ l') = firstn n l.
Proof.
  intros Hn. rewrite firstn_app.
  replace (n - List.length l) with 0 by lia. simpl. apply app_nil_r.
Qed.

(** X18. The type of a column depends on its first hundred values that
    are not blank only: with a hundred of them, the values that follow do
    not change it. *)
Theorem type_from_first_hundred (H : host) (values more : list jsval) :
  100 <= List.length (filter non_empty values) ->
  detectColumnType H (values ++ more) = detectColumnType H values.
Proof.
  intros Hlen. unfold detectColumnType. rewrite filter_app.
  rewrite (firstn_app_long 100 _ _ Hlen).
  destruct (filter non_empty values) as [|v l]; [simpl in Hlen; lia | reflexivity].
Qed.

Lemma type_from_first_hundred_witness :
  detectColumnType reference_host (repeat (VNum (num_of_Z 7)) 100 ++ [VStr "seven"])
  = detectColumnType reference_host (repeat (VNum (num_of_Z 7)) 100).
Proof.
  apply type_from_first_hundred. apply Nat.leb_le. vm_compute. reflexivity.
Defined.

(** X19. The type of a column is [empty] exactly when each of its values
    is [null], [undefined] or the empty text. *)
Theorem empty_type_iff_no_value (H : host) (values : list jsval) :
  detectColumnType H values = TEmpty
  <-> Forall (fun v => non_empty v = false) values.
Proof.
  unfold detectColumnType. split.
  - intros E. destruct (filter non_empty values) as [|v l] eqn:Ef.
    + apply Forall_forall. intros v Hv.
      destruct (non_empty v) eqn:Ev; [| reflexivity].
      assert (Hin : In v (filter non_empty values)) by (apply filter_In; now split).
      rewrite Ef in Hin. destruct Hin.
    + repeat match type of E with
             | (if ?b then _ else _) = _ => destruct b
             end; discriminate E.
  - intros Hall. replace (filter non_empty values) with (@nil jsval); [reflexivity |].
    symmetry. induction Hall as [|v l Hv _ IH]; simpl; [reflexivity |]. now rewrite Hv.
Qed.

(* ================================================================== *)
(** * Editing the configuration: filters, sort keys, formulas *)

Lemma find_absent (column : string) (l : list SortConfig) :
  ~ In column (map sort_column l) ->
  find (fun s => String.eqb (sort_column s) column) l = None
  /\ forall s, In s l -> String.eqb (sort_column s) column = false.
Proof.
  intros Hout.
  assert (Hall : forall s, In s l -> String.eqb (sort_column s) column = false).
  { intros s Hs. apply String.eqb_neq. intros E. apply Hout. rewrite <- E.
    now apply in_map. }
  split; [| exact Hall].
  destruct (find _ l) as [s |] eqn:E; [| reflexivity].
  apply find_some in E. destruct E as [Hs E]. now rewrite (Hall s Hs) in E.
Qed.

Lemma find_last (column : string) (l : list SortConfig) (x : SortConfig) :
  ~ In column (map sort_column l) -> sort_column x = column ->
  find (fun s => String.eqb (sort_column s) column) (l ++ [x]) = Some x.
Proof.
  intros Hout Hx. induction l as [|y l IH]; simpl.
  - now rewrite Hx, String.eqb_refl.
  - destruct (String.eqb_spec (sort_column y) column) as [E | _].
    + exfalso. apply Hout. now left.
    + apply IH. intros Hin. apply Hout. now right.
Qed.

(** X20. For a column that is no sort key, [toggleSort] adds it as the
    last key, ascending; a second call makes it descending, in place; a
    third one removes it and gives back the keys there were. *)
Theorem toggle_sort_cycle (column : string) (sortConfig : list SortConfig) :
  ~ In column (map sort_column sortConfig) ->
  Editor.toggleSort column sortConfig = (sortConfig ++ [sort_on column "asc"])%list
  /\ Editor.toggleSort column (Editor.toggleSort column sortConfig)
     = (sortConfig ++ [sort_on column "desc"])%list
  /\ Editor.toggleSort column
       (Editor.toggleSort column (Editor.toggleSort column sortConfig))
     = sortConfig.
Proof.
  intros Hout. destruct (find_absent column sortConfig Hout) as [Hfind Hall].
  assert (E1 : Editor.toggleSort column sortConfig
               = (sortConfig ++ [sort_on column "asc"])%list).
  { unfold Editor.toggleSort. now rewrite Hfind. }
  assert (E2 : Editor.toggleSort column (sortConfig ++ [sort_on column "asc"])%list
               = (sortConfig ++ [sort_on column "desc"])%list).
  { unfold Editor.toggleSort.
    rewrite (find_last column sortConfig (sort_on column "asc") Hout eq_refl).
    simpl. rewrite map_app. simpl. rewrite String.eqb_refl. f_equal.
    rewrite <- (map_id sortConfig) at 2. apply map_ext_in.
    intros s Hs. now rewrite (Hall s Hs). }
  assert (E3 : Editor.toggleSort column (sortConfig ++ [sort_on column "desc"])%list
               = sortConfig).
  { unfold Editor.toggleSort.
    rewrite (find_last column sortConfig (sort_on column "desc") Hout eq_refl).
    simpl. rewrite filter_app. simpl. rewrite String.eqb_refl. simpl.
    rewrite app_nil_r. apply filter_all. intros s Hs. now rewrite (Hall s Hs). }
  split; [exact E1 | split]; rewrite E1, E2; [reflexivity | exact E3].
Qed.

Lemma toggle_sort_cycle_witness :
  Editor.toggleSort "b"
    (Editor.toggleSort "b" (Editor.toggleSort "b" [sort_on "a" "desc"]))
  = [sort_on "a" "desc"].
Proof.
  apply (toggle_sort_cycle "b" [sort_on "a" "desc"]).
  simpl. intros [E | []]. discriminate E.
Defined.

Lemma kept_keys_distinct (keep : SortConfig -> bool) (keys : list SortConfig) :
  NoDup (map sort_column keys) -> NoDup (map sort_column (filter keep keys)).
Proof.
  intros Hnd. induction keys as [|s keys IH]; simpl; [constructor |].
  simpl in Hnd. apply NoDup_cons_iff in Hnd. destruct Hnd as [Hs Hrest].
  destruct (keep s); simpl; [| now apply IH].
  apply NoDup_cons; [| now apply IH].
  intros Hin. apply Hs. apply in_map_iff in Hin. destruct Hin as [z [Ez Hz]].
  apply filter_In in Hz. rewrite <- Ez. apply in_map. tauto.
Qed.

(** X21. [toggleSort] keeps the columns of the sort keys distinct. *)
Theorem toggle_sort_keeps_columns_distinct (column : string)
  (sortConfig : list SortConfig) :
  NoDup (map sort_column sortConfig) ->
  NoDup (map sort_column (Editor.toggleSort column sortConfig)).
Proof.
  intros Hnd. unfold Editor.toggleSort.
  destruct (find _ sortConfig) as [existing |] eqn:Ef.
  - destruct (String.eqb (sort_direction existing) "asc").
    + rewrite map_map.
      replace (map _ sortConfig) with (map sort_column sortConfig); [exact Hnd |].
      apply map_ext. intros s. now destruct (String.eqb (sort_column s) column).
    + now apply kept_keys_distinct.
  - rewrite map_app. simpl.
    apply (Permutation_NoDup (Permutation_cons_append _ _)).
    constructor; [| exact Hnd].
    intros Hin. apply in_map_iff in Hin. destruct Hin as [s [Es Hs]].
    apply (find_none _ _ Ef) in Hs. rewrite Es, String.eqb_refl in Hs. discriminate Hs.
Qed.

Lemma toggle_sort_keeps_columns_distinct_witness :
  NoDup (map sort_column (Editor.toggleSort "a" [sort_on "a" "asc"; sort_on "b" "asc"])).
Proof.
  apply toggle_sort_keeps_columns_distinct.
  repeat constructor; simpl; intuition discriminate.
Defined.

(** X22. Submitting the formula panel keeps the names of the formulas
    distinct, and keeps every formula with a name and a text that are not
    empty. *)
Theorem formula_names_stay_distinct (panel : FormulaPanel) :
  NoDup (map formula_name (panel_formulas panel)) ->
  Forall (fun f => formula_name f <> "" /\ formula_text f <> "") (panel_formulas panel) ->
  NoDup (map formula_name (panel_formulas (Editor.applyFormula panel)))
  /\ Forall (fun f => formula_name f <> "" /\ formula_text f <> "")
       (panel_formulas (Editor.applyFormula panel)).
Proof.
  intros Hnd Hall. unfold Editor.applyFormula.
  destruct (String.eqb_spec (newFormulaName panel) "") as [En | En];
    [now split |].
  destruct (String.eqb_spec (newFormulaText panel) "") as [Et | Et];
    [now split |].
  cbn [orb].
  destruct (existsb _ (panel_formulas panel)) eqn:Ex; [now split |].
  cbn [panel_formulas]. split.
  - rewrite map_app. simpl.
    apply (Permutation_NoDup (Permutation_cons_append _ _)).
    constructor; [| exact Hnd].
    intros Hin. apply in_map_iff in Hin. destruct Hin as [f [Ef Hf]].
    assert (Hex : existsb (fun f => String.eqb (formula_name f) (newFormulaName panel))
                    (panel_formulas panel) = true).
    { apply existsb_exists. exists f. split; [exact Hf | now apply String.eqb_eq]. }
    rewrite Hex in Ex. discriminate Ex.
  - apply Forall_app. split; [exact Hall |]. constructor; [now split | constructor].
Qed.

Lemma formula_names_stay_distinct_witness :
  NoDup (map formula_name
           (panel_formulas
              (Editor.applyFormula
                 (panel_with [{| formula_name := "t"; formula_text := "ROW()" |}]
                    "t" "ROW() + 1")))).
Proof.
  refine (proj1 (formula_names_stay_distinct
                   (panel_with [{| formula_name := "t"; formula_text := "ROW()" |}]
                      "t" "ROW() + 1") _ _)).
  - repeat constructor. simpl. tauto.
  - repeat constructor; discriminate.
Defined.

(** X23. Where no formula has the name in the panel, submitting the panel
    and then removing the formula of that name gives back the formulas
    there were, whether the submission was accepted or rejected. *)
Theorem removed_formula_restores_list (panel : FormulaPanel) :
  ~ In (newFormulaName panel) (map formula_name (panel_formulas panel)) ->
  Editor.removeFormula (newFormulaName panel)
    (panel_formulas (Editor.applyFormula panel))
  = panel_formulas panel.
Proof.
  intros Hfresh.
  assert (Hkeep : Editor.removeFormula (newFormulaName panel) (panel_formulas panel)
                  = panel_formulas panel).
  { apply filter_all. intros f Hf. apply negb_true_iff, String.eqb_neq.
    intros E. apply Hfresh. rewrite <- E. now apply in_map. }
  unfold Editor.applyFormula.
  destruct (String.eqb (newFormulaName panel) "" || String.eqb (newFormulaText panel) "");
    [exact Hkeep |].
  destruct (existsb _ (panel_formulas panel)); [exact Hkeep |].
  cbn [panel_formulas]. unfold Editor.removeFormula in *.
  rewrite filter_app, Hkeep. simpl. rewrite String.eqb_refl. apply app_nil_r.
Qed.

Lemma removed_formula_restores_list_witness :
  Editor.removeFormula "u"
    (panel_formulas
       (Editor.applyFormula
          (panel_with [{| formula_name := "t"; formula_text := "ROW()" |}] "u" "t")))
  = [{| formula_name := "t"; formula_text := "ROW()" |}].
Proof.
  apply (removed_formula_restores_list
           (panel_with [{| formula_name := "t"; formula_text := "ROW()" |}] "u" "t")).
  simpl. intros [E | []]. discriminate E.
Defined.

Lemma drop_index_spec {A : Type} (l : list A) (index i : nat) :
  Editor.drop_index index i l
  = if (index <? i)%nat then l
    else (firstn (index - i) l ++ skipn (S (index - i)) l)%list.
Proof.
  revert i. induction l as [|x l IH]; intros i.
  - simpl. destruct (index <? i)%nat; [reflexivity |]. now rewrite firstn_nil.
  - simpl. rewrite IH. destruct (Nat.eqb_spec i index) as [-> | Hne].
    + rewrite Nat.ltb_irrefl, Nat.sub_diag.
      destruct (Nat.ltb_spec index (S index)); [reflexivity | lia].
    + destruct (Nat.ltb_spec index i) as [Hlt | Hge].
      * destruct (Nat.ltb_spec index (S i)); [reflexivity | lia].
      * destruct (Nat.ltb_spec index (S i)); [lia |].
        replace (index - i) with (S (index - S i)) by lia. reflexivity.
Qed.

Lemma map_index_nth {A : Type} (g : A -> A) (l : list A) (index i j : nat) :
  nth_error (Editor.map_index g index i l) j
  = if (i + j =? index)%nat then option_map g (nth_error l j) else nth_error l j.
Proof.
  revert i j. induction l as [|x l IH]; intros i j.
  - simpl. destruct j; simpl; now destruct (_ =? _)%nat.
  - destruct j as [|j]; simpl.
    + rewrite Nat.add_0_r. now destruct (i =? index)%nat.
    + rewrite IH. now replace (S i + j) with (i + S j) by lia.
Qed.

Lemma map_index_length {A : Type} (g : A -> A) (l : list A) (index i : nat) :
  List.length (Editor.map_index g index i l) = List.length l.
Proof. revert i. induction l as [|x l IH]; intros i; simpl; [reflexivity | now rewrite IH]. Qed.

(** X24. [removeFilter] drops the filter at the given position and keeps
    the others in order; a position past the end changes nothing; removing
    the last position after [addFilter] gives back the filters there
    were. *)
Theorem filter_removed_by_position :
  (forall index filters,
      Editor.removeFilter index filters
      = (firstn index filters ++ skipn (S index) filters)%list)
  /\ (forall index filters,
         List.length filters <= index -> Editor.removeFilter index filters = filters)
  /\ (forall columns filters,
         Editor.removeFilter (List.length filters) (Editor.addFilter columns filters)
         = filters).
Proof.
  assert (Hspec : forall index filters,
             Editor.removeFilter index filters
             = (firstn index filters ++ skipn (S index) filters)%list).
  { intros index fs. unfold Editor.removeFilter. rewrite drop_index_spec.
    now rewrite Nat.sub_0_r. }
  split; [exact Hspec | split].
  - intros index fs Hlen. rewrite Hspec, firstn_all2, skipn_all2 by lia.
    apply app_nil_r.
  - intros [|c cols] fs; unfold Editor.addFilter; rewrite Hspec.
    + rewrite firstn_all, skipn_all2 by lia. apply app_nil_r.
    + rewrite skipn_all2 by (rewrite length_app; simpl; lia).
      rewrite firstn_app, firstn_all, Nat.sub_diag. simpl. now rewrite !app_nil_r.
Qed.

Lemma filter_removed_by_position_witness :
  Editor.removeFilter 3 [filter_on "a" "gt" "1"] = [filter_on "a" "gt" "1"].
Proof.
  apply (proj1 (proj2 filter_removed_by_position)). simpl. lia.
Defined.

(** X25. [updateFilter] keeps the number of filters, overwrites the given
    fields of the filter at the given position and leaves every other
    filter as it is. *)
Theorem filter_updated_by_position (index : nat) (updates : FilterUpdate)
  (filters : list FilterConfig) :
  List.length (Editor.updateFilter index updates filters) = List.length filters
  /\ forall j,
       nth_error (Editor.updateFilter index updates filters) j
       = if (j =? index)%nat
         then option_map (fun f => Editor.merge_filter f updates) (nth_error filters j)
         else nth_error filters j.
Proof.
  split; [apply map_index_length |].
  intros j. unfold Editor.updateFilter. now rewrite map_index_nth.
Qed.

Lemma toggle_member_twice (c : string) (current : list string) :
  ~ In c current -> toggle_member c (toggle_member c current) = current.
Proof.
  intros Hout. unfold toggle_member at 2.
  assert (E : existsb (String.eqb c) current = false).
  { destruct (existsb (String.eqb c) current) eqn:E; [| reflexivity].
    apply existsb_eqb_In in E. contradiction. }
  rewrite E. unfold toggle_member.
  rewrite existsb_app. simpl. rewrite String.eqb_refl, orb_true_r.
  rewrite filter_app. simpl. rewrite String.eqb_refl. simpl. rewrite app_nil_r.
  apply filter_all. intros r Hr. apply negb_true_iff, String.eqb_neq.
  intros Er. apply Hout. now rewrite <- Er.
Qed.

(** X30. Starting without a pivot configuration, choosing a row label
    alone, or a value column alone, leaves the data as it is: the pivot
    stage runs once both are chosen.  Pressing the button of a row label
    that is not chosen twice gives back the configuration there was. *)
Theorem pivot_buttons_and_stage :
  (forall c data,
      applyPivot (toggle_pivot_row c None) data = data
      /\ applyPivot (toggle_pivot_value c None) data = data)
  /\ (forall r v data,
         applyPivot (toggle_pivot_value v (toggle_pivot_row r None)) data
         = map (pivot_group {| pivot_rows := [r]; pivot_columns := [];
                               pivot_values := [v]; pivot_aggregation := "sum" |})
             (Object_entries
                (groupBy (fun row => join_item (row_get row r)) data)))
  /\ (forall c p,
         ~ In c (pivot_rows p) ->
         toggle_pivot_row c (toggle_pivot_row c (Some p)) = Some p).
Proof.
  split; [| split].
  - intros c data. split; reflexivity.
  - intros r v data. reflexivity.
  - intros c [rows cols vals op] Hout. unfold toggle_pivot_row.
    cbn [pivot_rows pivot_columns pivot_values pivot_aggregation] in *.
    now rewrite toggle_member_twice.
Qed.

Lemma pivot_buttons_and_stage_witness :
  toggle_pivot_row "t" (toggle_pivot_row "t" (Some pivot_sum_by_r))
  = Some pivot_sum_by_r.
Proof.
  apply (proj2 (proj2 pivot_buttons_and_stage)).
  simpl. intros [E | [E | []]]; discriminate E.
Defined.

(* ================================================================== *)
(** * SQL export, chart data and file kinds *)

Lemma sql_escape_cons (c : ascii) (t : string) :
  sql_escape (String c t)
  = if is_apostrophe c then String c (String c (sql_escape t))
    else String c (sql_escape t).
Proof.
  unfold sql_escape, is_apostrophe. cbn [replace_all match_quote].
  destruct (code c =? 39)%nat eqn:E; [| reflexivity].
  apply Nat.eqb_eq in E. unfold code in E.
  assert (Ec : c = "'"%char).
  { rewrite <- (ascii_nat_embedding c), E. reflexivity. }
  subst c. reflexivity.
Qed.

Lemma read_escaped (s rest : string) :
  starts_with_apostrophe rest = false ->
  read_sql_body (sql_escape s ++ "'" ++ rest) = Some (s, rest).
Proof.
  intros Hrest. induction s as [|c t IH].
  - change (sql_escape "") with "". destruct rest as [|r rest']; [reflexivity |].
    simpl in Hrest. simpl. unfold is_apostrophe in *. simpl. now rewrite Hrest.
  - rewrite sql_escape_cons. destruct (is_apostrophe c) eqn:E.
    + change (String c (String c (sql_escape t)) ++ "'" ++ rest)
        with (String c (String c (sql_escape t ++ "'" ++ rest))).
      cbn [read_sql_body]. now rewrite E, IH.
    + change (String c (sql_escape t) ++ "'" ++ rest)
        with (String c (sql_escape t ++ "'" ++ rest)).
      cbn [read_sql_body]. now rewrite E, IH.
Qed.

(** X26. The text that [generateSQL] writes for a string cell is an SQL
    string literal of that string: read with the rule that a doubled quote
    stands for one quote, it gives back the string and stops where the
    literal ends, whatever quotes the string holds. *)
Theorem sql_text_reads_back (s rest : string) :
  starts_with_apostrophe rest = false ->
  read_sql_literal (sql_value (VStr s) ++ rest) = Some (s, rest).
Proof.
  intros Hrest. unfold sql_value. cbn [js_String].
  change (("'" ++ sql_escape s ++ "'") ++ rest)
    with (String "'"%char ((sql_escape s ++ "'") ++ rest)).
  cbn [read_sql_literal]. change (is_apostrophe "'"%char) with true. cbv iota.
  replace ((sql_escape s ++ "'") ++ rest) with (sql_escape s ++ "'" ++ rest).
  - now apply read_escaped.
  - induction (sql_escape s) as [|c t IH]; simpl; [reflexivity | f_equal; exact IH].
Qed.

Lemma sql_text_reads_back_witness :
  read_sql_literal (sql_value (VStr "it's ''x'', 1); --") ++ ", 2)")
  = Some ("it's ''x'', 1); --", ", 2)").
Proof. apply sql_text_reads_back. reflexivity. Defined.

Lemma all_chars_app (p : ascii -> bool) (a b : string) :
  all_chars p (a ++ b) = all_chars p a && all_chars p b.
Proof.
  induction a as [|c a IH]; [reflexivity |].
  change (String c a ++ b) with (String c (a ++ b)).
  rewrite !all_chars_cons, IH. apply andb_assoc.
Qed.

Lemma span_first (p : ascii -> bool) (c : ascii) (t : string) :
  fst (span p (String c t)) = "" -> p c = false.
Proof.
  simpl. destruct (p c); [| reflexivity]. destruct (span p t). discriminate.
Qed.

Lemma sql_column_plain (s : string) (k : nat) :
  all_chars not_space (replace_all match_spaces (fun _ _ => "_") s k) = true.
Proof.
  revert k. induction s as [|c t IH]; intros k; [reflexivity |].
  cbn [replace_all]. destruct k as [|k]; [| apply IH].
  unfold match_spaces. destruct (span is_space (String c t)) as [w r] eqn:E.
  destruct w as [|a w].
  - rewrite all_chars_cons, IH. unfold not_space.
    rewrite (span_first is_space c t); [reflexivity | now rewrite E].
  - rewrite all_chars_app, IH. reflexivity.
Qed.

Lemma match_spaces_plain (s : string) :
  all_chars not_space s = true -> match_spaces s = None.
Proof.
  destruct s as [|c t]; [reflexivity |]. rewrite all_chars_cons.
  intros E. apply andb_prop in E. destruct E as [E _].
  unfold match_spaces, not_space in *. simpl.
  apply negb_true_iff in E. now rewrite E.
Qed.

(** X27. The column name that [generateSQL] declares holds no white
    space, and is the name of the column where that has none. *)
Theorem sql_column_has_no_space (c : string) :
  all_chars not_space (sql_column c) = true
  /\ (all_chars not_space c = true -> sql_column c = c).
Proof.
  split; [apply sql_column_plain |].
  apply (replace_all_none match_spaces _ (fun s => all_chars not_space s = true)).
  - intros a t. apply all_chars_tail.
  - apply match_spaces_plain.
Qed.

Lemma sql_column_has_no_space_witness : sql_column "unit_price" = "unit_price".
Proof. apply (proj2 (sql_column_has_no_space "unit_price")). reflexivity. Defined.

Lemma substring_length (n : nat) (s : string) :
  String.length (substring 0 n s) <= n.
Proof.
  revert s. induction n as [|n IH]; intros s.
  - destruct s; simpl; lia.
  - destruct s as [|c t]; simpl; [lia |]. specialize (IH t). lia.
Qed.

(** X28. The chart has no point, or one for each of the first twenty
    rows; it has none with fewer than two columns; the name of a point
    has at most twenty characters and its value is never [NaN] nor the
    negative zero. *)
Theorem chart_points_are_bounded (transformedData : list DataRow)
  (columns : list string) (columnStats : list ColumnInfo) :
  let points := chartData transformedData columns columnStats in
  (points = [] \/ List.length points = Nat.min 20 (List.length transformedData))
  /\ (List.length columns < 2 -> points = [])
  /\ Forall (fun p => String.length (point_name p) <= 20
                      /\ isNaN (point_value p) = false
                      /\ is_neg_zero (point_value p) = false) points.
Proof.
  intros points. unfold chartData in points.
  assert (Hnone : (@nil ChartPoint = [] \/
                   List.length (@nil ChartPoint)
                   = Nat.min 20 (List.length transformedData))
                  /\ (List.length columns < 2 -> @nil ChartPoint = [])
                  /\ Forall (fun p => String.length (point_name p) <= 20
                                      /\ isNaN (point_value p) = false
                                      /\ is_neg_zero (point_value p) = false) []).
  { split; [now left | split; [reflexivity | constructor]]. }
  destruct (Nat.ltb_spec (List.length columns) 2) as [Hlt | Hge]; [exact Hnone |].
  destruct (find _ columns) as [[|c numCol] |]; [exact Hnone | | exact Hnone].
  subst points. split; [| split].
  - right. now rewrite length_map, length_firstn.
  - lia.
  - apply Forall_forall. intros p Hp. apply in_map_iff in Hp.
    destruct Hp as [row [<- _]]. cbn [point_name point_value].
    split; [apply substring_length |].
    destruct (js_Number (row_get row (String c numCol))) as [[]|[]| |[] m e];
      split; reflexivity.
Qed.

Lemma chart_points_are_bounded_witness : chartData rows_ab ["a"] [] = [].
Proof.
  apply (proj1 (proj2 (chart_points_are_bounded rows_ab ["a"] []))). simpl. lia.
Defined.

Lemma strip_dot (c : ascii) (t : string) :
  strip_prefix "." (String c t) = if Ascii.eqb "."%char c then Some t else None.
Proof. reflexivity. Qed.

Lemma split_go_no_dot (p : string) (cur : string -> string) :
  all_chars not_dot p = true -> split_go "." cur p 0 = [cur p].
Proof.
  revert cur. induction p as [|c p IH]; intros cur Hp; [reflexivity |].
  rewrite all_chars_cons in Hp. apply andb_true_iff in Hp. destruct Hp as [Hc Hp].
  cbn [split_go]. rewrite strip_dot.
  destruct (Ascii.eqb_spec "."%char c) as [<- | _]; [discriminate Hc |].
  apply (IH (fun x => cur (String c x)) Hp).
Qed.

Lemma split_go_not_nil (sep : string) (cur : string -> string) (s : string) (k : nat) :
  split_go sep cur s k <> [].
Proof.
  revert cur k. induction s as [|c t IH]; intros cur k; simpl; [discriminate |].
  destruct k; [| apply IH].
  destruct (strip_prefix sep (String c t)); [discriminate | apply IH].
Qed.

Lemma last_cons {A : Type} (x : A) (l : list A) (d : A) :
  l <> [] -> last (x :: l) d = last l d.
Proof. destruct l; [congruence | reflexivity]. Qed.

Lemma last_split_dot (base ext : string) (cur : string -> string) :
  all_chars not_dot ext = true ->
  last (split_go "." cur (base ++ "." ++ ext) 0) "" = ext.
Proof.
  intros Hext. revert cur. induction base as [|c base IH]; intros cur.
  - change ("" ++ "." ++ ext) with (String "."%char ext).
    cbn [split_go]. rewrite strip_dot. simpl.
    now rewrite (split_go_no_dot ext _ Hext).
  - change (String c base ++ "." ++ ext) with (String c (base ++ "." ++ ext)).
    cbn [split_go]. rewrite strip_dot.
    destruct (Ascii.eqb "."%char c).
    + rewrite last_cons by apply split_go_not_nil. apply IH.
    + apply IH.
Qed.

(** X29. The extension that selects the parser of an uploaded file is
    what follows the last dot of its name, in lower case; for a name
    without dot it is the whole name. *)
Theorem extension_after_last_dot (ext : string) :
  all_chars not_dot ext = true ->
  (forall base, file_extension (base ++ "." ++ ext) = toLowerCase ext)
  /\ file_extension ext = toLowerCase ext.
Proof.
  intros Hext. unfold file_extension, str_split. split.
  - intros base. now rewrite last_split_dot.
  - now rewrite split_go_no_dot.
Qed.

Lemma extension_after_last_dot_witness :
  file_kind ("sales.2024" ++ "." ++ "CSV") = CsvFile /\ file_kind "json" = JsonFile.
Proof.
  unfold file_kind.
  destruct (extension_after_last_dot "CSV" eq_refl) as [E1 _].
  destruct (extension_after_last_dot "json" eq_refl) as [_ E2].
  rewrite (E1 "sales.2024"), E2. split; reflexivity.
Defined.

(* ================================================================== *)
(** * The embedding on sample inputs *)

Example sort_by_k_result :
  map (fun r => row_get r "n") (applySort reference_host sort_by_k rows_k101)
  = [VStr "b"; VStr "a"; VStr "c"].
Proof. vm_compute. reflexivity. Qed.

Example scenario_result :
  applyTransformations reference_host scenario
  = Some [[("a", VNum (num_of_Z 3)); ("b", VStr "x"); ("len", VNum (num_of_Z 1))];
          [("a", VNum (num_of_Z 1)); ("b", VStr "x"); ("len", VNum (num_of_Z 1))]].
Proof. vm_compute. reflexivity. Qed.

Example len_of_zero_cell_in_formula :
  applyFormula reference_host ["n"] [[("n", VNum (num_of_Z 0))]]
    {| formula_name := "len"; formula_text := "LEN(n)" |}
  = Some [[("n", VNum (num_of_Z 0)); ("len", VNum (num_of_Z 0))]].
Proof. vm_compute. reflexivity. Qed.

Example number_to_string_samples :
  map (fun s => NumberToString (StringToNumber s))
    ["1"; " 12 "; ""; "0.1"; "1e21"; "1e-7"; "-1.25"; "0x1F"; "abc"; ".5"; "5.";
     "9007199254740993"; "Infinity"; "1e309"]
  = ["1"; "12"; "0"; "0.1"; "1e+21"; "1e-7"; "-1.25"; "31"; "NaN"; "0.5"; "5";
     "9007199254740992"; "Infinity"; "Infinity"]
  /\ NumberToString (num_add (StringToNumber "0.1") (StringToNumber "0.2"))
     = "0.30000000000000004".
Proof. split; vm_compute; reflexivity. Qed.
